(** * Two-tier selection state of the advanced selection table

    A shallow embedding of [AdvancedSelectionWidget]
    (src/ui/selection_widget.py): the two feature-id sets
    [original_selection] (cyan) and [highlighted_features] (yellow), the
    clipboard, the table widget the row clicks are read from, the derived
    views, and the calls into the host layer.

    Python [set] objects are mutable and shared by reference: [s.clear()],
    [s -= t] and [s &= t] mutate the object, [s.copy()] and [set(...)]
    create a new one, and [self.x = e] rebinds the attribute.  The model
    therefore keeps a store of set objects and lets the attributes hold
    references into it.

    The host (QGIS layer, canvas, message bar, Qt table) is not part of the
    repository.  Its model below is the contract the widget relies on:
    - [getFeatures] with a fid filter yields the layer's features whose id
      is in the filter, each once;
    - [selectByIds] replaces the layer selection and emits
      [selectionChanged];
    - [startEditing] emits [editingStarted], [commitChanges] and [rollBack]
      emit [editingStopped];
    - [deleteFeatures] either succeeds, removes the features and emits
      [featuresDeleted], or fails and leaves the layer as it was;
    - a [QTableWidget] emits [itemSelectionChanged] when its row selection
      changes, unless its signals are blocked.
    Signals are delivered synchronously to the slots connected in
    [connect_signals]. *)

From stdpp Require Import base gmap sets list strings pretty sorting.
From Stdlib Require Import ZArith Lia.

Local Open Scope Z_scope.

Set Primitive Projections.
#[local] Set Warnings "-clear-no-such-hyp".

(** ** Data model *)

(** Feature ids are the host's 64-bit integers, modelled as [Z]; no
    arithmetic is done on them.  A reference to a Python [set] object is
    its index in the store, a [nat]. *)

(** What the host keeps for one record: printed attribute values by field
    name (a missing key is a NULL attribute) and an optional geometry
    handle ([None] is a null geometry). *)
Record FeatureData := {
  attrs : gmap string string;
  geometry : option Z;
}.

(** A [QgsFeature] value is a pair [Z * FeatureData]: its id and a
    snapshot of its data. *)

(** The host layer. [features] is what [getFeatures] iterates over (edit
    buffer included), [committed] what [rollBack] returns to. *)
Record Layer := {
  fields : list string;
  features : gmap Z FeatureData;
  committed : gmap Z FeatureData;
  selectedFeatureIds : gset Z;
  isEditable : bool;
}.

(** One [QTableWidgetItem]: its text, the field name stored under
    [Qt.UserRole], the fid stored under [Qt.UserRole + 1] and its
    editable flag. *)
Record Cell := {
  cell_text : string;
  cell_field : string;
  cell_fid : Z;
  cell_editable : bool;
}.

(** The [QTableWidget]: the items row by row (a row whose items were
    removed is the empty list), the header labels, the selected rows of
    the selection model and the two switches [populate_table] toggles. *)
Record Table := {
  rows : list (list Cell);
  header_labels : list string;
  selected_rows : gset nat;
  sortingEnabled : bool;
  signalsBlocked : bool;
}.

(** The info label: the cyan count and, when there are highlights, the
    yellow count ([None] stands for the hint shown instead). *)
Record InfoLabel := {
  cyan_count : nat;
  yellow_count : option nat;
}.

(** Enabled state of the toolbar actions, and the target description
    used in their tooltips. *)
Record Buttons := {
  clear_highlights_enabled : bool;
  highlight_all_enabled : bool;
  reselect_enabled : bool;
  select_expr_enabled : bool;
  invert_enabled : bool;
  delete_enabled : bool;
  cut_enabled : bool;
  copy_enabled : bool;
  paste_enabled : bool;
  zoom_enabled : bool;
  field_calc_enabled : bool;
  target_desc : string;
}.

(** The attributes of [self]. *)
Record Widget := {
  original_selection : nat;
  highlighted_features : nat;
  clipboard_features : list (Z * FeatureData);
  last_clicked_row : option nat;
  _updating_selection : bool;
  _updating_highlights : bool;
  row_to_fid : gmap nat Z;
  fid_to_row : gmap Z nat;
  table_widget : Table;
  info_label : InfoLabel;
  buttons : Buttons;
  cyan_rubber_band : list Z;
  yellow_rubber_band : list Z;
}.

(** Observable effects on the host user interface, most recent first. *)
Inductive MessageLevel := Info | Success | Warning | Critical | Question.

Inductive Effect :=
  | ViewportUpdate
  | CanvasRefresh
  | MessageBar (level : MessageLevel) (title text : string)
  | MessageBox (level : MessageLevel) (title text : string)
  | HighlightChanged (ids : gset Z)
  | ZoomToSelected
  | FlashFeatureIds (ids : list Z)
  | FilterDialogOpened (selected : gset Z)
  | FieldCalculatorOpened (target all : gset Z).

(** Calls that write to the host layer, most recent first. *)
Inductive HostCall :=
  | SelectByIds (ids : list Z)
  | StartEditing
  | CommitChanges
  | RollBack
  | DeleteFeatures (ids : list Z)
  | AddFeatures (new : list (Z * FeatureData))
  | AddAttributes (name type : string)
  | ChangeAttributeValue (f : Z) (field value : string).

Record World := {
  self : Widget;
  layer : Layer;
  heap : list (gset Z);
  effects : list Effect;
  host_calls : list HostCall;
}.

(** ** Field updates *)

Definition with_self (f : Widget → Widget) (w : World) : World :=
  {| self := f (self w); layer := layer w; heap := heap w;
     effects := effects w; host_calls := host_calls w |}.

Definition with_layer (f : Layer → Layer) (w : World) : World :=
  {| self := self w; layer := f (layer w); heap := heap w;
     effects := effects w; host_calls := host_calls w |}.

Definition with_heap (f : list (gset Z) → list (gset Z)) (w : World) : World :=
  {| self := self w; layer := layer w; heap := f (heap w);
     effects := effects w; host_calls := host_calls w |}.

Definition emit (e : Effect) (w : World) : World :=
  {| self := self w; layer := layer w; heap := heap w;
     effects := e :: effects w; host_calls := host_calls w |}.

Definition host_call (c : HostCall) (w : World) : World :=
  {| self := self w; layer := layer w; heap := heap w;
     effects := effects w; host_calls := c :: host_calls w |}.

Definition set_original_selection (r : nat) (s : Widget) : Widget :=
  {| original_selection := r; highlighted_features := highlighted_features s;
     clipboard_features := clipboard_features s;
     last_clicked_row := last_clicked_row s;
     _updating_selection := _updating_selection s;
     _updating_highlights := _updating_highlights s;
     row_to_fid := row_to_fid s; fid_to_row := fid_to_row s;
     table_widget := table_widget s; info_label := info_label s;
     buttons := buttons s; cyan_rubber_band := cyan_rubber_band s;
     yellow_rubber_band := yellow_rubber_band s |}.

Definition set_highlighted_features (r : nat) (s : Widget) : Widget :=
  {| original_selection := original_selection s; highlighted_features := r;
     clipboard_features := clipboard_features s;
     last_clicked_row := last_clicked_row s;
     _updating_selection := _updating_selection s;
     _updating_highlights := _updating_highlights s;
     row_to_fid := row_to_fid s; fid_to_row := fid_to_row s;
     table_widget := table_widget s; info_label := info_label s;
     buttons := buttons s; cyan_rubber_band := cyan_rubber_band s;
     yellow_rubber_band := yellow_rubber_band s |}.

Definition set_clipboard_features (c : list (Z * FeatureData)) (s : Widget) : Widget :=
  {| original_selection := original_selection s;
     highlighted_features := highlighted_features s;
     clipboard_features := c;
     last_clicked_row := last_clicked_row s;
     _updating_selection := _updating_selection s;
     _updating_highlights := _updating_highlights s;
     row_to_fid := row_to_fid s; fid_to_row := fid_to_row s;
     table_widget := table_widget s; info_label := info_label s;
     buttons := buttons s; cyan_rubber_band := cyan_rubber_band s;
     yellow_rubber_band := yellow_rubber_band s |}.

Definition set_last_clicked_row (r : option nat) (s : Widget) : Widget :=
  {| original_selection := original_selection s;
     highlighted_features := highlighted_features s;
     clipboard_features := clipboard_features s;
     last_clicked_row := r;
     _updating_selection := _updating_selection s;
     _updating_highlights := _updating_highlights s;
     row_to_fid := row_to_fid s; fid_to_row := fid_to_row s;
     table_widget := table_widget s; info_label := info_label s;
     buttons := buttons s; cyan_rubber_band := cyan_rubber_band s;
     yellow_rubber_band := yellow_rubber_band s |}.

Definition set_updating_selection (b : bool) (s : Widget) : Widget :=
  {| original_selection := original_selection s;
     highlighted_features := highlighted_features s;
     clipboard_features := clipboard_features s;
     last_clicked_row := last_clicked_row s;
     _updating_selection := b;
     _updating_highlights := _updating_highlights s;
     row_to_fid := row_to_fid s; fid_to_row := fid_to_row s;
     table_widget := table_widget s; info_label := info_label s;
     buttons := buttons s; cyan_rubber_band := cyan_rubber_band s;
     yellow_rubber_band := yellow_rubber_band s |}.

Definition set_updating_highlights (b : bool) (s : Widget) : Widget :=
  {| original_selection := original_selection s;
     highlighted_features := highlighted_features s;
     clipboard_features := clipboard_features s;
     last_clicked_row := last_clicked_row s;
     _updating_selection := _updating_selection s;
     _updating_highlights := b;
     row_to_fid := row_to_fid s; fid_to_row := fid_to_row s;
     table_widget := table_widget s; info_label := info_label s;
     buttons := buttons s; cyan_rubber_band := cyan_rubber_band s;
     yellow_rubber_band := yellow_rubber_band s |}.

Definition set_row_maps (r2f : gmap nat Z) (f2r : gmap Z nat) (s : Widget) : Widget :=
  {| original_selection := original_selection s;
     highlighted_features := highlighted_features s;
     clipboard_features := clipboard_features s;
     last_clicked_row := last_clicked_row s;
     _updating_selection := _updating_selection s;
     _updating_highlights := _updating_highlights s;
     row_to_fid := r2f; fid_to_row := f2r;
     table_widget := table_widget s; info_label := info_label s;
     buttons := buttons s; cyan_rubber_band := cyan_rubber_band s;
     yellow_rubber_band := yellow_rubber_band s |}.

Definition with_table (f : Table → Table) (s : Widget) : Widget :=
  {| original_selection := original_selection s;
     highlighted_features := highlighted_features s;
     clipboard_features := clipboard_features s;
     last_clicked_row := last_clicked_row s;
     _updating_selection := _updating_selection s;
     _updating_highlights := _updating_highlights s;
     row_to_fid := row_to_fid s; fid_to_row := fid_to_row s;
     table_widget := f (table_widget s); info_label := info_label s;
     buttons := buttons s; cyan_rubber_band := cyan_rubber_band s;
     yellow_rubber_band := yellow_rubber_band s |}.

Definition set_info_label (l : InfoLabel) (s : Widget) : Widget :=
  {| original_selection := original_selection s;
     highlighted_features := highlighted_features s;
     clipboard_features := clipboard_features s;
     last_clicked_row := last_clicked_row s;
     _updating_selection := _updating_selection s;
     _updating_highlights := _updating_highlights s;
     row_to_fid := row_to_fid s; fid_to_row := fid_to_row s;
     table_widget := table_widget s; info_label := l;
     buttons := buttons s; cyan_rubber_band := cyan_rubber_band s;
     yellow_rubber_band := yellow_rubber_band s |}.

Definition set_buttons (b : Buttons) (s : Widget) : Widget :=
  {| original_selection := original_selection s;
     highlighted_features := highlighted_features s;
     clipboard_features := clipboard_features s;
     last_clicked_row := last_clicked_row s;
     _updating_selection := _updating_selection s;
     _updating_highlights := _updating_highlights s;
     row_to_fid := row_to_fid s; fid_to_row := fid_to_row s;
     table_widget := table_widget s; info_label := info_label s;
     buttons := b; cyan_rubber_band := cyan_rubber_band s;
     yellow_rubber_band := yellow_rubber_band s |}.

Definition set_rubber_bands (cyan yellow : list Z) (s : Widget) : Widget :=
  {| original_selection := original_selection s;
     highlighted_features := highlighted_features s;
     clipboard_features := clipboard_features s;
     last_clicked_row := last_clicked_row s;
     _updating_selection := _updating_selection s;
     _updating_highlights := _updating_highlights s;
     row_to_fid := row_to_fid s; fid_to_row := fid_to_row s;
     table_widget := table_widget s; info_label := info_label s;
     buttons := buttons s; cyan_rubber_band := cyan;
     yellow_rubber_band := yellow |}.

Definition set_rows (r : list (list Cell)) (t : Table) : Table :=
  {| rows := r; header_labels := header_labels t;
     selected_rows := selected_rows t; sortingEnabled := sortingEnabled t;
     signalsBlocked := signalsBlocked t |}.

Definition set_header_labels (h : list string) (t : Table) : Table :=
  {| rows := rows t; header_labels := h;
     selected_rows := selected_rows t; sortingEnabled := sortingEnabled t;
     signalsBlocked := signalsBlocked t |}.

Definition set_selected_rows (s : gset nat) (t : Table) : Table :=
  {| rows := rows t; header_labels := header_labels t;
     selected_rows := s; sortingEnabled := sortingEnabled t;
     signalsBlocked := signalsBlocked t |}.

Definition setSortingEnabled (b : bool) (t : Table) : Table :=
  {| rows := rows t; header_labels := header_labels t;
     selected_rows := selected_rows t; sortingEnabled := b;
     signalsBlocked := signalsBlocked t |}.

Definition blockSignals (b : bool) (t : Table) : Table :=
  {| rows := rows t; header_labels := header_labels t;
     selected_rows := selected_rows t; sortingEnabled := sortingEnabled t;
     signalsBlocked := b |}.

Definition set_fields (fs : list string) (l : Layer) : Layer :=
  {| fields := fs; features := features l; committed := committed l;
     selectedFeatureIds := selectedFeatureIds l; isEditable := isEditable l |}.

Definition set_features (f : gmap Z FeatureData) (l : Layer) : Layer :=
  {| fields := fields l; features := f; committed := committed l;
     selectedFeatureIds := selectedFeatureIds l; isEditable := isEditable l |}.

Definition set_committed (f : gmap Z FeatureData) (l : Layer) : Layer :=
  {| fields := fields l; features := features l; committed := f;
     selectedFeatureIds := selectedFeatureIds l; isEditable := isEditable l |}.

Definition set_selectedFeatureIds (s : gset Z) (l : Layer) : Layer :=
  {| fields := fields l; features := features l; committed := committed l;
     selectedFeatureIds := s; isEditable := isEditable l |}.

Definition set_isEditable (b : bool) (l : Layer) : Layer :=
  {| fields := fields l; features := features l; committed := committed l;
     selectedFeatureIds := selectedFeatureIds l; isEditable := b |}.

(** ** The store of set objects *)

Definition deref (h : list (gset Z)) (r : nat) : gset Z := default ∅ (h !! r).

(** The contents of the two tracked sets. *)
Definition original (w : World) : gset Z :=
  deref (heap w) (original_selection (self w)).

Definition highlighted (w : World) : gset Z :=
  deref (heap w) (highlighted_features (self w)).

(** Python truthiness of a set and of a list. *)
Definition truthy (s : gset Z) : bool := bool_decide (s ≠ ∅).

(** ** State passing *)

(** A method body: it reads and updates the world and returns a value.
    Set objects local to one call are plain values; an object gets its
    store cell when it becomes reachable from outside the call, that is
    when it is bound to an attribute or returned. *)
#[projections(primitive=no)]
Record Ran (A : Type) := Ran_ { val : A; world : World }.
Arguments Ran_ {A} val world.
Arguments val {A} r.
Arguments world {A} r.

Definition M (A : Type) : Type := World → Ran A.

Definition ret {A} (a : A) : M A := λ w, Ran_ a w.
Definition bind {A B} (m : M A) (k : A → M B) : M B :=
  λ w, match m w with Ran_ a w' => k a w' end.

(** The world a body leaves behind. *)
Abbreviation exec m w := (world (m w)).

Declare Scope M_scope.
Delimit Scope M_scope with M.
Bind Scope M_scope with M.
Notation "x ← y ; z" := (bind y (λ x, z))
  (at level 20, y at level 100, z at level 200, only parsing) : M_scope.
Notation "x ;; z" := (bind x (λ _, z))
  (at level 100, z at level 200, only parsing, right associativity) : M_scope.
Local Open Scope M_scope.

Definition gets {A} (f : World → A) : M A := λ w, Ran_ (f w) w.
Definition modify (f : World → World) : M () := λ w, Ran_ () (f w).

(** [pass], and the end of a body that returns [None]. *)
Definition skip : M () := ret ().

Fixpoint for_ {A} (l : list A) (body : A → M ()) : M () :=
  match l with
  | [] => skip
  | x :: l' => body x;; for_ l' body
  end.

(** [set(...)], [s.copy()] or a set expression whose result escapes. *)
Definition alloc (s : gset Z) : M nat :=
  λ w, Ran_ (length (heap w)) (with_heap (λ h, h ++ [s]) w).

(** In-place mutation of the object behind [r]. *)
Definition mutate (r : nat) (f : gset Z → gset Z) : M () :=
  modify (with_heap (λ h, <[r := f (deref h r)]> h)).

(** ** Host queries *)

(** [layer.getFeatures(QgsFeatureRequest().setFilterFids(ids))]. *)
Definition getFeatures (ids : list Z) (l : Layer) : list (Z * FeatureData) :=
  filter (λ f, f.1 ∈ ids) (map_to_list (features l)).

(** The non-null geometries of a feature list, in order. *)
Definition geometries (fs : list (Z * FeatureData)) : list Z :=
  omap (λ f, geometry f.2) fs.

(** ** Derived views *)

Definition update_info_label : M () :=
  orig ← gets (λ w, size (original w));
  high ← gets (λ w, size (highlighted w));
  modify (with_self (set_info_label
    {| cyan_count := orig;
       yellow_count := if bool_decide (0 < high)%nat then Some high else None |})).

Definition update_button_states : M () :=
  has_highlights ← gets (λ w, bool_decide (0 < size (highlighted w))%nat);
  has_selection ← gets (λ w, bool_decide (0 < size (original w))%nat);
  has_clipboard ← gets (λ w, bool_decide (0 < length (clipboard_features (self w)))%nat);
  is_editable ← gets (λ w, isEditable (layer w));
  desc ← gets (λ w,
    if has_highlights
    then pretty (size (highlighted w)) +:+ " highlighted (yellow)"
    else pretty (size (original w)) +:+ " selected (cyan)");
  modify (with_self (set_buttons
    {| clear_highlights_enabled := has_highlights;
       highlight_all_enabled := has_selection;
       reselect_enabled := has_highlights;
       select_expr_enabled := has_selection;
       invert_enabled := has_selection;
       delete_enabled := (has_highlights || has_selection) && is_editable;
       cut_enabled := (has_highlights || has_selection) && is_editable;
       copy_enabled := has_highlights || has_selection;
       paste_enabled := has_clipboard && is_editable;
       zoom_enabled := has_highlights || has_selection;
       field_calc_enabled := has_highlights || has_selection;
       target_desc := desc |})).

Definition get_target_features : M nat :=
  hl ← gets highlighted;
  if truthy hl then alloc hl
  else orig ← gets original; alloc orig.

Definition update_map_highlighting : M () :=
  cyan_fids ← gets (λ w, original w ∖ highlighted w);
  cyan ← gets (λ w,
    if truthy cyan_fids
    then geometries (getFeatures (elements cyan_fids) (layer w)) else []);
  yellow ← gets (λ w,
    if truthy (highlighted w)
    then geometries (getFeatures (elements (highlighted w)) (layer w)) else []);
  modify (with_self (set_rubber_bands cyan yellow));;
  modify (emit CanvasRefresh).

(** ** The table widget *)

Definition get_fid_for_row (row : nat) (s : Widget) : option Z :=
  match rows (table_widget s) !! row ≫= head with
  | Some item => Some (cell_fid item)
  | None => row_to_fid s !! row
  end.

Definition get_row_for_fid (f : Z) (s : Widget) : option nat :=
  if negb (sortingEnabled (table_widget s)) then fid_to_row s !! f
  else
    list_find (λ row, get_fid_for_row row s = Some f)
              (seq 0 (length (rows (table_widget s)))) ≫= λ p, Some p.2.

Definition on_table_selection_changed : M () :=
  busy ← gets (λ w, _updating_highlights (self w));
  if busy then skip
  else
    selected ← gets (λ w, selected_rows (table_widget (self w)));
    new_highlighted ← gets (λ w,
      list_to_set (omap (λ row, get_fid_for_row row (self w)) (elements selected)));
    cur ← gets highlighted;
    if bool_decide (new_highlighted ≠ cur) then
      r ← alloc new_highlighted;
      modify (with_self (set_highlighted_features r));;
      modify (emit ViewportUpdate);;
      update_info_label;;
      update_button_states;;
      update_map_highlighting;;
      hl ← gets highlighted;
      modify (emit (HighlightChanged hl));;
      if bool_decide (selected ≠ ∅)
      then modify (with_self (set_last_clicked_row (Some (max_list (elements selected)))))
      else skip
    else skip.

(** The selection model: a change of the selected rows emits
    [itemSelectionChanged], which [connect_signals] wires to
    [on_table_selection_changed]; nothing is emitted while the table's
    signals are blocked or when the selection stays the same. *)
Definition table_select (new : gset nat) : M () :=
  old ← gets (λ w, selected_rows (table_widget (self w)));
  if bool_decide (new = old) then skip
  else
    modify (with_self (with_table (set_selected_rows new)));;
    blocked ← gets (λ w, signalsBlocked (table_widget (self w)));
    if blocked then skip else on_table_selection_changed.

Definition clearSelection : M () := table_select ∅.

Definition selectAll : M () :=
  n ← gets (λ w, length (rows (table_widget (self w))));
  table_select (list_to_set (seq 0 n)).

(** [selection_model.select(index, Select | Rows)]. *)
Definition select_row (row : nat) : M () :=
  old ← gets (λ w, selected_rows (table_widget (self w)));
  table_select (old ∪ {[row]}).

(** [QTableWidget.clear()]: items, selections and header labels go, the
    dimensions stay. *)
Definition table_clear : M () :=
  table_select ∅;;
  modify (with_self (with_table (λ t,
    set_header_labels (map (λ _, "") (header_labels t))
      (set_rows (map (λ _, []) (rows t)) t)))).

Definition make_row (is_editable : bool) (field_names : list string)
    (f : Z * FeatureData) : list Cell :=
  map (λ name,
    {| cell_text := default "" (attrs f.2 !! name);
       cell_field := name;
       cell_fid := f.1;
       cell_editable := is_editable |}) field_names.

(** The [enumerate] loop of [populate_table] fills both dictionaries and
    the items row by row; a later row overwrites an earlier entry of
    [fid_to_row]. *)
Definition populate_table : M () :=
  modify (with_self (with_table (blockSignals true)));;
  modify (with_self (with_table (setSortingEnabled false)));;
  table_clear;;
  modify (with_self (set_row_maps ∅ ∅));;
  sel ← gets original;
  if negb (truthy sel) then
    modify (with_self (with_table (blockSignals false)))
  else
    field_names ← gets (λ w, fields (layer w));
    modify (with_self (with_table (set_header_labels field_names)));;
    feats ← gets (λ w, getFeatures (elements sel) (layer w));
    is_editable ← gets (λ w, isEditable (layer w));
    modify (with_self (set_row_maps
      (map_seq 0 feats.*1)
      (foldl (λ m p, <[p.2 := p.1]> m) ∅ (imap pair feats.*1))));;
    modify (with_self (with_table (set_rows (make_row is_editable field_names <$> feats))));;
    modify (with_self (with_table (setSortingEnabled true)));;
    modify (with_self (with_table (blockSignals false))).

(** ** Slots for the layer's signals *)

(** The loop [for fid in ...: row = self.get_row_for_fid(fid); if row is
    not None: selection_model.select(...)] that [on_editing_mode_changed],
    [select_by_expression] and [invert_highlights] run between setting
    and clearing [_updating_highlights]. *)
Definition select_rows_for (ids : list Z) : M () :=
  for_ ids (λ f,
    row ← gets (λ w, get_row_for_fid f (self w));
    match row with
    | Some r => select_row r
    | None => skip
    end).

Definition on_editing_mode_changed : M () :=
  saved_highlights ← gets highlighted;
  populate_table;;
  r ← alloc saved_highlights;
  modify (with_self (set_highlighted_features r));;
  modify (with_self (set_updating_highlights true));;
  hl ← gets highlighted;
  select_rows_for (elements hl);;
  modify (with_self (set_updating_highlights false));;
  modify (emit ViewportUpdate);;
  update_button_states;;
  update_map_highlighting.

Definition on_layer_selection_changed
    (selected deselected : gset Z) (clearAndSelect : bool) : M () :=
  busy ← gets (λ w, _updating_selection (self w));
  if busy then skip
  else
    new_selection ← gets (λ w, selectedFeatureIds (layer w));
    cur ← gets original;
    if bool_decide (new_selection ≠ cur) then
      r ← alloc new_selection;
      modify (with_self (set_original_selection r));;
      orig ← gets original;
      h ← gets (λ w, highlighted_features (self w));
      mutate h (λ s, s ∩ orig);;
      populate_table;;
      modify (emit ViewportUpdate);;
      update_info_label;;
      update_button_states;;
      update_map_highlighting;;
      n ← gets (λ w, size (original w));
      modify (emit (MessageBar Info "Sync"
        ("Selection updated: " +:+ pretty n +:+ " features")))
    else skip.

Definition on_features_deleted (fids : list Z) : M () :=
  o ← gets (λ w, original_selection (self w));
  mutate o (λ s, s ∖ list_to_set fids);;
  h ← gets (λ w, highlighted_features (self w));
  mutate h (λ s, s ∖ list_to_set fids);;
  populate_table;;
  modify (emit ViewportUpdate);;
  update_info_label;;
  update_button_states;;
  update_map_highlighting.

(** ** Writes to the host layer *)

Definition selectByIds (ids : list Z) : M () :=
  modify (host_call (SelectByIds ids));;
  old ← gets (λ w, selectedFeatureIds (layer w));
  modify (with_layer (set_selectedFeatureIds (list_to_set ids)));;
  on_layer_selection_changed (list_to_set ids) (old ∖ list_to_set ids) true.

Definition startEditing : M () :=
  modify (host_call StartEditing);;
  editable ← gets (λ w, isEditable (layer w));
  if editable then skip
  else
    modify (with_layer (set_isEditable true));;
    on_editing_mode_changed.

Definition commitChanges : M () :=
  modify (host_call CommitChanges);;
  editable ← gets (λ w, isEditable (layer w));
  if editable then
    modify (with_layer (λ l, set_isEditable false (set_committed (features l) l)));;
    on_editing_mode_changed
  else skip.

Definition rollBack : M () :=
  modify (host_call RollBack);;
  editable ← gets (λ w, isEditable (layer w));
  if editable then
    modify (with_layer (λ l, set_isEditable false (set_features (committed l) l)));;
    on_editing_mode_changed
  else skip.

(** [accepted] is the host's verdict on the request. *)
Definition deleteFeatures (ids : list Z) (accepted : bool) : M bool :=
  modify (host_call (DeleteFeatures ids));;
  if accepted then
    modify (with_layer (λ l,
      set_features (filter (λ kv, kv.1 ∉ ids) (features l)) l));;
    on_features_deleted ids;;
    ret true
  else ret false.

(** A write to the host selection made by the widget itself, bracketed
    by the guard flag, as in [reselect_to_highlighted], [delete_features]
    and [zoom_to_highlighted]. *)
Definition guarded_selectByIds (ids : list Z) : M () :=
  modify (with_self (set_updating_selection true));;
  selectByIds ids;;
  modify (with_self (set_updating_selection false)).

(** ** Toolbar actions *)

Definition reselect_to_highlighted : M () :=
  hl ← gets highlighted;
  if negb (truthy hl) then
    modify (emit (MessageBar Info "Selection" "No features highlighted to re-select."))
  else
    r ← alloc hl;
    modify (with_self (set_original_selection r));;
    h ← gets (λ w, highlighted_features (self w));
    mutate h (λ _, ∅);;
    orig ← gets original;
    guarded_selectByIds (elements orig);;
    populate_table;;
    modify (emit ViewportUpdate);;
    update_info_label;;
    update_button_states;;
    update_map_highlighting;;
    n ← gets (λ w, size (original w));
    modify (emit (MessageBar Success "Re-select"
      ("Selection narrowed to " +:+ pretty n +:+ " features."))).

Definition clear_highlights : M () :=
  hl ← gets highlighted;
  if negb (truthy hl) then skip
  else
    h ← gets (λ w, highlighted_features (self w));
    mutate h (λ _, ∅);;
    modify (with_self (set_last_clicked_row None));;
    clearSelection;;
    modify (emit ViewportUpdate);;
    update_info_label;;
    update_button_states;;
    update_map_highlighting;;
    modify (emit (MessageBar Info "Selection"
      ("Cleared " +:+ pretty (size hl) +:+ " highlights."))).

Definition highlight_all : M () :=
  orig ← gets original;
  r ← alloc orig;
  modify (with_self (set_highlighted_features r));;
  selectAll;;
  modify (emit ViewportUpdate);;
  update_info_label;;
  update_button_states;;
  update_map_highlighting;;
  n ← gets (λ w, size (highlighted w));
  modify (emit (MessageBar Success "Selection"
    ("Highlighted " +:+ pretty n +:+ " features."))).

(** What the filter dialog and the host's expression engine answer:
    [None] when the dialog is rejected, else the expression text; the
    parser's error string if any; the truth of the expression on a
    feature. *)
Record FilterAnswer := {
  filter_expression : option string;
  filter_parser_error : option string;
  filter_evaluate : Z * FeatureData → bool;
}.

Definition select_by_expression (a : FilterAnswer) : M () :=
  orig ← gets original;
  if negb (truthy orig) then
    modify (emit (MessageBar Info "Filter" "No features selected to filter."))
  else
    modify (emit (FilterDialogOpened orig));;
    match filter_expression a with
    | None => skip
    | Some expr_text =>
      if bool_decide (expr_text = "") then skip
      else
        match filter_parser_error a with
        | Some err =>
          modify (emit (MessageBar Critical "Filter" ("Expression error: " +:+ err)))
        | None =>
          feats ← gets (λ w, getFeatures (elements (original w)) (layer w));
          r ← alloc (list_to_set (filter (λ f, filter_evaluate a f = true) feats).*1);
          modify (with_self (set_highlighted_features r));;
          modify (with_self (set_updating_highlights true));;
          clearSelection;;
          matching_fids ← gets highlighted;
          select_rows_for (elements matching_fids);;
          modify (with_self (set_updating_highlights false));;
          modify (emit ViewportUpdate);;
          update_info_label;;
          update_button_states;;
          update_map_highlighting;;
          modify (emit (MessageBar Success "Filter"
            ("Highlighted " +:+ pretty (size matching_fids) +:+ " features.")))
        end
    end.

Definition invert_highlights : M () :=
  orig ← gets original;
  if negb (truthy orig) then skip
  else
    hl ← gets highlighted;
    r ← alloc (orig ∖ hl);
    modify (with_self (set_highlighted_features r));;
    modify (with_self (set_updating_highlights true));;
    clearSelection;;
    new_hl ← gets highlighted;
    select_rows_for (elements new_hl);;
    modify (with_self (set_updating_highlights false));;
    modify (emit ViewportUpdate);;
    update_info_label;;
    update_button_states;;
    update_map_highlighting;;
    n ← gets (λ w, size (highlighted w));
    modify (emit (MessageBar Info "Selection"
      ("Inverted: " +:+ pretty n +:+ " highlighted."))).

Definition refresh_table : M () :=
  current_selection ← gets (λ w, selectedFeatureIds (layer w));
  (if truthy current_selection then
     r ← alloc current_selection;
     modify (with_self (set_original_selection r))
   else skip);;
  orig ← gets original;
  h ← gets (λ w, highlighted_features (self w));
  mutate h (λ s, s ∩ orig);;
  populate_table;;
  modify (emit ViewportUpdate);;
  update_info_label;;
  update_button_states;;
  update_map_highlighting.

(** [reply] is the user's answer to the confirmation box ([true] for
    Yes), [accepted] the host's verdict on [deleteFeatures]. *)
Definition delete_features (reply accepted : bool) : M () :=
  fids ← get_target_features;
  ids ← gets (λ w, deref (heap w) fids);
  if negb (truthy ids) then skip
  else
    hl ← gets highlighted;
    modify (emit (MessageBox Question "Delete Features"
      ("Delete " +:+ pretty (size ids) +:+ " "
       +:+ (if truthy hl then "highlighted" else "all selected")
       +:+ " features?")));;
    if negb reply then skip
    else
      was_editing ← gets (λ w, isEditable (layer w));
      (if negb was_editing then startEditing else skip);;
      ids ← gets (λ w, deref (heap w) fids);
      ok ← deleteFeatures (elements ids) accepted;
      if ok then
        (if negb was_editing then commitChanges else skip);;
        o ← gets (λ w, original_selection (self w));
        gone ← gets (λ w, deref (heap w) fids);
        mutate o (λ s, s ∖ gone);;
        h ← gets (λ w, highlighted_features (self w));
        gone ← gets (λ w, deref (heap w) fids);
        mutate h (λ s, s ∖ gone);;
        populate_table;;
        modify (emit ViewportUpdate);;
        update_info_label;;
        update_button_states;;
        orig ← gets original;
        guarded_selectByIds (elements orig);;
        n ← gets (λ w, size (deref (heap w) fids));
        modify (emit (MessageBar Success "Delete"
          ("Deleted " +:+ pretty n +:+ " features.")))
      else
        (if negb was_editing then rollBack else skip);;
        modify (emit (MessageBox Warning "Error" "Failed to delete features.")).

(** [self.clipboard_features.append(QgsFeature(feature))]. *)
Definition clipboard_append (feature : Z * FeatureData) : M () :=
  modify (with_self (λ s,
    set_clipboard_features (clipboard_features s ++ [feature]) s)).

Definition copy_features : M () :=
  fids ← get_target_features;
  ids ← gets (λ w, deref (heap w) fids);
  if negb (truthy ids) then skip
  else
    modify (with_self (set_clipboard_features []));;
    feats ← gets (λ w, getFeatures (elements ids) (layer w));
    for_ feats clipboard_append;;
    update_button_states;;
    n ← gets (λ w, length (clipboard_features (self w)));
    modify (emit (MessageBar Success "Copy"
      ("Copied " +:+ pretty n +:+ " features."))).

Definition cut_features (reply accepted : bool) : M () :=
  copy_features;;
  delete_features reply accepted.

(** [added] is the provider's answer to [addFeatures]: the features as
    stored under their new ids, or [None] when the provider refuses. *)
Definition paste_features (added : option (list (Z * FeatureData))) : M () :=
  clip ← gets (λ w, clipboard_features (self w));
  if bool_decide (clip = []) then skip
  else
    was_editing ← gets (λ w, isEditable (layer w));
    (if negb was_editing then startEditing else skip);;
    modify (host_call (AddFeatures clip));;
    match added with
    | Some new_features =>
      modify (with_layer (λ l,
        set_committed (list_to_map new_features ∪ committed l)
          (set_features (list_to_map new_features ∪ features l) l)));;
      (if negb was_editing then commitChanges else skip);;
      modify (emit (MessageBar Success "Paste"
        ("Pasted " +:+ pretty (length new_features) +:+ " features.")));;
      refresh_table
    | None =>
      (if negb was_editing then rollBack else skip);;
      modify (emit (MessageBox Warning "Error" "Failed to paste features."))
    end.

Definition zoom_to_highlighted : M () :=
  fids ← get_target_features;
  ids ← gets (λ w, deref (heap w) fids);
  if negb (truthy ids) then skip
  else
    guarded_selectByIds (elements ids);;
    modify (emit ZoomToSelected).

Definition open_field_calculator : M () :=
  fids ← get_target_features;
  ids ← gets (λ w, deref (heap w) fids);
  orig ← gets original;
  if negb (truthy ids) && negb (truthy orig) then
    modify (emit (MessageBar Info "Field Calculator" "No features selected."))
  else skip.

(** ** Construction and user input *)

(** [__init__]: both sets are created, the views are built from them by
    [setup_ui], [populate_table], [update_button_states] and
    [update_map_highlighting]. *)
Definition empty_table : Table :=
  {| rows := []; header_labels := []; selected_rows := ∅;
     sortingEnabled := true; signalsBlocked := false |}.

Definition new_widget : Widget :=
  {| original_selection := 0; highlighted_features := 1;
     clipboard_features := []; last_clicked_row := None;
     _updating_selection := false; _updating_highlights := false;
     row_to_fid := ∅; fid_to_row := ∅;
     table_widget := empty_table;
     info_label := {| cyan_count := 0; yellow_count := None |};
     buttons :=
       {| clear_highlights_enabled := false; highlight_all_enabled := false;
          reselect_enabled := false; select_expr_enabled := false;
          invert_enabled := false; delete_enabled := false;
          cut_enabled := false; copy_enabled := false;
          paste_enabled := false; zoom_enabled := false;
          field_calc_enabled := false; target_desc := "" |};
     cyan_rubber_band := []; yellow_rubber_band := [] |}.

Definition init (l : Layer) : World :=
  exec (update_info_label;;
        populate_table;;
        update_button_states;;
        update_map_highlighting)
    {| self := new_widget; layer := l;
       heap := [selectedFeatureIds l; ∅];
       effects := []; host_calls := [] |}.

(** The user changes the row selection of the table (click, Ctrl+click,
    Shift+click): Qt computes the new set of selected rows and the
    selection model reports the change. *)
Definition user_selects_rows (selected : gset nat) : M () :=
  table_select selected.

(** The user sorts the table by a column: the rows are permuted, each
    keeping its items. *)
Definition user_sorts (sorted : list (list Cell)) : M () :=
  modify (with_self (with_table (set_rows sorted))).

(** The layer selection is changed from outside the widget. *)
Definition host_selection_changes (ids : gset Z) : M () :=
  old ← gets (λ w, selectedFeatureIds (layer w));
  modify (with_layer (set_selectedFeatureIds ids));;
  on_layer_selection_changed ids (old ∖ ids) true.

(** ** The context-menu action [flash_fid] *)

(** Name resolution in a function body: a name the body assigns
    somewhere is a local (reading it unbound raises [UnboundLocalError],
    a subclass of [NameError]); any other name is looked up among the
    module's globals and the builtins, and is a [NameError] when absent
    from both. *)
Inductive PyVal := VSet (r : nat) | VInt (z : Z) | VObject.

Inductive Exn :=
  | NameError (name : string)
  | UnboundLocalError (name : string)
  | TypeError
  | Exception (msg : string).

Inductive Outcome (A : Type) := Returned (a : A) | Raised (e : Exn).
Arguments Returned {A} a.
Arguments Raised {A} e.

(** Names bound at module level in selection_widget.py: the imports and
    the three classes. *)
Definition module_globals : list string :=
  ["os"; "Qt"; "pyqtSignal"; "QIcon"; "QColor"; "QWidget"; "QVBoxLayout";
   "QHBoxLayout"; "QLabel"; "QToolBar"; "QTableWidget";
   "QAbstractItemView"; "QHeaderView"; "QAction"; "QMessageBox";
   "QDockWidget"; "QDialog"; "QFrame"; "QPushButton"; "QSizePolicy";
   "QComboBox"; "QTableWidgetItem"; "QMenu"; "QApplication";
   "QgsFeatureRequest"; "QgsFeature"; "QgsApplication"; "QgsRubberBand";
   "HighlightDelegate"; "SelectionFilterDialog"; "FieldCalculatorDialog";
   "AdvancedSelectionWidget"; "AdvancedSelectionDock";
   "AdvancedSelectionDialog"].

Definition builtins : list string :=
  ["abs"; "all"; "any"; "ascii"; "bin"; "bool"; "bytearray"; "bytes";
   "callable"; "chr"; "classmethod"; "compile"; "complex"; "delattr";
   "dict"; "dir"; "divmod"; "enumerate"; "eval"; "exec"; "filter";
   "float"; "format"; "frozenset"; "getattr"; "globals"; "hasattr";
   "hash"; "help"; "hex"; "id"; "input"; "int"; "isinstance";
   "issubclass"; "iter"; "len"; "list"; "locals"; "map"; "max";
   "memoryview"; "min"; "next"; "object"; "oct"; "open"; "ord"; "pow";
   "print"; "property"; "range"; "repr"; "reversed"; "round"; "set";
   "setattr"; "slice"; "sorted"; "staticmethod"; "str"; "sum"; "super";
   "tuple"; "type"; "vars"; "zip"; "Exception"; "True"; "False"; "None"].

(** The names [flash_fid] assigns: its parameters, its assignment and
    loop targets, its local imports and the [except] target. *)
Definition flash_fid_locals : list string :=
  ["self"; "fid"; "target_fids"; "dialog"; "expr_text"; "field_name";
   "is_new"; "field_type"; "active_fids"; "was_editing"; "QgsExpression";
   "QgsExpressionContext"; "QgsExpressionContextUtils"; "QgsField";
   "QVariant"; "qfield"; "field_idx"; "expr"; "context"; "request";
   "updated_count"; "feature"; "result"; "e"].

Definition load_name (local_names : list string) (frame : gmap string PyVal)
    (name : string) : Outcome PyVal :=
  if bool_decide (name ∈ local_names) then
    match frame !! name with
    | Some v => Returned v
    | None => Raised (UnboundLocalError name)
    end
  else if bool_decide (name ∈ module_globals ∨ name ∈ builtins) then
    Returned VObject
  else Raised (NameError name).

(** What the calculator dialog and the host answer. *)
Record CalculatorAnswer := {
  calc_accepted : bool;
  calc_expression : string;
  calc_field_name : string;
  calc_is_new : bool;
  calc_field_type : string;
  calc_only_target : bool;
  calc_add_ok : bool;
  calc_parser_error : option string;
  calc_evaluate : Z * FeatureData → option string;
}.

Definition dquote : string :=
  String (Ascii.Ascii false true false false false true false false) "".

Definition changeAttributeValue (f : Z) (field value : string) : M () :=
  modify (host_call (ChangeAttributeValue f field value));;
  modify (with_layer (λ l,
    set_features
      (alter (λ d, {| attrs := <[field := value]> (attrs d);
                      geometry := geometry d |}) f (features l)) l)).

(** The body of the [try] block. *)
Definition calculate (a : CalculatorAnswer) (active_fids : gset Z)
    (was_editing : bool) : M (Outcome ()) :=
  added ←
    (if calc_is_new a then
       modify (host_call (AddAttributes (calc_field_name a) (calc_field_type a)));;
       if calc_add_ok a then
         modify (with_layer (λ l,
           set_fields (fields l ++ [calc_field_name a]) l));;
         ret (Returned ())
       else ret (Raised (Exception "Failed to add new field"))
     else ret (Returned ()));
  match added with
  | Raised e => ret (Raised e)
  | Returned _ =>
    known ← gets (λ w, bool_decide (calc_field_name a ∈ fields (layer w)));
    if negb known then
      ret (Raised (Exception ("Field '" +:+ calc_field_name a +:+ "' not found")))
    else
      match calc_parser_error a with
      | Some err => ret (Raised (Exception ("Expression error: " +:+ err)))
      | None =>
        feats ← gets (λ w, getFeatures (elements active_fids) (layer w));
        for_ feats (λ feature,
          match calc_evaluate a feature with
          | None => skip
          | Some result => changeAttributeValue feature.1 (calc_field_name a) result
          end);;
        (if negb was_editing then commitChanges else skip);;
        refresh_table;;
        modify (emit (MessageBar Success "Field Calculator"
          ("Updated "
           +:+ pretty (length (filter (λ f, is_Some (calc_evaluate a f)) feats))
           +:+ " features in field " +:+ dquote +:+ calc_field_name a
           +:+ dquote +:+ ".")));;
        ret (Returned ())
      end
  end.

Definition str_exn (e : Exn) : string :=
  match e with
  | NameError n => "name '" +:+ n +:+ "' is not defined"
  | UnboundLocalError n => "local variable '" +:+ n +:+ "' referenced before assignment"
  | TypeError => "object is not iterable"
  | Exception msg => msg
  end.

Definition flash_fid (fid : Z) (a : CalculatorAnswer) : M (Outcome ()) :=
  modify (emit (FlashFeatureIds [fid]));;
  match load_name flash_fid_locals
          {[ "self" := VObject; "fid" := VInt fid ]} "fids" with
  | Raised e => ret (Raised e)
  | Returned (VInt _) | Returned VObject => ret (Raised TypeError)
  | Returned (VSet r) =>
    fids ← gets (λ w, deref (heap w) r);
    orig ← gets original;
    let target_fids := if truthy fids then fids else orig in
    modify (emit (FieldCalculatorOpened target_fids orig));;
    if negb (calc_accepted a) then ret (Returned ())
    else if bool_decide (calc_expression a = "" ∨ calc_field_name a = "") then
      modify (emit (MessageBar Warning "Field Calculator"
        "Missing expression or field name."));;
      ret (Returned ())
    else
      was_editing ← gets (λ w, isEditable (layer w));
      (if negb was_editing then startEditing else skip);;
      r ← calculate a (if calc_only_target a then target_fids else orig) was_editing;
      match r with
      | Returned _ => ret (Returned ())
      | Raised e =>
        (if negb was_editing then rollBack else skip);;
        modify (emit (MessageBox Critical "Field Calculator Error" (str_exn e)));;
        ret (Returned ())
      end
  end.

(** ** States, events and reachability *)

(** Both attributes refer to allocated, distinct set objects. *)
Definition wf (w : World) : Prop :=
  (original_selection (self w) < length (heap w))%nat
  ∧ (highlighted_features (self w) < length (heap w))%nat
  ∧ original_selection (self w) ≠ highlighted_features (self w).

(** Every fid a row can resolve to, through its first item or through
    [row_to_fid], is in the original selection. *)
Definition rows_in_selection (w : World) : Prop :=
  (∀ row cells c, rows (table_widget (self w)) !! row = Some cells →
     head cells = Some c → cell_fid c ∈ original w)
  ∧ (∀ row f, row_to_fid (self w) !! row = Some f → f ∈ original w).

(** The fids of a set of rows, as [on_table_selection_changed] computes
    them. *)
Definition fids_of_rows (selected : gset nat) (w : World) : gset Z :=
  list_to_set (omap (λ row, get_fid_for_row row (self w)) (elements selected)).

Definition sets_ok (w : World) : Prop :=
  wf w ∧ highlighted w ⊆ original w.

Definition inv (w : World) : Prop :=
  sets_ok w ∧ rows_in_selection w.

(** The part of the world that is not a derived view or the table. *)
Record Model := {
  m_heap : list (gset Z);
  m_original_selection : nat;
  m_highlighted_features : nat;
  m_clipboard_features : list (Z * FeatureData);
  m_last_clicked_row : option nat;
  m_updating_selection : bool;
  m_updating_highlights : bool;
  m_layer : Layer;
  m_effects : list Effect;
  m_host_calls : list HostCall;
}.

Definition model_of (w : World) : Model :=
  {| m_heap := heap w;
     m_original_selection := original_selection (self w);
     m_highlighted_features := highlighted_features (self w);
     m_clipboard_features := clipboard_features (self w);
     m_last_clicked_row := last_clicked_row (self w);
     m_updating_selection := _updating_selection (self w);
     m_updating_highlights := _updating_highlights (self w);
     m_layer := layer w;
     m_effects := effects w;
     m_host_calls := host_calls w |}.

(** The table apart from its row selection. *)
Record Grid := {
  g_rows : list (list Cell);
  g_header_labels : list string;
  g_sortingEnabled : bool;
  g_signalsBlocked : bool;
  g_row_to_fid : gmap nat Z;
  g_fid_to_row : gmap Z nat;
}.

Definition grid_of (w : World) : Grid :=
  {| g_rows := rows (table_widget (self w));
     g_header_labels := header_labels (table_widget (self w));
     g_sortingEnabled := sortingEnabled (table_widget (self w));
     g_signalsBlocked := signalsBlocked (table_widget (self w));
     g_row_to_fid := row_to_fid (self w);
     g_fid_to_row := fid_to_row (self w) |}.

Definition put_grid (g : Grid) (sel : gset nat) (w : World) : World :=
  with_self (λ s,
    set_row_maps (g_row_to_fid g) (g_fid_to_row g)
      (with_table (λ _,
        {| rows := g_rows g; header_labels := g_header_labels g;
           selected_rows := sel; sortingEnabled := g_sortingEnabled g;
           signalsBlocked := g_signalsBlocked g |}) s)) w.

(** The derived views. *)
Record Views := {
  v_info_label : InfoLabel;
  v_buttons : Buttons;
  v_cyan_rubber_band : list Z;
  v_yellow_rubber_band : list Z;
}.

Definition views_of (w : World) : Views :=
  {| v_info_label := info_label (self w);
     v_buttons := buttons (self w);
     v_cyan_rubber_band := cyan_rubber_band (self w);
     v_yellow_rubber_band := yellow_rubber_band (self w) |}.

Definition put_views (v : Views) (w : World) : World :=
  with_self (λ s,
    set_rubber_bands (v_cyan_rubber_band v) (v_yellow_rubber_band v)
      (set_buttons (v_buttons v) (set_info_label (v_info_label v) s))) w.

(** Every fid a grid can resolve a row to is in [S]. *)
Definition grid_in (g : Grid) (S : gset Z) : Prop :=
  (∀ row cells c, g_rows g !! row = Some cells →
     head cells = Some c → cell_fid c ∈ S)
  ∧ (∀ row f, g_row_to_fid g !! row = Some f → f ∈ S).

(** The slot [on_table_selection_changed] will not act on a change of the
    row selection: the table's signals are blocked or the widget is
    updating the highlights itself. *)
Definition silenced (w : World) : Prop :=
  signalsBlocked (table_widget (self w)) = true
  ∨ _updating_highlights (self w) = true.

(** The host changes the layer behind the widget's back and notifies it. *)
Definition host_deletes (ids : list Z) : M () :=
  modify (with_layer (λ l,
    set_features (filter (λ kv, kv.1 ∉ ids) (features l)) l));;
  on_features_deleted ids.

Definition host_toggles_editing (editable : bool) : M () :=
  modify (with_layer (set_isEditable editable));;
  on_editing_mode_changed.

(** What can happen to an open table: the toolbar actions and the
    context-menu flash with the answers of the user and the host, the
    user's row selection and sorting, and the host's notifications. *)
Inductive Event :=
  | UserSelectsRows (selected : gset nat)
  | UserSorts (sorted : list (list Cell))
  | ClearHighlights
  | HighlightAll
  | ReselectToHighlighted
  | SelectByExpression (a : FilterAnswer)
  | InvertHighlights
  | DeleteFeaturesAction (reply accepted : bool)
  | CutFeatures (reply accepted : bool)
  | CopyFeatures
  | PasteFeatures (added : option (list (Z * FeatureData)))
  | ZoomToHighlighted
  | OpenFieldCalculator
  | FlashFid (f : Z) (a : CalculatorAnswer)
  | RefreshTable
  | HostSelectionChanges (ids : gset Z)
  | HostDeletes (ids : list Z)
  | HostTogglesEditing (editable : bool).

Definition run (e : Event) : M () :=
  match e with
  | UserSelectsRows selected => user_selects_rows selected
  | UserSorts sorted => user_sorts sorted
  | ClearHighlights => clear_highlights
  | HighlightAll => highlight_all
  | ReselectToHighlighted => reselect_to_highlighted
  | SelectByExpression a => select_by_expression a
  | InvertHighlights => invert_highlights
  | DeleteFeaturesAction reply accepted => delete_features reply accepted
  | CutFeatures reply accepted => cut_features reply accepted
  | CopyFeatures => copy_features
  | PasteFeatures added => paste_features added
  | ZoomToHighlighted => zoom_to_highlighted
  | OpenFieldCalculator => open_field_calculator
  | FlashFid f a => flash_fid f a;; skip
  | RefreshTable => refresh_table
  | HostSelectionChanges ids => host_selection_changes ids
  | HostDeletes ids => host_deletes ids
  | HostTogglesEditing editable => host_toggles_editing editable
  end.

(** Sorting only reorders the rows that are there. *)
Definition enabled (e : Event) (w : World) : Prop :=
  match e with
  | UserSorts sorted => sorted ≡ₚ rows (table_widget (self w))
  | _ => True
  end.

Inductive reachable : World → Prop :=
  | reachable_init l : reachable (init l)
  | reachable_step w e :
      reachable w → enabled e w → reachable (exec (run e) w).

(** ** A concrete layer and table for examples *)

Definition example_feature (name : string) (g : option Z) : FeatureData :=
  {| attrs := {[ "name" := name ]}; geometry := g |}.

Definition example_features : gmap Z FeatureData :=
  list_to_map
    [(1, example_feature "a" (Some 10)); (2, example_feature "b" (Some 20));
     (3, example_feature "c" None); (4, example_feature "d" (Some 40));
     (5, example_feature "e" (Some 50))].

Definition example_layer (selected : gset Z) (editable : bool) : Layer :=
  {| fields := ["name"];
     features := example_features;
     committed := example_features;
     selectedFeatureIds := selected;
     isEditable := editable |}.

(** BaseSelection = {1,2,3}, nothing highlighted. *)
Definition world_123 : World := init (example_layer {[1; 2; 3]} false).

(** BaseSelection = {1,2,3}, HighlightedSet = {2}: the row of feature 2
    is clicked. *)
Definition world_123_2 : World :=
  exec (user_selects_rows {[1%nat]}) world_123.

(** ** Notions used in the statements *)

(** The set [get_target_features] returns in state [w]. *)
Definition target_set (w : World) : gset Z :=
  deref (heap (exec get_target_features w)) (val (get_target_features w)).

(** Where [on_editing_mode_changed] leaves the world, up to the grid,
    the row selection and the views it recomputes. *)
Definition editing_mode_changed_to (g : Grid) (sel : gset nat) (v : Views)
    (w : World) : World :=
  emit CanvasRefresh
    (put_views v
      (emit ViewportUpdate
        (with_self (set_updating_highlights false)
          (put_grid g sel
            (with_self (set_highlighted_features (length (heap w)))
              (with_heap (λ h, h ++ [highlighted w]) w)))))).

(** Where [on_features_deleted] leaves the world, up to the grid and the
    views. *)
Definition features_deleted_to (fids : list Z) (g : Grid) (v : Views)
    (w : World) : World :=
  emit CanvasRefresh
    (put_views v
      (emit ViewportUpdate
        (put_grid g ∅
          (with_heap (λ h,
             <[highlighted_features (self w) :=
                 deref h (highlighted_features (self w)) ∖ list_to_set fids]> h)
            (with_heap (λ h,
               <[original_selection (self w) :=
                   deref h (original_selection (self w)) ∖ list_to_set fids]> h)
              w))))).


(** The filter reaches the evaluation loop: there is a selection, the
    dialog is accepted with a non-empty expression and the expression
    parses. *)
Definition filter_runs (a : FilterAnswer) (w : World) : Prop :=
  original w ≠ ∅
  ∧ (∃ text, filter_expression a = Some text ∧ text ≠ "")
  ∧ filter_parser_error a = None.

(** The ids of the layer's features on which the filter expression is
    true. *)
Definition matched_ids (a : FilterAnswer) (w : World) : gset Z :=
  dom (filter (λ kv, filter_evaluate a kv = true) (features (layer w))).

(** Table repaints and overlay refreshes among the effects. *)
Definition is_render (e : Effect) : bool :=
  match e with
  | ViewportUpdate | CanvasRefresh => true
  | _ => false
  end.

Definition renders (w : World) : nat :=
  length (List.filter is_render (effects w)).

(** C5 as the specification states it for the filter-match path: no re-render
    when the matching set equals the current highlights. *)
Definition filter_path_has_noop_guard : Prop :=
  ∀ a w, reachable w → filter_runs a w →
    matched_ids a w ∩ original w = highlighted w →
    renders (exec (select_by_expression a) w) = renders w.

(** A filter answer that accepts the expression [id = 2]. *)
Definition filter_id_2 : FilterAnswer :=
  {| filter_expression := Some "id = 2";
     filter_parser_error := None;
     filter_evaluate := λ f, bool_decide (f.1 = 2) |}.


(** The table of an editable layer with selection {1,2,3}, the row of
    feature 2 clicked. *)
Definition world_editing : World :=
  exec (run (UserSelectsRows {[1%nat]})) (init (example_layer {[1; 2; 3]} true)).

(** C9 as the specification states it: some invocation of the path that
    computes [target_fids] and opens the calculator dialog takes the
    unbound-local error branch on reading [fids]. *)
Definition unbound_local_branch_reachable : Prop :=
  ∃ fid a w,
    val (flash_fid fid a w) = Raised (UnboundLocalError "fids").

(** C3 as the specification states it: a refused delete leaves both sets alone
    and rolls the transaction back. *)
Definition refused_delete_rolls_back : Prop :=
  ∀ w, reachable w → target_set w ≠ ∅ →
    original (exec (delete_features true false) w) = original w
    ∧ highlighted (exec (delete_features true false) w) = highlighted w
    ∧ ∃ new, host_calls (exec (delete_features true false) w)
             = new ++ host_calls w
             ∧ RollBack ∈ new.

(** ** The views as functions of the state *)

(** What [update_info_label], [update_button_states] and
    [update_map_highlighting] compute from the two sets, the clipboard
    and the layer. *)
Definition info_for (o h : gset Z) : InfoLabel :=
  {| cyan_count := size o;
     yellow_count := if bool_decide (0 < size h)%nat then Some (size h) else None |}.

Definition buttons_for (o h : gset Z) (clip : list (Z * FeatureData))
    (is_editable : bool) : Buttons :=
  let has_highlights := bool_decide (0 < size h)%nat in
  let has_selection := bool_decide (0 < size o)%nat in
  let has_clipboard := bool_decide (0 < length clip)%nat in
  {| clear_highlights_enabled := has_highlights;
     highlight_all_enabled := has_selection;
     reselect_enabled := has_highlights;
     select_expr_enabled := has_selection;
     invert_enabled := has_selection;
     delete_enabled := (has_highlights || has_selection) && is_editable;
     cut_enabled := (has_highlights || has_selection) && is_editable;
     copy_enabled := has_highlights || has_selection;
     paste_enabled := has_clipboard && is_editable;
     zoom_enabled := has_highlights || has_selection;
     field_calc_enabled := has_highlights || has_selection;
     target_desc :=
       if has_highlights
       then pretty (size h) +:+ " highlighted (yellow)"
       else pretty (size o) +:+ " selected (cyan)" |}.

(** The features [getFeatures] yields, as a function of the layer's
    features alone. *)
Definition features_in (ids : list Z) (fs : gmap Z FeatureData)
    : list (Z * FeatureData) :=
  filter (λ f, f.1 ∈ ids) (map_to_list fs).

Definition cyan_for (o h : gset Z) (fs : gmap Z FeatureData) : list Z :=
  if truthy (o ∖ h) then geometries (features_in (elements (o ∖ h)) fs) else [].

Definition yellow_for (h : gset Z) (fs : gmap Z FeatureData) : list Z :=
  if truthy h then geometries (features_in (elements h) fs) else [].

(** The grid [populate_table] builds for selection [o] on a layer with
    features [fs], fields [names] and edit mode [is_editable]; with an
    empty selection the cleared table, whose rows and header labels were
    [rs] and [hs], keeps its dimensions and sorting stays off. *)
Definition populated (o : gset Z) (fs : gmap Z FeatureData)
    (names : list string) (is_editable : bool) (rs : list (list Cell))
    (hs : list string) : Grid :=
  if truthy o then
    let feats := features_in (elements o) fs in
    {| g_rows := make_row is_editable names <$> feats;
       g_header_labels := names;
       g_sortingEnabled := true;
       g_signalsBlocked := false;
       g_row_to_fid := map_seq 0 feats.*1;
       g_fid_to_row := foldl (λ m p, <[p.2 := p.1]> m) ∅ (imap pair feats.*1) |}
  else
    {| g_rows := map (λ _, []) rs;
       g_header_labels := map (λ _, "") hs;
       g_sortingEnabled := false;
       g_signalsBlocked := false;
       g_row_to_fid := ∅;
       g_fid_to_row := ∅ |}.

(** ** States between two events *)

(** No guard flag is set and the table's signals are not blocked. *)
Definition flags_clear (w : World) : Prop :=
  _updating_selection (self w) = false
  ∧ _updating_highlights (self w) = false
  ∧ signalsBlocked (table_widget (self w)) = false.

(** The info label, the buttons and the two rubber bands are what the
    view updates would compute now. *)
Definition views_up_to_date (w : World) : Prop :=
  info_label (self w) = info_for (original w) (highlighted w)
  ∧ buttons (self w) =
      buttons_for (original w) (highlighted w) (clipboard_features (self w))
        (isEditable (layer w))
  ∧ cyan_rubber_band (self w) =
      cyan_for (original w) (highlighted w) (features (layer w))
  ∧ yellow_rubber_band (self w) =
      yellow_for (highlighted w) (features (layer w)).

(** The table is what [populate_table] would build now, up to the order
    of its rows. *)
Definition table_up_to_date (w : World) : Prop :=
  let t := table_widget (self w) in
  let g := populated (original w) (features (layer w)) (fields (layer w))
             (isEditable (layer w)) (rows t) (header_labels t) in
  rows t ≡ₚ g_rows g
  ∧ header_labels t = g_header_labels g
  ∧ sortingEnabled t = g_sortingEnabled g
  ∧ row_to_fid (self w) = g_row_to_fid g
  ∧ fid_to_row (self w) = g_fid_to_row g.

Definition steady (w : World) : Prop :=
  flags_clear w ∧ views_up_to_date w ∧ table_up_to_date w.


(** ** The row delegate *)

Inductive Colour := Yellow | Cyan.

(** [HighlightDelegate.paint] (delegates.py): the colour the cells of a
    row are filled with before Qt paints them; [None] when the row
    resolves to no feature. *)
Definition paint (row : nat) (w : World) : option Colour :=
  match get_fid_for_row row (self w) with
  | Some fid =>
      if bool_decide (fid ∈ highlighted w) then Some Yellow else Some Cyan
  | None => None
  end.


(** ** Editing a cell *)

(** The record after [changeAttributeValue] on one of its fields; [None]
    is the NULL value, a missing key. *)
Definition setAttribute (value : option string) (field : string)
    (d : FeatureData) : FeatureData :=
  {| attrs :=
       match value with
       | Some v => <[field := v]> (attrs d)
       | None => delete field (attrs d)
       end;
     geometry := geometry d |}.

(** [on_cell_changed]: the slot of the table's [cellChanged] signal.  The
    call to the layer is logged with the item's text; the value passed is
    that text, or NULL when the text is empty. *)
Definition on_cell_changed (row col : nat) : M () :=
  editable ← gets (λ w, isEditable (layer w));
  if negb editable then skip
  else
    fid ← gets (λ w, get_fid_for_row row (self w));
    match fid with
    | None => skip
    | Some fid =>
      item ← gets (λ w, rows (table_widget (self w)) !! row ≫= (.!! col));
      match item with
      | None => skip
      | Some item =>
        let field_name := cell_field item in
        if bool_decide (field_name = "") then skip
        else
          let new_value := cell_text item in
          known ← gets (λ w, bool_decide (field_name ∈ fields (layer w)));
          if negb known then skip
          else
            modify (host_call (ChangeAttributeValue fid field_name new_value));;
            modify (with_layer (λ l,
              set_features
                (alter (setAttribute
                          (if bool_decide (new_value = "") then None
                           else Some new_value) field_name)
                   fid (features l)) l))
      end
    end.

Definition set_cell_text (text : string) (c : Cell) : Cell :=
  {| cell_text := text; cell_field := cell_field c; cell_fid := cell_fid c;
     cell_editable := cell_editable c |}.

(** The user types [text] into the cell at ([row], [col]): Qt opens an
    editor only on an item with the editable flag, stores the text in
    the item and emits [cellChanged] when the text differs from the old
    one and the table's signals are not blocked. *)
Definition user_edits_cell (row col : nat) (text : string) : M () :=
  item ← gets (λ w, rows (table_widget (self w)) !! row ≫= (.!! col));
  match item with
  | None => skip
  | Some c =>
    if negb (cell_editable c) then skip
    else if bool_decide (text = cell_text c) then skip
    else
      modify (with_self (with_table (λ t,
        set_rows (alter (alter (set_cell_text text) col) row (rows t)) t)));;
      blocked ← gets (λ w, signalsBlocked (table_widget (self w)));
      if blocked then skip else on_cell_changed row col
  end.


(** ** Closing the window *)

(** [cleanup_rubber_bands] as the class binds it: the class body defines
    the method twice and the second definition replaces the first.  Both
    bands are reset and the canvas is refreshed; the removal of the
    bands from the canvas scene is outside the world. *)
Definition cleanup_rubber_bands : M () :=
  modify (with_self (set_rubber_bands [] []));;
  modify (emit CanvasRefresh).

(** [AdvancedSelectionDock.closeEvent]; the [closed] signal it emits and
    the acceptance of the event are outside the world. *)
Definition closeEvent : M () :=
  cleanup_rubber_bands;;
  orig ← gets original;
  if truthy orig then guarded_selectByIds (elements orig) else skip.

(** [AdvancedSelectionDialog._do_cleanup], called by the dialog's
    [closeEvent] and [reject]. *)
Definition _do_cleanup : M () :=
  cleanup_rubber_bands;;
  orig ← gets original;
  if truthy orig then guarded_selectByIds (elements orig) else skip.


(** ** The filter dialog's condition list (filter_dialog.py) *)

(** The part of [SelectionFilterDialog] behind the condition builder:
    [conditions] is the list of (logic, expression) pairs, with [None]
    for a condition added without logic; [conditions_list] holds the
    texts of the list widget's items, [expr_edit] the text of the
    expression editor and [match_label] that of the match counter. *)
Record FilterDialog := {
  conditions : list (option string * string);
  conditions_list : list string;
  expr_edit : string;
  match_label : string;
}.

(** Python truthiness of a logic word: [None] and the empty string are
    false. *)
Definition logic_given (logic : option string) : bool :=
  match logic with
  | Some s => negb (bool_decide (s = ""))
  | None => false
  end.

(** [' '.join(parts)]. *)
Definition join (sep : string) (parts : list string) : string :=
  String.concat sep parts.

Definition update_conditions_display (d : FilterDialog) : FilterDialog :=
  {| conditions := conditions d;
     conditions_list :=
       imap (λ i c,
         if logic_given c.1 && bool_decide (0 < i)%nat
         then default "" c.1 +:+ " " +:+ c.2
         else c.2) (conditions d);
     expr_edit := expr_edit d;
     match_label := match_label d |}.

Definition rebuild_expression (d : FilterDialog) : FilterDialog :=
  {| conditions := conditions d;
     conditions_list := conditions_list d;
     expr_edit :=
       if bool_decide (conditions d = []) then ""
       else
         join " " (mjoin (imap (λ i c,
           (if logic_given c.1 && bool_decide (0 < i)%nat
            then [default "" c.1] else []) ++ [c.2]) (conditions d)));
     match_label := match_label d |}.

(** [condition] is what [build_single_condition] returned. *)
Definition add_condition_with_logic (logic : option string)
    (condition : option string) (d : FilterDialog) : FilterDialog :=
  match condition with
  | None => d
  | Some text =>
    if bool_decide (text = "") then d
    else
      rebuild_expression (update_conditions_display
        {| conditions := conditions d ++ [(logic, text)];
           conditions_list := conditions_list d;
           expr_edit := expr_edit d;
           match_label := match_label d |})
  end.

(** [selected] are the rows of the selected items of the list widget;
    they are deleted from the highest row down. *)
Definition remove_selected_conditions (selected : list nat)
    (d : FilterDialog) : FilterDialog :=
  let selected_rows :=
    @merge_sort nat (λ a b, b ≤ a)%nat (λ a b, decide (b ≤ a)%nat) selected in
  rebuild_expression (update_conditions_display
    {| conditions :=
         foldl (λ conds row,
                  if bool_decide (row < length conds)%nat
                  then delete row conds else conds)
           (conditions d) selected_rows;
       conditions_list := conditions_list d;
       expr_edit := expr_edit d;
       match_label := match_label d |}).

Definition clear_conditions (d : FilterDialog) : FilterDialog :=
  {| conditions := []; conditions_list := []; expr_edit := "";
     match_label := "" |}.

(** ** The filter dialog's value cache (filter_dialog.py) *)

(** [value_cache]: for each field name, how often each printed value
    occurs among the features of the selection. *)
Abbreviation ValueCache := (gmap string (gmap string nat)).

(** [cache[name][str_val] = cache[name].get(str_val, 0) + 1]; the result
    [None] is the [KeyError] of a name that is no key of the cache. *)
Definition count_value (name str_val : string) (cache : ValueCache)
    : option ValueCache :=
  match cache !! name with
  | Some values =>
    Some (<[name := <[str_val := (default 0 (values !! str_val) + 1)%nat]>
                      values]> cache)
  | None => None
  end.

(** The inner loop over the fields, for one feature; an attribute that is
    [None] is not counted. *)
Definition cache_feature (names : list string) (f : Z * FeatureData)
    (cache : ValueCache) : option ValueCache :=
  foldl (λ c name,
           c ≫= λ c,
             match attrs f.2 !! name with
             | Some str_val => count_value name str_val c
             | None => Some c
             end)
        (Some cache) names.

Definition cache_all_field_values (l : Layer) (selected_fids : gset Z)
    (value_cache : ValueCache) : option ValueCache :=
  let cleared := foldl (λ c name, <[name := ∅]> c) value_cache (fields l) in
  foldl (λ c f, c ≫= cache_feature (fields l) f) (Some cleared)
        (getFeatures (elements selected_fids) l).

(** What the cache records for a value of a field. *)
Definition recorded (cache : ValueCache) (name str_val : string)
    : option nat :=
  cache !! name ≫= (.!! str_val).

(** How often [name] occurs in a list of field names. *)
Definition occurrences (name : string) (names : list string) : nat :=
  length (filter (λ n, n = name) names).

(** The features of a list whose attribute [name] prints as [str_val]. *)
Definition with_value (name str_val : string)
    (feats : list (Z * FeatureData)) : list (Z * FeatureData) :=
  filter (λ f, attrs f.2 !! name = Some str_val) feats.

(** Counting [k] more occurrences on top of an entry of the cache. *)
Definition counted (k : nat) (entry : option nat) : option nat :=
  if bool_decide (k = 0%nat) then entry else Some (default 0 entry + k)%nat.

(** ** The filter dialog's operator and condition builder (filter_dialog.py) *)

(** Python's [sub in s] on strings. *)
Fixpoint contains (sub s : string) : bool :=
  String.prefix sub s ||
  match s with
  | EmptyString => false
  | String _ s' => contains sub s'
  end.

(** The entries of [op_combo], as [setup_ui] adds them. *)
Definition op_combo_items : list string :=
  ["= (equals)"; "!= (not equals)";
   "> (greater)"; "< (less)"; ">= (greater/equal)"; "<= (less/equal)";
   "LIKE (contains)"; "NOT LIKE";
   "IN (any of)"; "NOT IN";
   "IS NULL"; "IS NOT NULL"; "BETWEEN"].

(** [on_operator_changed]: whether the value list and the manual value
    are enabled for the combo text. *)
Definition on_operator_changed (op_text : string) : bool :=
  if contains "NULL" op_text then false else true.

Definition get_operator_symbol (text : string) : string :=
  if contains "IS NOT NULL" text then "IS NOT NULL"
  else if contains "IS NULL" text then "IS NULL"
  else if contains "NOT LIKE" text then "NOT LIKE"
  else if contains "LIKE" text then "LIKE"
  else if contains "NOT IN" text then "NOT IN"
  else if contains "BETWEEN" text then "BETWEEN"
  else if contains "IN" text then "IN"
  else if contains "!=" text then "!="
  else if contains ">=" text then ">="
  else if contains "<=" text then "<="
  else if contains ">" text then ">"
  else if contains "<" text then "<"
  else if contains "=" text then "="
  else "=".

Section build_single_condition.
(** Two Python built-ins the builder calls: whether [float(v)] accepts
    the text, and [str.upper]. *)
Variable is_float : string → bool.
Variable upper : string → string.

(** [field] is the current field name, [op_text] the current text of
    the operator combo, [manual] the stripped manual value and
    [selected_items] the values stored in the selected items of the
    value list; [None] is the result [None]. *)
Definition build_single_condition (field op_text manual : string)
    (selected_items : list string) : option string :=
  let op := get_operator_symbol op_text in
  let quoted_field := dquote +:+ field +:+ dquote in
  if String.eqb op "IS NULL" || String.eqb op "IS NOT NULL" then
    Some (quoted_field +:+ " " +:+ op)
  else
    let values :=
      if negb (String.eqb manual "") then Some [manual]
      else match selected_items with
           | [] => None
           | _ => Some selected_items
           end in
    match values with
    | None => None
    | Some values =>
      let value := default "" (head values) in
      if String.eqb op "BETWEEN" then
        match values with
        | v0 :: v1 :: _ =>
          Some (quoted_field +:+ " BETWEEN " +:+ v0 +:+ " AND " +:+ v1)
        | _ =>
          if contains " AND " (upper value)
          then Some (quoted_field +:+ " BETWEEN " +:+ value)
          else None
        end
      else if String.eqb op "IN" || String.eqb op "NOT IN"
              || bool_decide (1 < length values)%nat then
        let quoted :=
          map (λ v, if is_float v then v else "'" +:+ v +:+ "'") values in
        let actual_op := if String.eqb op "NOT IN" then "NOT IN" else "IN" in
        Some (quoted_field +:+ " " +:+ actual_op +:+ " ("
              +:+ String.concat ", " quoted +:+ ")")
      else if String.eqb op "LIKE" || String.eqb op "NOT LIKE" then
        Some (quoted_field +:+ " " +:+ op +:+ " '%" +:+ value +:+ "%'")
      else if is_float value then
        Some (quoted_field +:+ " " +:+ op +:+ " " +:+ value)
      else
        Some (quoted_field +:+ " " +:+ op +:+ " '" +:+ value +:+ "'")
    end.
End build_single_condition.

(** ** A commit the host may refuse *)

(** [delete_features] and [paste_features] discard the result of
    [commitChanges].  Above, the commit of the session the widget opened
    itself goes through; here the host's verdict is explicit.  A refused
    commit leaves the layer in edit mode with its edit buffer and emits
    no [editingStopped]. *)
Definition commitChanges_answered (committed_ok : bool) : M () :=
  if committed_ok then commitChanges
  else modify (host_call CommitChanges).

(** [delete_features] with the host's verdicts on [deleteFeatures]
    ([accepted]) and on [commitChanges] ([committed_ok]). *)
Definition delete_features_answered (reply accepted committed_ok : bool)
    : M () :=
  fids ← get_target_features;
  ids ← gets (λ w, deref (heap w) fids);
  if negb (truthy ids) then skip
  else
    hl ← gets highlighted;
    modify (emit (MessageBox Question "Delete Features"
      ("Delete " +:+ pretty (size ids) +:+ " "
       +:+ (if truthy hl then "highlighted" else "all selected")
       +:+ " features?")));;
    if negb reply then skip
    else
      was_editing ← gets (λ w, isEditable (layer w));
      (if negb was_editing then startEditing else skip);;
      ids ← gets (λ w, deref (heap w) fids);
      ok ← deleteFeatures (elements ids) accepted;
      if ok then
        (if negb was_editing then commitChanges_answered committed_ok
         else skip);;
        o ← gets (λ w, original_selection (self w));
        gone ← gets (λ w, deref (heap w) fids);
        mutate o (λ s, s ∖ gone);;
        h ← gets (λ w, highlighted_features (self w));
        gone ← gets (λ w, deref (heap w) fids);
        mutate h (λ s, s ∖ gone);;
        populate_table;;
        modify (emit ViewportUpdate);;
        update_info_label;;
        update_button_states;;
        orig ← gets original;
        guarded_selectByIds (elements orig);;
        n ← gets (λ w, size (deref (heap w) fids));
        modify (emit (MessageBar Success "Delete"
          ("Deleted " +:+ pretty n +:+ " features.")))
      else
        (if negb was_editing then rollBack else skip);;
        modify (emit (MessageBox Warning "Error" "Failed to delete features.")).

Definition cut_features_answered (reply accepted committed_ok : bool)
    : M () :=
  copy_features;;
  delete_features_answered reply accepted committed_ok.

(** [paste_features] with the host's verdict on [commitChanges]. *)
Definition paste_features_answered
    (added : option (list (Z * FeatureData))) (committed_ok : bool) : M () :=
  clip ← gets (λ w, clipboard_features (self w));
  if bool_decide (clip = []) then skip
  else
    was_editing ← gets (λ w, isEditable (layer w));
    (if negb was_editing then startEditing else skip);;
    modify (host_call (AddFeatures clip));;
    match added with
    | Some new_features =>
      modify (with_layer (λ l,
        set_committed (list_to_map new_features ∪ committed l)
          (set_features (list_to_map new_features ∪ features l) l)));;
      (if negb was_editing then commitChanges_answered committed_ok
       else skip);;
      modify (emit (MessageBar Success "Paste"
        ("Pasted " +:+ pretty (length new_features) +:+ " features.")));;
      refresh_table
    | None =>
      (if negb was_editing then rollBack else skip);;
      modify (emit (MessageBox Warning "Error" "Failed to paste features."))
    end.

(** ** An open window, cell edits included *)

(** The field names of a layer are non-empty and distinct: every column
    of the table then writes back to an attribute of its own. *)
Definition fields_named (l : Layer) : Prop :=
  NoDup (fields l) ∧ "" ∉ fields l.

(** The states of an open window: the construction, the events above
    and the user typing into a cell of the table, on a layer whose field
    names are non-empty and distinct. *)
Inductive session : World → Prop :=
  | session_init l : session (init l)
  | session_step w e :
      session w → enabled e w → session (exec (run e) w)
  | session_edit w row col text :
      session w → fields_named (layer w) →
      session (exec (user_edits_cell row col text) w).

(** ** Properties *)

Ltac unfold_body :=
  cbv beta iota zeta delta
    [bind gets modify skip ret alloc mutate clearSelection user_selects_rows
     negb]
    in *.

Ltac unfold_goal :=
  cbv beta iota zeta delta
    [bind gets modify skip ret alloc mutate clearSelection user_selects_rows
     negb].

(** Reduction of the projections of explicit worlds. *)
Tactic Notation "simp_world_at" hyp_list(Hs) :=
  lazy beta iota zeta delta
    [with_self with_layer with_heap emit host_call
     set_original_selection set_highlighted_features
     set_clipboard_features set_last_clicked_row set_updating_selection
     set_updating_highlights set_row_maps with_table set_info_label
     set_buttons set_rubber_bands
     set_rows set_header_labels set_selected_rows setSortingEnabled
     blockSignals
     set_fields set_features set_committed set_selectedFeatureIds
     set_isEditable put_grid put_views
     editing_mode_changed_to features_deleted_to
     original highlighted model_of grid_of views_of
     self layer heap effects host_calls
     original_selection highlighted_features clipboard_features
     last_clicked_row _updating_selection _updating_highlights
     row_to_fid fid_to_row table_widget info_label buttons
     cyan_rubber_band yellow_rubber_band
     rows header_labels selected_rows sortingEnabled signalsBlocked
     fields features committed selectedFeatureIds isEditable
     g_rows g_header_labels g_sortingEnabled g_signalsBlocked
     g_row_to_fid g_fid_to_row
     v_info_label v_buttons v_cyan_rubber_band v_yellow_rubber_band] in Hs |- *;
  cbn [val world] in Hs |- *.

(** Bring every record projection to one form, so that equal terms are
    syntactically equal. *)
Tactic Notation "unfold_projections_at" hyp_list(Hs) :=
  unfold self, layer, heap, effects, host_calls,
    original_selection, highlighted_features, clipboard_features,
    last_clicked_row, _updating_selection, _updating_highlights,
    row_to_fid, fid_to_row, table_widget, info_label, buttons,
    cyan_rubber_band, yellow_rubber_band,
    rows, header_labels, selected_rows, sortingEnabled, signalsBlocked,
    fields, features, committed, selectedFeatureIds, isEditable,
    g_rows, g_header_labels, g_sortingEnabled, g_signalsBlocked,
    g_row_to_fid, g_fid_to_row,
    v_info_label, v_buttons, v_cyan_rubber_band, v_yellow_rubber_band
    in Hs |- *.

Tactic Notation "simp_at" hyp_list(Hs) :=
  simp_world_at Hs; repeat progress (simp_world_at Hs);
  unfold_projections_at Hs.

Ltac simp_goal := simp_at.

Ltac simp_world_once :=
  lazy beta iota zeta delta
    [with_self with_layer with_heap emit host_call
     set_original_selection set_highlighted_features
     set_clipboard_features set_last_clicked_row set_updating_selection
     set_updating_highlights set_row_maps with_table set_info_label
     set_buttons set_rubber_bands
     set_rows set_header_labels set_selected_rows setSortingEnabled
     blockSignals
     set_fields set_features set_committed set_selectedFeatureIds
     set_isEditable put_grid put_views
     editing_mode_changed_to features_deleted_to
     original highlighted model_of grid_of views_of
     self layer heap effects host_calls
     original_selection highlighted_features clipboard_features
     last_clicked_row _updating_selection _updating_highlights
     row_to_fid fid_to_row table_widget info_label buttons
     cyan_rubber_band yellow_rubber_band
     rows header_labels selected_rows sortingEnabled signalsBlocked
     fields features committed selectedFeatureIds isEditable
     g_rows g_header_labels g_sortingEnabled g_signalsBlocked
     g_row_to_fid g_fid_to_row
     v_info_label v_buttons v_cyan_rubber_band v_yellow_rubber_band] in *;
  cbn [val world] in *.

Ltac unfold_projections :=
  unfold self, layer, heap, effects, host_calls,
    original_selection, highlighted_features, clipboard_features,
    last_clicked_row, _updating_selection, _updating_highlights,
    row_to_fid, fid_to_row, table_widget, info_label, buttons,
    cyan_rubber_band, yellow_rubber_band,
    rows, header_labels, selected_rows, sortingEnabled, signalsBlocked,
    fields, features, committed, selectedFeatureIds, isEditable,
    g_rows, g_header_labels, g_sortingEnabled, g_signalsBlocked,
    g_row_to_fid, g_fid_to_row,
    v_info_label, v_buttons, v_cyan_rubber_band, v_yellow_rubber_band in *.

Ltac simp_world :=
  simp_world_once; repeat progress simp_world_once; unfold_projections.

(** Case analysis on a test of the goal. *)
Tactic Notation "case_editable" ident(H) :=
  match goal with
  | |- context [if ?c then _ else _] =>
      lazymatch c with isEditable _ => destruct c eqn:H end
  end.

(** *** Shapes of the view updates *)

Lemma update_info_label_shape w :
  ∃ v, update_info_label w = Ran_ () (put_views v w).
Proof.
  unfold update_info_label. unfold_body.
  by eexists {| v_info_label := _ |}; simp_world.
Qed.

Lemma update_button_states_shape w :
  ∃ v, update_button_states w = Ran_ () (put_views v w).
Proof.
  unfold update_button_states. unfold_body.
  by eexists {| v_info_label := _ |}; simp_world.
Qed.

Lemma update_map_highlighting_shape w :
  ∃ v, update_map_highlighting w = Ran_ () (emit CanvasRefresh (put_views v w)).
Proof.
  unfold update_map_highlighting. unfold_body.
  by eexists {| v_info_label := _ |}; simp_world.
Qed.

(** Symbolic execution of a body: unfold the sequencing up to the next
    call of a view update and replace the call by its shape. *)
Ltac step_views :=
  repeat (unfold_body;
    match goal with
    | |- context [update_info_label ?W] =>
        let v := fresh "v" in
        destruct (update_info_label_shape W) as [v ->]
    | |- context [update_button_states ?W] =>
        let v := fresh "v" in
        destruct (update_button_states_shape W) as [v ->]
    | |- context [update_map_highlighting ?W] =>
        let v := fresh "v" in
        destruct (update_map_highlighting_shape W) as [v ->]
    end);
  unfold_body.

(** *** The table while the slot is silenced *)

Lemma on_table_selection_changed_busy w :
  _updating_highlights (self w) = true →
  on_table_selection_changed w = Ran_ () w.
Proof.
  intros Hb. unfold on_table_selection_changed. unfold_body.
  by rewrite Hb.
Qed.

Lemma table_select_silenced new w :
  silenced w →
  table_select new w =
  Ran_ () (with_self (with_table (set_selected_rows new)) w).
Proof.
  intros Hs. unfold table_select. unfold_body.
  case_bool_decide as Hn.
  - by rewrite Hn.
  - simp_world. destruct (signalsBlocked _) eqn:Hb; [done|].
    destruct Hs as [Hs|Hs]; [simp_world; congruence|].
    by rewrite on_table_selection_changed_busy.
Qed.

Lemma select_row_silenced row w :
  silenced w →
  select_row row w =
  Ran_ () (with_self (with_table (set_selected_rows
    (selected_rows (table_widget (self w)) ∪ {[row]}))) w).
Proof.
  intros Hs. unfold select_row. unfold_body.
  by rewrite table_select_silenced.
Qed.

Lemma select_rows_for_silenced ids w :
  silenced w →
  ∃ sel, select_rows_for ids w =
         Ran_ () (with_self (with_table (set_selected_rows sel)) w).
Proof.
  unfold select_rows_for. revert w.
  induction ids as [|f ids IH]; intros w Hs; cbn [for_]; unfold_body.
  - by exists (selected_rows (table_widget (self w))).
  - destruct (get_row_for_fid f (self w)) as [r|].
    + rewrite select_row_silenced by done.
      edestruct IH as [sel ->]; [|by exists sel].
      destruct Hs as [Hs|Hs]; [left|right]; simp_world; done.
    + by apply IH.
Qed.

Lemma table_clear_silenced w :
  silenced w →
  table_clear w =
  Ran_ () (with_self (with_table (λ t,
    set_header_labels (map (λ _, "") (header_labels t))
      (set_rows (map (λ _, []) (rows t)) (set_selected_rows ∅ t)))) w).
Proof.
  intros Hs. unfold table_clear. unfold_body.
  by rewrite table_select_silenced.
Qed.

Lemma head_make_row e names f c :
  head (make_row e names f) = Some c → cell_fid c = f.1.
Proof.
  unfold make_row. destruct names as [|n names]; [done|].
  cbn. by intros [= <-].
Qed.

Lemma getFeatures_fid ids l f :
  f ∈ getFeatures ids l → f.1 ∈ ids.
Proof. unfold getFeatures. rewrite list_elem_of_filter. tauto. Qed.

Lemma populate_table_shape w :
  ∃ g, populate_table w = Ran_ () (put_grid g ∅ w) ∧ grid_in g (original w).
Proof.
  unfold populate_table. unfold_body.
  rewrite table_clear_silenced by (left; done).
  change (original (with_self _ (with_self _ (with_self _ (with_self _ w)))))
    with (original w).
  destruct (truthy (original w)) eqn:Ht; cbn [negb]; unfold_body.
  - eexists {| g_rows := _ |}. split; [simp_world; reflexivity|].
    split; cbn.
    + intros row cells c Hrow Hc.
      apply list_lookup_fmap_Some in Hrow as (f & -> & Hf).
      apply head_make_row in Hc as ->.
      apply list_elem_of_lookup_2, getFeatures_fid in Hf.
      by apply elem_of_elements in Hf.
    + intros row f Hrow. rewrite lookup_map_seq_0 in Hrow.
      apply list_lookup_fmap_Some in Hrow as (x & -> & Hx).
      apply list_elem_of_lookup_2, getFeatures_fid in Hx.
      by apply elem_of_elements in Hx.
  - eexists {| g_rows := _ |}. split; [simp_world; reflexivity|].
    split; cbn.
    + intros row cells c Hrow Hc.
      apply list_lookup_fmap_Some in Hrow as (x & -> & _). done.
    + intros row f Hrow. by rewrite lookup_empty in Hrow.
Qed.

(** *** The store *)

Lemma deref_alloc_new h s : deref (h ++ [s]) (length h) = s.
Proof. unfold deref. by rewrite list_lookup_middle. Qed.

Lemma deref_alloc_old h s r :
  (r < length h)%nat → deref (h ++ [s]) r = deref h r.
Proof. intros. unfold deref. by rewrite lookup_app_l. Qed.

Lemma deref_insert_eq h r s :
  (r < length h)%nat → deref (<[r := s]> h) r = s.
Proof. intros. unfold deref. by rewrite list_lookup_insert_eq. Qed.

Lemma deref_insert_ne h r r' s :
  r ≠ r' → deref (<[r := s]> h) r' = deref h r'.
Proof. intros. unfold deref. by rewrite list_lookup_insert_ne. Qed.

Lemma deref_app_new h s r :
  r = length h → deref (h ++ [s]) r = s.
Proof. intros ->. apply deref_alloc_new. Qed.

Lemma deref_insert_same h r r' s :
  r = r' → (r < length h)%nat → deref (<[r := s]> h) r' = s.
Proof. intros <-. apply deref_insert_eq. Qed.

Lemma truthy_true s : truthy s = true ↔ s ≠ ∅.
Proof. unfold truthy. by rewrite bool_decide_eq_true. Qed.

Lemma truthy_false s : truthy s = false ↔ s = ∅.
Proof.
  unfold truthy. rewrite bool_decide_eq_false.
  split; [apply dec_stable | by intros -> ?].
Qed.

(** Case analysis on a truthiness test of the goal. *)
Tactic Notation "case_truthy" ident(H) :=
  match goal with
  | |- context [truthy ?s] => destruct (truthy s) eqn:H
  end.

Ltac store_side :=
  repeat first [rewrite length_app | rewrite length_insert];
  cbn [length]; lia.

Ltac simp_store_goal :=
  repeat first
    [ rewrite deref_app_new by store_side
    | rewrite deref_alloc_old by store_side
    | rewrite deref_insert_same by store_side
    | rewrite deref_insert_ne by store_side
    | rewrite length_app
    | rewrite length_insert
    | rewrite list_to_set_elements_L ];
  cbn [length].

Ltac simp_store_in H :=
  repeat first
    [ rewrite deref_app_new in H by store_side
    | rewrite deref_alloc_old in H by store_side
    | rewrite deref_insert_same in H by store_side
    | rewrite deref_insert_ne in H by store_side
    | rewrite length_app in H
    | rewrite length_insert in H
    | rewrite list_to_set_elements_L in H ];
  cbn [length] in H.

Ltac simp_store :=
  simp_store_goal;
  repeat match goal with
  | H : context [deref] |- _ => progress simp_store_in H
  end.

(** Goals about the sets and the rows of a world in explicit form. *)
Ltac close_goal :=
  first
    [ done
    | lia
    | by (match goal with H : _ ∧ _ |- _ => apply H end)
    | set_solver ].

Ltac solve_sets :=
  unfold inv, sets_ok, wf, rows_in_selection, grid_in, original, highlighted
    in *;
  simp_world; simp_store;
  repeat split; close_goal.

(** *** The slot for row selection changes *)

Lemma fids_of_rows_spec selected w f :
  f ∈ fids_of_rows selected w ↔
  ∃ row, row ∈ selected ∧ get_fid_for_row row (self w) = Some f.
Proof.
  unfold fids_of_rows. rewrite elem_of_list_to_set, list_elem_of_omap.
  setoid_rewrite elem_of_elements. done.
Qed.

Lemma get_fid_for_row_in row w f :
  rows_in_selection w → get_fid_for_row row (self w) = Some f → f ∈ original w.
Proof.
  intros [Hrows Hmap]. unfold get_fid_for_row.
  destruct (rows (table_widget (self w)) !! row) as [cells|] eqn:Hrow; cbn.
  - destruct (head cells) as [c|] eqn:Hc.
    + intros [= <-]. eauto.
    + eauto.
  - eauto.
Qed.

Lemma fids_of_rows_in selected w :
  rows_in_selection w → fids_of_rows selected w ⊆ original w.
Proof.
  intros Hr f (row & _ & Hf)%fids_of_rows_spec.
  by eapply get_fid_for_row_in.
Qed.

(** What the slot does when it is not silenced by the flag: nothing when
    the rows resolve to the current highlights, else the highlights are
    rebound to a new set object holding the rows' fids and the views are
    redrawn. *)
Lemma on_table_selection_changed_shape w :
  _updating_highlights (self w) = false →
  let new := fids_of_rows (selected_rows (table_widget (self w))) w in
  (new = highlighted w ∧ on_table_selection_changed w = Ran_ () w)
  ∨ (new ≠ highlighted w ∧
     ∃ v l, on_table_selection_changed w = Ran_ ()
       (with_self (set_last_clicked_row l)
         (emit (HighlightChanged new)
           (emit CanvasRefresh
             (put_views v
               (emit ViewportUpdate
                 (with_self (set_highlighted_features (length (heap w)))
                   (with_heap (λ h, h ++ [new]) w)))))))).
Proof.
  intros Hb new. unfold on_table_selection_changed. unfold_body.
  rewrite Hb. change (list_to_set (omap _ _)) with new.
  case_bool_decide as Hn; [right|left; by split].
  split; [done|]. step_views.
  eexists.
  eexists (if bool_decide (selected_rows (table_widget (self w)) ≠ ∅)
           then Some (max_list (elements (selected_rows (table_widget (self w)))))
           else last_clicked_row (self w)).
  unfold highlighted. simp_world. rewrite deref_alloc_new.
  case_bool_decide; reflexivity.
Qed.

(** *** Symbolic execution through the table and the view updates *)

Ltac solve_silenced :=
  first [ by (left; simp_world) | by (right; simp_world) | done ].

Ltac step :=
  unfold_body;
  match goal with
  | |- context [update_info_label ?W] =>
      let v := fresh "v" in
      destruct (update_info_label_shape W) as [v ->]
  | |- context [update_button_states ?W] =>
      let v := fresh "v" in
      destruct (update_button_states_shape W) as [v ->]
  | |- context [update_map_highlighting ?W] =>
      let v := fresh "v" in
      destruct (update_map_highlighting_shape W) as [v ->]
  | |- context [populate_table ?W] =>
      let g := fresh "g" in
      let Hg := fresh "Hg" in
      destruct (populate_table_shape W) as (g & -> & Hg)
  | |- context [select_rows_for ?ids ?W] =>
      let sel := fresh "sel" in
      destruct (select_rows_for_silenced ids W) as [sel ->];
      [solve_silenced|]
  | |- context [table_select ?new ?W] =>
      rewrite (table_select_silenced new W) by solve_silenced
  end.

Ltac steps := repeat step; unfold_body.

(** *** Slots for the layer's signals *)

Lemma on_editing_mode_changed_shape w :
  ∃ g sel v, on_editing_mode_changed w = Ran_ ()
    (emit CanvasRefresh
      (put_views v
        (emit ViewportUpdate
          (with_self (set_updating_highlights false)
            (put_grid g sel
              (with_self (set_highlighted_features (length (heap w)))
                (with_heap (λ h, h ++ [highlighted w]) w)))))))
    ∧ grid_in g (original w).
Proof.
  unfold on_editing_mode_changed. steps.
  eexists g, _, _. split; [|exact Hg]. simp_world. reflexivity.
Qed.

Lemma on_features_deleted_shape fids w :
  ∃ g v, on_features_deleted fids w = Ran_ ()
    (emit CanvasRefresh
      (put_views v
        (emit ViewportUpdate
          (put_grid g ∅
            (with_heap (λ h,
               <[highlighted_features (self w) :=
                   deref h (highlighted_features (self w)) ∖ list_to_set fids]> h)
              (with_heap (λ h,
                 <[original_selection (self w) :=
                     deref h (original_selection (self w)) ∖ list_to_set fids]> h)
                w))))))
    ∧ grid_in g
        (deref (<[highlighted_features (self w) :=
                   deref (<[original_selection (self w) :=
                            original w ∖ list_to_set fids]> (heap w))
                         (highlighted_features (self w)) ∖ list_to_set fids]>
                 (<[original_selection (self w) :=
                      original w ∖ list_to_set fids]> (heap w)))
               (original_selection (self w))).
Proof.
  unfold on_features_deleted. steps.
  eexists g, _. split; [|exact Hg]. simp_world. reflexivity.
Qed.

Lemma on_layer_selection_changed_guarded selected deselected clr w :
  _updating_selection (self w) = true →
  on_layer_selection_changed selected deselected clr w = Ran_ () w.
Proof.
  intros Hb. unfold on_layer_selection_changed. unfold_body.
  by rewrite Hb.
Qed.

Lemma on_layer_selection_changed_same selected deselected clr w :
  selectedFeatureIds (layer w) = original w →
  on_layer_selection_changed selected deselected clr w = Ran_ () w.
Proof.
  intros He. unfold on_layer_selection_changed. unfold_body.
  destruct (_updating_selection (self w)); [done|].
  rewrite He. by rewrite bool_decide_eq_false_2 by (intros ?; done).
Qed.

Lemma on_layer_selection_changed_shape selected deselected clr w :
  _updating_selection (self w) = false →
  selectedFeatureIds (layer w) ≠ original w →
  ∃ g v text, on_layer_selection_changed selected deselected clr w = Ran_ ()
    (emit (MessageBar Info "Sync" text)
      (emit CanvasRefresh
        (put_views v
          (emit ViewportUpdate
            (put_grid g ∅
              (with_heap (λ h,
                 <[highlighted_features (self w) :=
                     deref h (highlighted_features (self w))
                     ∩ deref h (length (heap w))]> h)
                (with_self (set_original_selection (length (heap w)))
                  (with_heap (λ h, h ++ [selectedFeatureIds (layer w)]) w))))))))
    ∧ grid_in g
        (deref (<[highlighted_features (self w) :=
                   deref (heap w ++ [selectedFeatureIds (layer w)])
                         (highlighted_features (self w))
                   ∩ deref (heap w ++ [selectedFeatureIds (layer w)])
                       (length (heap w))]>
                 (heap w ++ [selectedFeatureIds (layer w)]))
               (length (heap w))).
Proof.
  intros Hb Hne. unfold on_layer_selection_changed. unfold_body.
  rewrite Hb. rewrite bool_decide_eq_true_2 by done. steps.
  eexists g, _, _. split; [|exact Hg]. simp_world. reflexivity.
Qed.

(** *** Writes to the host layer *)

Lemma guarded_selectByIds_shape ids w :
  guarded_selectByIds ids w = Ran_ ()
    (with_self (set_updating_selection false)
      (with_layer (set_selectedFeatureIds (list_to_set ids))
        (host_call (SelectByIds ids) w))).
Proof.
  unfold guarded_selectByIds, selectByIds. unfold_body.
  by rewrite on_layer_selection_changed_guarded.
Qed.

Lemma startEditing_editable w :
  isEditable (layer w) = true →
  startEditing w = Ran_ () (host_call StartEditing w).
Proof. intros He. unfold startEditing. unfold_body. simp_world. by rewrite He. Qed.

Lemma startEditing_shape w :
  isEditable (layer w) = false →
  ∃ g sel v, startEditing w = Ran_ ()
    (editing_mode_changed_to g sel v
      (with_layer (set_isEditable true) (host_call StartEditing w)))
    ∧ grid_in g (original w).
Proof.
  intros He. unfold startEditing. unfold_body. simp_world. rewrite He.
  edestruct on_editing_mode_changed_shape as (g & sel & v & -> & Hg).
  by exists g, sel, v.
Qed.

Lemma rollBack_shape w :
  isEditable (layer w) = true →
  ∃ g sel v, rollBack w = Ran_ ()
    (editing_mode_changed_to g sel v
      (with_layer (λ l, set_isEditable false (set_features (committed l) l))
        (host_call RollBack w)))
    ∧ grid_in g (original w).
Proof.
  intros He. unfold rollBack. unfold_body. simp_world. rewrite He.
  edestruct on_editing_mode_changed_shape as (g & sel & v & -> & Hg).
  by exists g, sel, v.
Qed.

Lemma commitChanges_shape w :
  isEditable (layer w) = true →
  ∃ g sel v, commitChanges w = Ran_ ()
    (editing_mode_changed_to g sel v
      (with_layer (λ l, set_isEditable false (set_committed (features l) l))
        (host_call CommitChanges w)))
    ∧ grid_in g (original w).
Proof.
  intros He. unfold commitChanges. unfold_body. simp_world. rewrite He.
  edestruct on_editing_mode_changed_shape as (g & sel & v & -> & Hg).
  by exists g, sel, v.
Qed.

Lemma deleteFeatures_refused ids w :
  deleteFeatures ids false w = Ran_ false (host_call (DeleteFeatures ids) w).
Proof. reflexivity. Qed.

Lemma deleteFeatures_accepted ids w :
  ∃ g v, deleteFeatures ids true w = Ran_ true
    (features_deleted_to ids g v
      (with_layer (λ l,
         set_features (filter (λ kv, kv.1 ∉ ids) (features l)) l)
        (host_call (DeleteFeatures ids) w))).
Proof.
  unfold deleteFeatures. unfold_body.
  edestruct on_features_deleted_shape as (g & v & -> & _).
  by exists g, v.
Qed.

(** ** The resolved target *)

Lemma target_set_eq w :
  wf w →
  target_set w = (if truthy (highlighted w) then highlighted w else original w).
Proof.
  intros (Ho & Hh & Hne).
  unfold target_set, get_target_features. unfold_body.
  destruct (truthy (highlighted w)); unfold original, highlighted;
    simp_world; by simp_store.
Qed.

(** C2: in every well-formed state [get_target_features] returns a new
    set object, distinct from both tracked objects, that holds the
    highlighted set when that is non-empty and the original selection
    otherwise; the tracked sets, the widget, the layer and every existing
    store cell are left as they were.  With BaseSelection = {1,2,3} the
    result is {1,2,3} when nothing is highlighted and {2} when {2} is. *)
Theorem get_target_features_spec w :
  wf w →
  let r := get_target_features w in
  (target_set w = (if truthy (highlighted w) then highlighted w else original w)
   ∧ val r ≠ original_selection (self w)
   ∧ val r ≠ highlighted_features (self w)
   ∧ original (world r) = original w
   ∧ highlighted (world r) = highlighted w
   ∧ self (world r) = self w
   ∧ layer (world r) = layer w
   ∧ effects (world r) = effects w
   ∧ host_calls (world r) = host_calls w
   ∧ (∀ i, (i < length (heap w))%nat → heap (world r) !! i = heap w !! i))
  ∧ (original world_123 = {[1; 2; 3]} ∧ highlighted world_123 = ∅
     ∧ target_set world_123 = {[1; 2; 3]})
  ∧ (original world_123_2 = {[1; 2; 3]} ∧ highlighted world_123_2 = {[2]}
     ∧ target_set world_123_2 = {[2]}).
Proof.
  intros (Ho & Hh & Hne) r. subst r.
  split; [|split; by vm_compute].
  unfold target_set, get_target_features. unfold_body.
  destruct (truthy (highlighted w)); unfold original, highlighted;
    simp_world; simp_store.
  all: repeat split; try lia; try done.
  all: intros i Hi; by rewrite lookup_app_l.
Qed.

Lemma get_target_features_spec_witness :
  wf world_123_2
  ∧ target_set world_123_2 = {[2]}
  ∧ original (exec get_target_features world_123_2) = original world_123_2.
Proof.
  assert (wf world_123_2) as Hwf by (vm_compute; lia).
  pose proof (get_target_features_spec world_123_2 Hwf) as H.
  cbv zeta in H.
  destruct H as ((_ & _ & _ & Ho & _) & _ & _ & _ & Ht).
  exact (conj Hwf (conj Ht Ho)).
Defined.

(** ** The reentrancy guard *)

(** C4: while [_updating_selection] is set, the slot for the layer's
    [selectionChanged] signal returns at once and leaves the whole world,
    the two sets and every view included, as it was; so a [selectByIds]
    made under the flag, which delivers that signal, only replaces the
    host selection and is logged. *)
Theorem selection_change_ignored_under_guard w ids selected deselected clr :
  _updating_selection (self w) = true →
  on_layer_selection_changed selected deselected clr w = Ran_ () w
  ∧ selectByIds ids w = Ran_ ()
      (with_layer (set_selectedFeatureIds (list_to_set ids))
        (host_call (SelectByIds ids) w))
  ∧ original (exec (selectByIds ids) w) = original w
  ∧ highlighted (exec (selectByIds ids) w) = highlighted w
  ∧ views_of (exec (selectByIds ids) w) = views_of w
  ∧ grid_of (exec (selectByIds ids) w) = grid_of w
  ∧ effects (exec (selectByIds ids) w) = effects w.
Proof.
  intros Hg.
  assert (selectByIds ids w = Ran_ ()
      (with_layer (set_selectedFeatureIds (list_to_set ids))
        (host_call (SelectByIds ids) w))) as Hs.
  { unfold selectByIds. unfold_body.
    by rewrite on_layer_selection_changed_guarded. }
  split; [by apply on_layer_selection_changed_guarded|].
  rewrite Hs. done.
Qed.

Lemma selection_change_ignored_under_guard_witness :
  let w := with_self (set_updating_selection true) world_123_2 in
  _updating_selection (self w) = true
  ∧ on_layer_selection_changed {[4; 5]} {[1; 2; 3]} true
      (with_layer (set_selectedFeatureIds {[4; 5]}) w)
    = Ran_ () (with_layer (set_selectedFeatureIds {[4; 5]}) w).
Proof.
  intros w. split; [reflexivity|].
  assert (_updating_selection
            (self (with_layer (set_selectedFeatureIds {[4; 5]}) w)) = true)
    as Hg by reflexivity.
  exact (proj1 (selection_change_ignored_under_guard
                  (with_layer (set_selectedFeatureIds {[4; 5]}) w) []
                  {[4; 5]} {[1; 2; 3]} true Hg)).
Defined.

(** ** Removal of deleted ids *)

Lemma deref_mutate_eq h r (f : gset Z → gset Z) :
  f ∅ = ∅ → deref (<[r := f (deref h r)]> h) r = f (deref h r).
Proof.
  intros Hf. destruct (decide (r < length h)%nat).
  - by rewrite deref_insert_eq.
  - rewrite list_insert_ge by lia.
    unfold deref. rewrite lookup_ge_None_2 by lia. done.
Qed.

Lemma deref_mutate h r r' (f : gset Z → gset Z) :
  f ∅ = ∅ →
  deref (<[r := f (deref h r)]> h) r' =
  if decide (r = r') then f (deref h r') else deref h r'.
Proof.
  intros Hf. case_decide as He.
  - subst. by apply deref_mutate_eq.
  - by apply deref_insert_ne.
Qed.

(** C8: the slot for [featuresDeleted] subtracts the deleted ids from
    both sets and removes nothing else: afterwards neither set meets
    [Y], and an id outside [Y] is in a set exactly when it was before. *)
Theorem on_features_deleted_spec w (Y : list Z) :
  let w' := exec (on_features_deleted Y) w in
  original w' = original w ∖ list_to_set Y
  ∧ highlighted w' = highlighted w ∖ list_to_set Y
  ∧ original w' ∩ list_to_set Y = ∅
  ∧ highlighted w' ∩ list_to_set Y = ∅
  ∧ (∀ f, f ∉ Y → (f ∈ original w' ↔ f ∈ original w))
  ∧ (∀ f, f ∉ Y → (f ∈ highlighted w' ↔ f ∈ highlighted w)).
Proof.
  intros w'.
  assert (original w' = original w ∖ list_to_set Y
          ∧ highlighted w' = highlighted w ∖ list_to_set Y) as [Ho Hh].
  { subst w'. destruct (on_features_deleted_shape Y w) as (g & v & -> & _).
    unfold original, highlighted. simp_world.
    rewrite !(deref_mutate _ _ _ (λ s, s ∖ list_to_set Y)) by set_solver.
    repeat case_decide; split; try congruence; set_solver. }
  rewrite Ho, Hh. repeat split; try set_solver.
Qed.

(** ** The field calculator entry *)

Lemma load_fids_fails fid :
  load_name flash_fid_locals {[ "self" := VObject; "fid" := VInt fid ]} "fids"
  = Raised (NameError "fids").
Proof. by vm_compute. Qed.

Lemma flash_fid_raises fid a w :
  flash_fid fid a w =
    Ran_ (Raised (NameError "fids")) (emit (FlashFeatureIds [fid]) w).
Proof. unfold flash_fid. unfold_body. by rewrite load_fids_fails. Qed.

(** C9, as the code has it: the code that computes [target_fids] and
    opens the field calculator dialog sits in [flash_fid], where [fids]
    is neither a parameter nor assigned, so it is no local variable, and
    no module global either: every call flashes the feature and then
    fails with [NameError] on reading [fids], before any dialog is
    opened.  The declared entry [open_field_calculator] always returns
    normally and never opens the dialog: it leaves the effects as they
    were or adds the "No features selected." message. *)
Theorem field_calculator_entry_unbound fid a w :
  flash_fid fid a w =
    Ran_ (Raised (NameError "fids")) (emit (FlashFeatureIds [fid]) w)
  ∧ ("fids" ∉ flash_fid_locals)
  ∧ ("fids" ∉ module_globals)
  ∧ val (open_field_calculator w) = ()
  ∧ (effects (exec open_field_calculator w) = effects w
     ∨ effects (exec open_field_calculator w) =
         MessageBar Info "Field Calculator" "No features selected."
         :: effects w)
  ∧ (∀ target all,
       FieldCalculatorOpened target all ∈ effects (exec open_field_calculator w) →
       FieldCalculatorOpened target all ∈ effects w).
Proof.
  assert (effects (exec open_field_calculator w) = effects w
     ∨ effects (exec open_field_calculator w) =
         MessageBar Info "Field Calculator" "No features selected."
         :: effects w) as He.
  { unfold open_field_calculator, get_target_features. unfold_body.
    destruct (truthy (highlighted w)); simp_world;
      repeat (destruct (truthy _); cbn); auto. }
  split; [|split; [|split; [|split; [|split]]]].
  2, 3: apply (bool_decide_unpack _); by vm_compute.
  - apply flash_fid_raises.
  - by destruct (val _).
  - exact He.
  - intros target all. destruct He as [-> | ->]; [done|].
    rewrite elem_of_cons. by intros [?|?].
Qed.

(** C9 as stated fails: [fids] is not a local variable of [flash_fid],
    so reading it is a failed global lookup; no invocation ends in
    [UnboundLocalError]. *)
Lemma unbound_local_branch_reachable_fails : ¬ unbound_local_branch_reachable.
Proof.
  intros (fid & a & w & H). rewrite flash_fid_raises in H. discriminate H.
Qed.

(** ** Narrowing the selection *)

(** C6: with highlights, [reselect_to_highlighted] binds
    [original_selection] to a new set object holding the previous
    highlights, empties the highlighted object in place and pushes the
    new selection to the host; without highlights it changes nothing but
    reports the informational message. *)
Theorem reselect_to_highlighted_spec w :
  wf w →
  let w' := exec reselect_to_highlighted w in
  (highlighted w ≠ ∅ →
     original w' = highlighted w
     ∧ highlighted w' = ∅
     ∧ original_selection (self w') ≠ highlighted_features (self w')
     ∧ original_selection (self w') ≠ original_selection (self w)
     ∧ highlighted_features (self w') = highlighted_features (self w)
     ∧ selectedFeatureIds (layer w') = highlighted w
     ∧ host_calls w' = SelectByIds (elements (highlighted w)) :: host_calls w)
  ∧ (highlighted w = ∅ →
     w' = emit (MessageBar Info "Selection"
                  "No features highlighted to re-select.") w).
Proof.
  intros (Ho & Hh & Hne) w'. subst w'.
  unfold reselect_to_highlighted. unfold_body.
  destruct (truthy (highlighted w)) eqn:Ht; cbn [negb].
  - apply truthy_true in Ht. split; [intros _|done].
    unfold_body. rewrite guarded_selectByIds_shape. steps.
    unfold original, highlighted in *. simp_world. simp_store.
    repeat split; try done; lia.
  - apply truthy_false in Ht. split; [done|intros _]. reflexivity.
Qed.

Lemma reselect_to_highlighted_spec_witness :
  wf world_123_2
  ∧ original (exec reselect_to_highlighted world_123_2) = {[2]}
  ∧ highlighted (exec reselect_to_highlighted world_123_2) = ∅.
Proof.
  assert (wf world_123_2) as Hwf by (vm_compute; lia).
  assert (highlighted world_123_2 ≠ ∅) as Hne
    by (apply (bool_decide_unpack _); by vm_compute).
  destruct (proj1 (reselect_to_highlighted_spec world_123_2 Hwf) Hne)
    as (Ho & Hh & _).
  split; [exact Hwf|]. split; [|exact Hh].
  rewrite Ho. by vm_compute.
Defined.

(** ** Inverting the highlights *)

Lemma invert_highlights_sets w :
  wf w →
  wf (exec invert_highlights w)
  ∧ original (exec invert_highlights w) = original w
  ∧ highlighted (exec invert_highlights w) =
      (if truthy (original w) then original w ∖ highlighted w
       else highlighted w).
Proof.
  intros (Ho & Hh & Hne).
  unfold invert_highlights. unfold_body.
  destruct (truthy (original w)) eqn:Ht; cbn [negb]; [|done].
  steps. unfold wf, original, highlighted in *. simp_world. simp_store.
  repeat split; try done; lia.
Qed.

(** C7: when the highlights are within the original selection, one
    [invert_highlights] leaves the original selection alone and makes
    the highlights its complement within it, and a second one restores
    the highlights. *)
Theorem invert_highlights_spec w :
  wf w →
  highlighted w ⊆ original w →
  let w1 := exec invert_highlights w in
  let w2 := exec invert_highlights w1 in
  original w1 = original w
  ∧ highlighted w1 = original w ∖ highlighted w
  ∧ original w2 = original w
  ∧ highlighted w2 = highlighted w.
Proof.
  intros Hwf Hsub w1 w2.
  destruct (invert_highlights_sets w Hwf) as (Hwf1 & Ho1 & Hh1).
  destruct (invert_highlights_sets w1 Hwf1) as (_ & Ho2 & Hh2).
  fold w1 in Ho1, Hh1. fold w2 in Ho2, Hh2.
  rewrite Ho2, Hh2, Ho1, Hh1.
  destruct (truthy (original w)) eqn:Ht.
  - repeat split; try done.
    apply set_eq. intros x. rewrite !elem_of_difference. split.
    + intros [Hx Hn]. destruct (decide (x ∈ highlighted w)); [done|].
      by destruct Hn.
    + intros Hx. split; [by apply Hsub|]. by intros [_ Hn].
  - apply truthy_false in Ht. repeat split; try done. set_solver.
Qed.

Lemma invert_highlights_spec_witness :
  wf world_123_2
  ∧ highlighted world_123_2 ⊆ original world_123_2
  ∧ highlighted (exec invert_highlights world_123_2) = {[1; 3]}
  ∧ highlighted (exec invert_highlights (exec invert_highlights world_123_2))
    = highlighted world_123_2.
Proof.
  assert (wf world_123_2) as Hwf by (vm_compute; lia).
  assert (highlighted world_123_2 ⊆ original world_123_2) as Hsub
    by (apply (bool_decide_unpack _); by vm_compute).
  destruct (invert_highlights_spec world_123_2 Hwf Hsub) as (_ & Hh & _ & Hb).
  split; [exact Hwf|]. split; [exact Hsub|]. split; [|exact Hb].
  rewrite Hh. by vm_compute.
Defined.

(** ** Copying to the clipboard *)

Lemma for_append feats w :
  for_ feats clipboard_append w
  = Ran_ () (with_self (λ s,
      set_clipboard_features (clipboard_features s ++ feats) s) w).
Proof.
  revert w. induction feats as [|f feats IH]; intros w; cbn [for_]; unfold_body.
  - simp_world. by rewrite app_nil_r.
  - unfold clipboard_append at 1. unfold_body.
    rewrite IH. simp_world. by rewrite <-app_assoc.
Qed.

Ltac use_for_append :=
  unfold_body;
  match goal with
  | |- context [for_ ?l clipboard_append ?W] => rewrite (for_append l W)
  end.

Lemma copy_features_shape w :
  wf w →
  (target_set w = ∅ ∧
   copy_features w = Ran_ () (with_heap (λ h, h ++ [∅]) w))
  ∨ (target_set w ≠ ∅ ∧
     ∃ v text, copy_features w = Ran_ ()
       (emit (MessageBar Success "Copy" text)
         (put_views v
           (with_self
              (set_clipboard_features
                 (getFeatures (elements (target_set w)) (layer w)))
              (with_heap (λ h, h ++ [target_set w]) w))))).
Proof.
  intros (Ho & Hh & Hne).
  unfold target_set, copy_features, get_target_features. unfold_body.
  destruct (truthy (highlighted w)) eqn:Hhl;
    unfold_body; simp_world; simp_store.
  - right. rewrite Hhl. cbn [negb]. apply truthy_true in Hhl.
    split; [done|]. use_for_append. steps.
    eexists _, _. simp_world. reflexivity.
  - case_truthy Hor; cbn [negb].
    + right. apply truthy_true in Hor. split; [done|].
      use_for_append. steps.
      eexists _, _. simp_world. reflexivity.
    + left. apply truthy_false in Hor. split; [done|]. by rewrite Hor.
Qed.

Lemma getFeatures_spec ids l f d :
  (f, d) ∈ getFeatures ids l ↔ f ∈ ids ∧ features l !! f = Some d.
Proof.
  unfold getFeatures. rewrite list_elem_of_filter, elem_of_map_to_list. done.
Qed.

Lemma getFeatures_NoDup ids l : NoDup (getFeatures ids l).*1.
Proof.
  unfold getFeatures.
  apply (sublist_NoDup _ (map_to_list (features l)).*1).
  - apply NoDup_fst_map_to_list.
  - apply fmap_sublist, sublist_filter.
Qed.

(** C10: [copy_features] never changes the two sets.  With an empty
    target it returns at once: the widget, the clipboard included, the
    layer and the logs are as before and the store only gains the
    unreferenced copy.  With a non-empty target the clipboard becomes
    exactly the host's features of the target, one snapshot per feature
    id, whatever it held before. *)
Theorem copy_features_spec w :
  wf w →
  let w' := exec copy_features w in
  original w' = original w
  ∧ highlighted w' = highlighted w
  ∧ (highlighted w = ∅ → original w = ∅ →
       self w' = self w ∧ layer w' = layer w
       ∧ effects w' = effects w ∧ host_calls w' = host_calls w
       ∧ (∀ i, (i < length (heap w))%nat → heap w' !! i = heap w !! i))
  ∧ (target_set w ≠ ∅ →
       clipboard_features (self w') =
         getFeatures (elements (target_set w)) (layer w)
       ∧ NoDup (clipboard_features (self w')).*1
       ∧ (∀ f d, (f, d) ∈ clipboard_features (self w') ↔
                 f ∈ target_set w ∧ features (layer w) !! f = Some d)).
Proof.
  intros Hwf w'. subst w'.
  pose proof Hwf as (Ho & Hh & Hne).
  assert (highlighted w = ∅ → original w = ∅ → target_set w = ∅) as Hempty.
  { intros H1 H2.
    rewrite (target_set_eq w Hwf), H1, H2. by destruct (truthy _). }
  destruct (copy_features_shape w Hwf)
    as [[Ht ->]|(Ht & v & text & ->)];
    unfold original, highlighted; simp_world; simp_store.
  - repeat split; try done.
    intros i Hi. by rewrite lookup_app_l.
  - split; [done|]. split; [done|]. split; [intros; by destruct Ht; auto|].
    intros _. split; [done|]. split; [apply getFeatures_NoDup|].
    intros f d. rewrite getFeatures_spec, elem_of_elements. done.
Qed.

Lemma copy_features_spec_witness :
  wf world_123_2
  ∧ original (exec copy_features world_123_2) = original world_123_2
  ∧ (clipboard_features (self (exec copy_features world_123_2))).*1 = [2].
Proof.
  assert (wf world_123_2) as Hwf by (vm_compute; lia).
  destruct (copy_features_spec world_123_2 Hwf) as (Ho & _ & _ & Hc).
  split; [exact Hwf|]. split; [exact Ho|].
  assert (target_set world_123_2 ≠ ∅) as Hne
    by (apply (bool_decide_unpack _); by vm_compute).
  destruct (Hc Hne) as (-> & _). by vm_compute.
Defined.

(** ** Setting the highlights *)

Lemma select_by_expression_shape a w :
  filter_runs a w →
  ∃ sel v text, select_by_expression a w = Ran_ ()
    (emit (MessageBar Success "Filter" text)
      (emit CanvasRefresh
        (put_views v
          (emit ViewportUpdate
            (with_self (set_updating_highlights false)
              (with_self (with_table (set_selected_rows sel))
                (with_self (set_highlighted_features (length (heap w)))
                  (with_heap (λ h, h ++
                     [list_to_set (filter (λ f, filter_evaluate a f = true)
                        (getFeatures (elements (original w)) (layer w))).*1])
                    (emit (FilterDialogOpened (original w)) w))))))))).
Proof.
  intros (Ho & (text & He & Ht) & Hp).
  unfold select_by_expression. unfold_body.
  rewrite (proj2 (truthy_true _) Ho), He, Hp. cbn [negb].
  rewrite bool_decide_eq_false_2 by done.
  steps. eexists _, _, _. simp_world. reflexivity.
Qed.

Lemma matching_fids_spec a w :
  list_to_set (filter (λ f, filter_evaluate a f = true)
     (getFeatures (elements (original w)) (layer w))).*1
  = matched_ids a w ∩ original w.
Proof.
  apply set_eq. intros x.
  rewrite elem_of_list_to_set, list_elem_of_fmap, elem_of_intersection.
  unfold matched_ids. rewrite elem_of_dom. split.
  - intros ([f d] & -> & [He [Hin Hf]%getFeatures_spec]%list_elem_of_filter).
    cbn. split; [|by apply elem_of_elements].
    exists d. by apply map_lookup_filter_Some.
  - intros [[d [Hd He]%map_lookup_filter_Some] Hx].
    exists (x, d). split; [done|].
    apply list_elem_of_filter. split; [done|].
    apply getFeatures_spec. by rewrite elem_of_elements.
Qed.

(** C5, as the code has it: the row-click path (the slot
    [on_table_selection_changed], when [_updating_highlights] does not
    silence it) replaces the highlights by the fids of the selected rows,
    all of which are in the original selection, and leaves the world
    untouched when that set is the current one.  The filter-match path
    ([select_by_expression] once the expression is evaluated) replaces
    the highlights by the matched ids within the original selection and
    has no such guard: it repaints the table and refreshes the overlays
    every time. *)
Theorem set_highlighted_paths a w :
  inv w →
  (_updating_highlights (self w) = false →
     let new := fids_of_rows (selected_rows (table_widget (self w))) w in
     let w' := exec on_table_selection_changed w in
     highlighted w' = new
     ∧ new = new ∩ original w
     ∧ original w' = original w
     ∧ (new = highlighted w → w' = w))
  ∧ (filter_runs a w →
     let w' := exec (select_by_expression a) w in
     highlighted w' = matched_ids a w ∩ original w
     ∧ original w' = original w
     ∧ renders w' = (2 + renders w)%nat).
Proof.
  intros [[(Ho & Hh & Hne) Hsub] Hrows]. split.
  - intros Hb new w'. subst w'.
    pose proof (fids_of_rows_in (selected_rows (table_widget (self w))) w Hrows)
      as Hin. fold new in Hin.
    destruct (on_table_selection_changed_shape w Hb)
      as [[Hn ->]|(Hn & v & l & ->)]; fold new in Hn |- *.
    + repeat split; try done. set_solver.
    + unfold original, highlighted in *. simp_world. simp_store.
      repeat split; try done. set_solver.
  - intros Hr w'. subst w'.
    destruct (select_by_expression_shape a w Hr) as (sel & v & text & ->).
    rewrite <-matching_fids_spec.
    unfold renders, original, highlighted. simp_world. simp_store.
    repeat split; done.
Qed.

(** ** Deleting the target *)

(** Symbolic execution that keeps the store in explicit, simplified form
    after every call, and only the facts about the last grid. *)
Ltac forget_grids :=
  repeat match goal with H : grid_in _ _ |- _ => clear H end.

Ltac estep :=
  unfold_goal;
  match goal with
  | |- context [update_info_label ?W] =>
      let v := fresh "v" in
      destruct (update_info_label_shape W) as [v ->]
  | |- context [update_button_states ?W] =>
      let v := fresh "v" in
      destruct (update_button_states_shape W) as [v ->]
  | |- context [update_map_highlighting ?W] =>
      let v := fresh "v" in
      destruct (update_map_highlighting_shape W) as [v ->]
  | |- context [populate_table ?W] =>
      let g := fresh "g" in let Hg := fresh "Hg" in
      forget_grids;
      destruct (populate_table_shape W) as (g & -> & Hg); simp_at Hg
  | |- context [select_rows_for ?ids ?W] =>
      let sel := fresh "sel" in
      destruct (select_rows_for_silenced ids W) as [sel ->];
      [solve_silenced|]
  | |- context [table_select ?new ?W] =>
      rewrite (table_select_silenced new W) by solve_silenced
  | |- context [startEditing ?W] =>
      let g := fresh "g" in let sel := fresh "sel" in
      let v := fresh "v" in let Hg := fresh "Hg" in
      forget_grids;
      destruct (startEditing_shape W) as (g & sel & v & -> & Hg);
      [by simp_at|simp_at Hg]
  | |- context [rollBack ?W] =>
      let g := fresh "g" in let sel := fresh "sel" in
      let v := fresh "v" in let Hg := fresh "Hg" in
      forget_grids;
      destruct (rollBack_shape W) as (g & sel & v & -> & Hg);
      [by simp_at|simp_at Hg]
  | |- context [commitChanges ?W] =>
      let g := fresh "g" in let sel := fresh "sel" in
      let v := fresh "v" in let Hg := fresh "Hg" in
      forget_grids;
      destruct (commitChanges_shape W) as (g & sel & v & -> & Hg);
      [by simp_at|simp_at Hg]
  | |- context [deleteFeatures ?ids true ?W] =>
      let g := fresh "g" in let v := fresh "v" in
      destruct (deleteFeatures_accepted ids W) as (g & v & ->)
  | |- context [deleteFeatures ?ids false ?W] =>
      rewrite (deleteFeatures_refused ids W)
  | |- context [guarded_selectByIds ?ids ?W] =>
      rewrite (guarded_selectByIds_shape ids W)
  end;
  simp_at; simp_store.

Ltac erun := repeat estep; unfold_goal.

Lemma delete_features_run w reply accepted :
  wf w →
  let T := target_set w in
  let deleted := truthy T && reply && accepted in
  ∃ w', delete_features reply accepted w = Ran_ () w'
  ∧ wf w'
  ∧ original w' = (if deleted then original w ∖ T else original w)
  ∧ highlighted w' = (if deleted then highlighted w ∖ T else highlighted w)
  ∧ (rows_in_selection w → rows_in_selection w')
  ∧ (truthy T && reply = false → host_calls w' = host_calls w)
  ∧ (truthy T && reply = true → accepted = false →
     head (effects w') =
       Some (MessageBox Warning "Error" "Failed to delete features.")
     ∧ host_calls w' =
         (if isEditable (layer w) then [DeleteFeatures (elements T)]
          else [RollBack; DeleteFeatures (elements T); StartEditing])
         ++ host_calls w).
Proof.
  intros (Ho & Hh & Hne) T deleted. subst T deleted.
  unfold target_set, delete_features, get_target_features. unfold_body.
  case_truthy Hhl; unfold_body; simp_world; simp_store.
  - rewrite Hhl. unfold_body. destruct reply; unfold_body.
    + case_editable Hed; destruct accepted; erun;
        (eexists; split; [reflexivity|]); cbn [andb]; solve_sets.
    + eexists; split; [reflexivity|]; cbn [andb]; solve_sets.
  - case_truthy Hor; unfold_body.
    + destruct reply; unfold_body.
      * case_editable Hed; destruct accepted; erun;
          (eexists; split; [reflexivity|]); cbn [andb]; solve_sets.
      * eexists; split; [reflexivity|]; cbn [andb]; solve_sets.
    + eexists; split; [reflexivity|]; cbn [andb]; solve_sets.
Qed.

(** C3 as stated fails: on a layer that is already being edited a
    refused delete is not followed by [rollBack]. *)
Lemma refused_delete_rolls_back_fails : ¬ refused_delete_rolls_back.
Proof.
  intros H.
  assert (reachable world_editing) as Hr.
  { apply (reachable_step _ (UserSelectsRows {[1%nat]})); [|exact I].
    apply reachable_init. }
  assert (target_set world_editing ≠ ∅) as Hne
    by (apply (bool_decide_unpack _); by vm_compute).
  destruct (H world_editing Hr Hne) as (_ & _ & new & Hnew & Hin).
  assert (host_calls (exec (delete_features true false) world_editing)
          = [DeleteFeatures [2]]) as E1 by by vm_compute.
  assert (host_calls world_editing = []) as E2 by by vm_compute.
  rewrite E1, E2, app_nil_r in Hnew. subst new.
  apply list_elem_of_singleton in Hin. discriminate.
Qed.

(** C3, as the code has it: when the host refuses [deleteFeatures] both
    sets keep their contents and the warning box is shown; [rollBack] is
    called only when the widget itself had started the editing session,
    not on a layer that was already being edited.  When the host accepts,
    the target ids are removed from both sets.  When there is no target
    or the user declines, nothing is asked of the host. *)
Theorem delete_features_spec w reply accepted :
  wf w →
  let T := target_set w in
  let w' := exec (delete_features reply accepted) w in
  (T ≠ ∅ → reply = true → accepted = false →
     original w' = original w
     ∧ highlighted w' = highlighted w
     ∧ head (effects w') =
         Some (MessageBox Warning "Error" "Failed to delete features.")
     ∧ host_calls w' =
         (if isEditable (layer w) then [DeleteFeatures (elements T)]
          else [RollBack; DeleteFeatures (elements T); StartEditing])
         ++ host_calls w)
  ∧ (T ≠ ∅ → reply = true → accepted = true →
     original w' = original w ∖ T ∧ highlighted w' = highlighted w ∖ T)
  ∧ (T = ∅ ∨ reply = false →
     original w' = original w ∧ highlighted w' = highlighted w
     ∧ host_calls w' = host_calls w).
Proof.
  intros Hwf T w'. subst w'.
  destruct (delete_features_run w reply accepted Hwf)
    as (w' & -> & _ & Ho & Hh & _ & Hq & Hf).
  fold T in Ho, Hh, Hq, Hf. cbn [world].
  split; [|split].
  - intros Ht -> ->. apply truthy_true in Ht. rewrite Ht in *.
    cbn [andb] in *. destruct Hf as [He Hc]; done.
  - intros Ht -> ->. apply truthy_true in Ht. rewrite Ht in *. done.
  - intros [Ht| ->].
    + apply truthy_false in Ht. rewrite Ht in *. cbn [andb] in *. auto.
    + rewrite andb_false_r in *. cbn [andb] in *. auto.
Qed.

Lemma delete_features_spec_witness :
  wf world_editing
  ∧ original (exec (delete_features true false) world_editing) = {[1; 2; 3]}
  ∧ highlighted (exec (delete_features true false) world_editing) = {[2]}.
Proof.
  assert (wf world_editing) as Hwf by (vm_compute; lia).
  assert (target_set world_editing ≠ ∅) as Hne
    by (apply (bool_decide_unpack _); by vm_compute).
  destruct (proj1 (delete_features_spec world_editing true false Hwf)
              Hne eq_refl eq_refl) as (Ho & Hh & _).
  split; [exact Hwf|]. rewrite Ho, Hh. by vm_compute.
Defined.

(** ** The invariant *)

Lemma table_select_inv new w :
  inv w → ∃ w', table_select new w = Ran_ () w' ∧ inv w'.
Proof.
  intros Hinv. unfold table_select. unfold_goal.
  case_bool_decide as Hn; [by exists w|].
  match goal with
  | |- context [if ?c then _ else _] => destruct c eqn:Hblocked
  end.
  { eexists. split; [reflexivity|]. exact Hinv. }
  match goal with
  | |- context [on_table_selection_changed ?W] =>
      destruct (_updating_highlights (self W)) eqn:Hb;
      [ rewrite (on_table_selection_changed_busy W Hb)
      | pose proof (fids_of_rows_in (selected_rows (table_widget (self W))) W
                      (proj2 Hinv)) as Hin;
        destruct (on_table_selection_changed_shape W Hb)
          as [[_ ->]|(_ & v & l & ->)] ]
  end.
  - eexists. split; [reflexivity|]. exact Hinv.
  - eexists. split; [reflexivity|]. exact Hinv.
  - eexists. split; [reflexivity|].
    set (hl := fids_of_rows _ _) in *. clearbody hl.
    destruct Hinv as [[(Ho & Hh & Hne) Hsub] Hrows].
    solve_sets.
Qed.

Ltac take_inv H := destruct H as [[(? & ? & ?) ?] ?].

Ltac finish := eexists; split; [reflexivity|]; solve_sets.

Ltac use_table_select_inv :=
  unfold_goal;
  match goal with
  | |- context [table_select ?n ?W] =>
      let w2 := fresh "w" in
      let Hi := fresh "Hinv" in
      destruct (table_select_inv n W) as (w2 & -> & Hi);
      [|take_inv Hi]
  end.

Lemma user_sorts_inv sorted w :
  sorted ≡ₚ rows (table_widget (self w)) →
  inv w → ∃ w', user_sorts sorted w = Ran_ () w' ∧ inv w'.
Proof.
  intros Hp Hinv. eexists. split; [reflexivity|].
  destruct Hinv as [Hsets [Hrows Hmap]].
  split; [exact Hsets|]. split; [|exact Hmap].
  intros row cells c Hrow Hc.
  apply list_elem_of_lookup_2 in Hrow.
  change (cells ∈ sorted) in Hrow. rewrite Hp in Hrow.
  apply list_elem_of_lookup_1 in Hrow as [row' Hrow'].
  by eapply Hrows.
Qed.

Lemma clear_highlights_inv w :
  inv w → ∃ w', clear_highlights w = Ran_ () w' ∧ inv w'.
Proof.
  intros Hinv. unfold clear_highlights. unfold_goal.
  case_truthy Hhl; [|by exists w].
  take_inv Hinv. use_table_select_inv; [solve_sets|].
  erun. finish.
Qed.

Lemma highlight_all_inv w :
  inv w → ∃ w', highlight_all w = Ran_ () w' ∧ inv w'.
Proof.
  intros Hinv. unfold highlight_all, selectAll. take_inv Hinv.
  use_table_select_inv; [solve_sets|].
  erun. finish.
Qed.

Lemma reselect_to_highlighted_inv w :
  inv w → ∃ w', reselect_to_highlighted w = Ran_ () w' ∧ inv w'.
Proof.
  intros Hinv. unfold reselect_to_highlighted. unfold_goal. take_inv Hinv.
  case_truthy Hhl; [|finish].
  erun. finish.
Qed.

Lemma invert_highlights_inv w :
  inv w → ∃ w', invert_highlights w = Ran_ () w' ∧ inv w'.
Proof.
  intros Hinv. unfold invert_highlights. unfold_goal. take_inv Hinv.
  case_truthy Hor; [|finish].
  erun. finish.
Qed.

Lemma matching_subset (P : Z * FeatureData → Prop) `{∀ f, Decision (P f)}
    (S : gset Z) l :
  list_to_set (filter P (getFeatures (elements S) l)).*1 ⊆ S.
Proof.
  intros x. rewrite elem_of_list_to_set, list_elem_of_fmap.
  intros ([f d] & -> & [_ [Hin _]%getFeatures_spec]%list_elem_of_filter).
  by apply elem_of_elements in Hin.
Qed.

Lemma select_by_expression_inv a w :
  inv w → ∃ w', select_by_expression a w = Ran_ () w' ∧ inv w'.
Proof.
  intros Hinv. unfold select_by_expression. unfold_goal. take_inv Hinv.
  case_truthy Hor; [|finish].
  unfold_goal.
  destruct (filter_expression a) as [expr_text|]; [|finish].
  case_bool_decide; [finish|].
  destruct (filter_parser_error a); [finish|].
  pose proof (matching_subset (λ f, filter_evaluate a f = true)
                (original w) (layer w)) as Hm.
  erun. finish.
Qed.

Lemma delete_features_inv reply accepted w :
  inv w → ∃ w', delete_features reply accepted w = Ran_ () w' ∧ inv w'.
Proof.
  intros [[Hwf Hsub] Hrows].
  destruct (delete_features_run w reply accepted Hwf)
    as (w' & -> & Hwf' & Ho & Hh & Hr & _).
  exists w'. split; [done|]. repeat split; try apply Hwf'; try apply Hr; auto.
  rewrite Ho, Hh. destruct (_ && _); set_solver.
Qed.

Lemma copy_features_inv w :
  inv w → ∃ w', copy_features w = Ran_ () w' ∧ inv w'.
Proof.
  intros Hinv. pose proof Hinv as [[Hwf _] _].
  destruct (copy_features_shape w Hwf) as [[_ ->]|(_ & v & text & ->)];
    take_inv Hinv; finish.
Qed.

Lemma cut_features_inv reply accepted w :
  inv w → ∃ w', cut_features reply accepted w = Ran_ () w' ∧ inv w'.
Proof.
  intros Hinv. unfold cut_features. unfold_goal.
  destruct (copy_features_inv w Hinv) as (w1 & -> & Hinv1).
  by apply delete_features_inv.
Qed.

Lemma zoom_to_highlighted_inv w :
  inv w → ∃ w', zoom_to_highlighted w = Ran_ () w' ∧ inv w'.
Proof.
  intros Hinv. unfold zoom_to_highlighted, get_target_features.
  unfold_goal. take_inv Hinv.
  case_truthy Hhl; unfold_goal; simp_world; simp_store;
    case_truthy Ht; try discriminate; cbn [negb]; erun; finish.
Qed.

Lemma open_field_calculator_inv w :
  inv w → ∃ w', open_field_calculator w = Ran_ () w' ∧ inv w'.
Proof.
  intros Hinv. unfold open_field_calculator, get_target_features.
  unfold_goal. take_inv Hinv.
  case_truthy Hhl; unfold_goal; simp_world; simp_store;
    case_truthy Ht; try discriminate; cbn [negb andb]; try finish;
    case_truthy Hor; try discriminate; cbn [negb andb]; finish.
Qed.

Lemma flash_fid_inv f a w :
  inv w → ∃ w', (flash_fid f a;; skip) w = Ran_ () w' ∧ inv w'.
Proof.
  intros Hinv. unfold_goal. rewrite flash_fid_raises. take_inv Hinv. finish.
Qed.

Lemma refresh_table_inv w :
  wf w → ∃ w', refresh_table w = Ran_ () w' ∧ inv w'.
Proof.
  intros (Ho & Hh & Hne). unfold refresh_table. unfold_goal.
  case_truthy Hsel; erun; finish.
Qed.

Lemma paste_features_inv added w :
  inv w → ∃ w', paste_features added w = Ran_ () w' ∧ inv w'.
Proof.
  intros Hinv. unfold paste_features. unfold_goal. take_inv Hinv.
  case_bool_decide; [finish|].
  case_editable Hed; destruct added; erun;
    try match goal with
    | |- context [refresh_table ?W] =>
        let w2 := fresh "w" in
        destruct (refresh_table_inv W) as (w2 & -> & ?); [solve_sets|]
    end;
    first [by eexists | finish].
Qed.

Lemma host_selection_changes_inv ids w :
  inv w → ∃ w', host_selection_changes ids w = Ran_ () w' ∧ inv w'.
Proof.
  intros Hinv. unfold host_selection_changes. unfold_goal. take_inv Hinv.
  match goal with
  | |- context [on_layer_selection_changed ?s ?d ?c ?W] =>
      destruct (_updating_selection (self W)) eqn:Hb;
      [ rewrite (on_layer_selection_changed_guarded s d c W Hb)
      | destruct (decide (selectedFeatureIds (layer W) = original W)) as [He|He];
        [ rewrite (on_layer_selection_changed_same s d c W He)
        | destruct (on_layer_selection_changed_shape s d c W Hb He)
            as (g & v & text & -> & Hg) ] ]
  end; finish.
Qed.

Lemma host_deletes_inv ids w :
  inv w → ∃ w', host_deletes ids w = Ran_ () w' ∧ inv w'.
Proof.
  intros Hinv. unfold host_deletes. unfold_goal. take_inv Hinv.
  match goal with
  | |- context [on_features_deleted ?f ?W] =>
      destruct (on_features_deleted_shape f W) as (g & v & -> & Hg)
  end.
  finish.
Qed.

Lemma host_toggles_editing_inv editable w :
  inv w → ∃ w', host_toggles_editing editable w = Ran_ () w' ∧ inv w'.
Proof.
  intros Hinv. unfold host_toggles_editing. unfold_goal. take_inv Hinv.
  match goal with
  | |- context [on_editing_mode_changed ?W] =>
      destruct (on_editing_mode_changed_shape W) as (g & sel & v & -> & Hg)
  end.
  finish.
Qed.

Lemma init_inv l : inv (init l).
Proof.
  unfold init.
  match goal with
  | |- inv (world (?m ?W)) =>
      assert (∃ w', m W = Ran_ () w' ∧ inv w') as (w' & -> & Hinv);
      [|exact Hinv]
  end.
  erun. finish.
Qed.

Lemma run_inv e w : enabled e w → inv w → inv (exec (run e) w).
Proof.
  intros He Hinv.
  assert (∃ w', run e w = Ran_ () w' ∧ inv w') as (w' & -> & Hinv');
    [|exact Hinv'].
  destruct e; cbn [run enabled] in *.
  - by apply table_select_inv.
  - by apply user_sorts_inv.
  - by apply clear_highlights_inv.
  - by apply highlight_all_inv.
  - by apply reselect_to_highlighted_inv.
  - by apply select_by_expression_inv.
  - by apply invert_highlights_inv.
  - by apply delete_features_inv.
  - by apply cut_features_inv.
  - by apply copy_features_inv.
  - by apply paste_features_inv.
  - by apply zoom_to_highlighted_inv.
  - by apply open_field_calculator_inv.
  - by apply flash_fid_inv.
  - apply refresh_table_inv, Hinv.
  - by apply host_selection_changes_inv.
  - by apply host_deletes_inv.
  - by apply host_toggles_editing_inv.
Qed.

Lemma reachable_inv w : reachable w → inv w.
Proof.
  induction 1 as [l|w e _ IH He].
  - apply init_inv.
  - by apply run_inv.
Qed.

Lemma reachable_world_123_2 : reachable world_123_2.
Proof.
  unfold world_123_2.
  change (user_selects_rows {[1%nat]}) with (run (UserSelectsRows {[1%nat]})).
  apply reachable_step; [apply reachable_init|exact I].
Qed.

(** C1: in every reachable state of the widget, the state after
    [__init__] followed by any sequence of user actions and host
    signals, the highlighted features are a subset of the original
    selection (and the two attributes hold distinct set objects). *)
Theorem highlighted_subset_original w :
  reachable w → highlighted w ⊆ original w ∧ wf w.
Proof.
  intros Hr. destruct (reachable_inv w Hr) as [[Hwf Hsub] _]. done.
Qed.

Lemma highlighted_subset_original_witness :
  reachable world_123_2
  ∧ highlighted world_123_2 = {[2]}
  ∧ highlighted world_123_2 ⊆ original world_123_2.
Proof.
  split; [exact reachable_world_123_2|].
  split; [by vm_compute|].
  exact (proj1 (highlighted_subset_original world_123_2 reachable_world_123_2)).
Defined.

Lemma filter_runs_id_2 : filter_runs filter_id_2 world_123_2.
Proof.
  split; [|split].
  - apply (bool_decide_unpack _). by vm_compute.
  - exists "id = 2". split; [reflexivity|discriminate].
  - reflexivity.
Qed.

(** C5 as stated fails on the filter path: with {2} highlighted, a
    filter that matches exactly feature 2 leaves the highlights as they
    are and still repaints the table and refreshes the overlays. *)
Lemma filter_path_has_noop_guard_fails : ¬ filter_path_has_noop_guard.
Proof.
  intros H.
  assert (matched_ids filter_id_2 world_123_2 ∩ original world_123_2
          = highlighted world_123_2) as Hsame by by vm_compute.
  specialize (H filter_id_2 world_123_2 reachable_world_123_2
                filter_runs_id_2 Hsame).
  assert (renders (exec (select_by_expression filter_id_2) world_123_2)
          = S (S (renders world_123_2))) as E by by vm_compute.
  rewrite E in H. lia.
Qed.

Lemma set_highlighted_paths_witness :
  inv world_123_2
  ∧ highlighted (exec (select_by_expression filter_id_2) world_123_2) = {[2]}
  ∧ renders (exec (select_by_expression filter_id_2) world_123_2)
    = (2 + renders world_123_2)%nat.
Proof.
  assert (inv world_123_2) as Hinv
    by exact (reachable_inv _ reachable_world_123_2).
  split; [exact Hinv|].
  destruct (proj2 (set_highlighted_paths filter_id_2 world_123_2 Hinv)
              filter_runs_id_2) as (Hh & _ & Hr).
  split; [|exact Hr].
  rewrite Hh. by vm_compute.
Defined.

(** ** The views and the table, exactly *)

Lemma update_info_label_exact w :
  update_info_label w =
  Ran_ () (with_self (set_info_label (info_for (original w) (highlighted w))) w).
Proof. reflexivity. Qed.

Lemma update_button_states_exact w :
  update_button_states w =
  Ran_ () (with_self (set_buttons
    (buttons_for (original w) (highlighted w) (clipboard_features (self w))
       (isEditable (layer w)))) w).
Proof. reflexivity. Qed.

Lemma update_map_highlighting_exact w :
  update_map_highlighting w =
  Ran_ () (emit CanvasRefresh (with_self (set_rubber_bands
    (cyan_for (original w) (highlighted w) (features (layer w)))
    (yellow_for (highlighted w) (features (layer w)))) w)).
Proof. reflexivity. Qed.

Lemma populate_table_exact w :
  populate_table w =
  Ran_ () (put_grid
    (populated (original w) (features (layer w)) (fields (layer w))
       (isEditable (layer w)) (rows (table_widget (self w)))
       (header_labels (table_widget (self w)))) ∅ w).
Proof.
  unfold populate_table. unfold_body.
  rewrite table_clear_silenced by (left; done).
  change (original (with_self _ (with_self _ (with_self _ (with_self _ w)))))
    with (original w).
  unfold populated.
  destruct (truthy (original w)) eqn:Ht; cbn [negb]; unfold_body;
    simp_world; reflexivity.
Qed.

Lemma populate_table_grid w :
  ∃ rs hs, populate_table w =
    Ran_ () (put_grid
      (populated (original w) (features (layer w)) (fields (layer w))
         (isEditable (layer w)) rs hs) ∅ w).
Proof. eexists _, _. apply populate_table_exact. Qed.

(** What the slot does when it is not silenced, with the views it
    computes. *)
Lemma on_table_selection_changed_exact w :
  wf w →
  _updating_highlights (self w) = false →
  let sel := selected_rows (table_widget (self w)) in
  let new := fids_of_rows sel w in
  on_table_selection_changed w = Ran_ ()
    (if bool_decide (new = highlighted w) then w
     else
       with_self (set_last_clicked_row
           (if bool_decide (sel ≠ ∅) then Some (max_list (elements sel))
            else last_clicked_row (self w)))
         (emit (HighlightChanged new)
           (emit CanvasRefresh
             (with_self (set_rubber_bands
                 (cyan_for (original w) new (features (layer w)))
                 (yellow_for new (features (layer w))))
               (with_self (set_buttons
                   (buttons_for (original w) new (clipboard_features (self w))
                      (isEditable (layer w))))
                 (with_self (set_info_label (info_for (original w) new))
                   (emit ViewportUpdate
                     (with_self (set_highlighted_features (length (heap w)))
                       (with_heap (λ h, h ++ [new]) w))))))))).
Proof.
  intros (Ho & Hh & Hne) Hb sel new. subst sel new.
  unfold on_table_selection_changed, fids_of_rows. unfold_goal. rewrite Hb.
  match goal with
  | |- context [bool_decide (?a = ?b)] => destruct (decide (a = b)) as [Hn|Hn]
  end.
  - rewrite (bool_decide_eq_true_2 _ Hn).
    rewrite bool_decide_eq_false_2 by (intros Hx; apply Hx; exact Hn). done.
  - rewrite (bool_decide_eq_false_2 _ Hn).
    rewrite bool_decide_eq_true_2 by exact Hn.
    rewrite update_info_label_exact. unfold_goal.
    rewrite update_button_states_exact. unfold_goal.
    rewrite update_map_highlighting_exact. unfold_goal.
    unfold original, highlighted. simp_world. simp_store.
    case_bool_decide; reflexivity.
Qed.

(** Symbolic execution with the exact views and grids. *)
Ltac xunfold :=
  cbv beta iota zeta delta
    [bind gets modify skip ret alloc mutate clearSelection user_selects_rows
     negb startEditing commitChanges rollBack deleteFeatures selectByIds
     guarded_selectByIds on_editing_mode_changed on_features_deleted
     on_layer_selection_changed refresh_table get_target_features selectAll
     host_selection_changes host_deletes host_toggles_editing].

Ltac xsimp :=
  xunfold; simp_at; simp_store;
  try match goal with
      | H : isEditable _ = _ |- _ =>
          unfold_projections_at H; rewrite H; simp_at; simp_store
      end.

Ltac xstep :=
  xsimp;
  match goal with
  | |- context [update_info_label ?W] => rewrite (update_info_label_exact W)
  | |- context [update_button_states ?W] =>
      rewrite (update_button_states_exact W)
  | |- context [update_map_highlighting ?W] =>
      rewrite (update_map_highlighting_exact W)
  | |- context [populate_table ?W] =>
      let rs := fresh "rs" in
      let hs := fresh "hs" in
      destruct (populate_table_grid W) as (rs & hs & ->)
  | |- context [select_rows_for ?ids ?W] =>
      let sel := fresh "sel" in
      destruct (select_rows_for_silenced ids W) as [sel ->];
      [solve_silenced|]
  | |- context [table_select ?new ?W] =>
      rewrite (table_select_silenced new W) by solve_silenced
  | |- context [for_ ?l clipboard_append ?W] => rewrite (for_append l W)
  end.

Ltac xrun := repeat xstep; xsimp.

(** ** Refreshing from the layer *)

(** X1: [refresh_table] adopts the layer's selection as the original
    selection only when that selection is non-empty, and keeps the old
    original selection otherwise; the highlighted set object is
    intersected in place with the resulting original selection; the
    rebuilt table has no selected row; nothing is written to the
    layer. *)
Theorem refresh_table_spec w :
  wf w →
  let S := selectedFeatureIds (layer w) in
  let w' := exec refresh_table w in
  original w' = (if truthy S then S else original w)
  ∧ highlighted w' = highlighted w ∩ original w'
  ∧ highlighted_features (self w') = highlighted_features (self w)
  ∧ layer w' = layer w
  ∧ host_calls w' = host_calls w
  ∧ selected_rows (table_widget (self w')) = ∅.
Proof.
  intros (Ho & Hh & Hne) S w'. subst S w'.
  unfold refresh_table. unfold_goal.
  case_truthy Hs; xrun; unfold original, highlighted; simp_world; simp_store;
    repeat split; done.
Qed.

Lemma fids_of_rows_empty w : fids_of_rows ∅ w = ∅.
Proof. unfold fids_of_rows. by rewrite elements_empty. Qed.

(** A change of the row selection, with the slot's answer. *)
Lemma table_select_exact new w :
  table_select new w = Ran_ ()
    (if bool_decide (new = selected_rows (table_widget (self w))) then w
     else if signalsBlocked (table_widget (self w)) then
       with_self (with_table (set_selected_rows new)) w
     else
       exec on_table_selection_changed
         (with_self (with_table (set_selected_rows new)) w)).
Proof.
  unfold table_select. unfold_goal.
  case_bool_decide; [done|]. simp_world.
  destruct (signalsBlocked _); [done|].
  by destruct (on_table_selection_changed _) as [[] ?].
Qed.

(** ** Clearing the highlights *)

(** X2: [clear_highlights] does nothing at all when nothing is
    highlighted.  Otherwise it empties the highlighted set object in
    place, clears the row selection and the shift-click anchor, reports
    the number of highlights cleared and leaves the original selection
    alone; the slot for row selection changes finds the highlights
    already empty, so no [highlightChanged] signal is emitted. *)
Theorem clear_highlights_spec w :
  wf w →
  let w' := exec clear_highlights w in
  (highlighted w = ∅ → w' = w)
  ∧ (highlighted w ≠ ∅ →
     highlighted w' = ∅
     ∧ highlighted_features (self w') = highlighted_features (self w)
     ∧ original w' = original w
     ∧ selected_rows (table_widget (self w')) = ∅
     ∧ last_clicked_row (self w') = None
     ∧ effects w' =
         [MessageBar Info "Selection"
            ("Cleared " +:+ pretty (size (highlighted w)) +:+ " highlights.");
          CanvasRefresh; ViewportUpdate] ++ effects w
     ∧ layer w' = layer w
     ∧ host_calls w' = host_calls w).
Proof.
  intros (Ho & Hh & Hne) w'. subst w'.
  unfold clear_highlights. unfold_goal.
  case_truthy Hhl.
  - split; [intros He; apply truthy_true in Hhl; done|]. intros _.
    rewrite table_select_exact. simp_world.
    match goal with
    | |- context [bool_decide (?a = ?b)] => destruct (bool_decide (a = b)) eqn:Hsel
    end.
    + apply bool_decide_eq_true_1 in Hsel.
      xrun. unfold original, highlighted. simp_world. simp_store.
      repeat split; done.
    + match goal with
      | |- context [if ?c then _ else _] => destruct c eqn:Hblocked
      end.
      * xrun. unfold original, highlighted. simp_world. simp_store.
        repeat split; done.
      * match goal with
        | |- context [on_table_selection_changed ?W] =>
            destruct (_updating_highlights (self W)) eqn:Hb;
            [ rewrite (on_table_selection_changed_busy W Hb)
            | rewrite (on_table_selection_changed_exact W) by
                first [exact Hb | repeat split; simp_world; store_side | done] ]
        end.
        -- xrun. unfold original, highlighted. simp_world. simp_store.
           repeat split; done.
        -- simp_world. rewrite fids_of_rows_empty.
           rewrite bool_decide_eq_true_2
             by (unfold highlighted; simp_world; by simp_store).
           xrun. unfold original, highlighted. simp_world. simp_store.
           repeat split; done.
  - split; [done|]. intros He. apply truthy_false in Hhl. done.
Qed.

(** ** States between two events *)

Lemma populated_idem o fs names e rs hs :
  populated o fs names e (g_rows (populated o fs names e rs hs))
    (g_header_labels (populated o fs names e rs hs))
  = populated o fs names e rs hs.
Proof.
  unfold populated. destruct (truthy o); [done|]. cbn.
  by rewrite !map_map.
Qed.

Lemma populated_signals o fs names e rs hs :
  g_signalsBlocked (populated o fs names e rs hs) = false.
Proof. unfold populated. by destruct (truthy o). Qed.

Lemma populated_perm o fs names e rs rs' hs :
  rs ≡ₚ rs' →
  let g := populated o fs names e rs hs in
  let g' := populated o fs names e rs' hs in
  g_rows g ≡ₚ g_rows g'
  ∧ g_header_labels g = g_header_labels g'
  ∧ g_sortingEnabled g = g_sortingEnabled g'
  ∧ g_row_to_fid g = g_row_to_fid g'
  ∧ g_fid_to_row g = g_fid_to_row g'.
Proof.
  intros Hp. unfold populated. destruct (truthy o); [done|]. cbn.
  repeat split. by apply Permutation_map.
Qed.

Ltac take_steady H :=
  destruct H as [(? & ? & ?) [(? & ? & ? & ?) (? & ? & ? & ? & ?)]].

Ltac steady_goal :=
  unfold steady, flags_clear, views_up_to_date, table_up_to_date,
    original, highlighted in *;
  simp_world; simp_store;
  try match goal with H : isEditable _ = _ |- _ => rewrite H end;
  rewrite ?difference_twice_L;
  rewrite ?populated_idem, ?populated_signals;
  repeat split; try done.

Ltac xfinish := eexists; split; [reflexivity|]; steady_goal.

Lemma user_sorts_steady sorted w :
  sorted ≡ₚ rows (table_widget (self w)) →
  steady w → ∃ w', user_sorts sorted w = Ran_ () w' ∧ steady w'.
Proof.
  intros Hp Hs. eexists. split; [reflexivity|].
  take_steady Hs.
  destruct (populated_perm (original w) (features (layer w))
              (fields (layer w)) (isEditable (layer w)) _ _
              (header_labels (table_widget (self w))) Hp)
    as (P1 & P2 & P3 & P4 & P5).
  steady_goal.
  - etrans; [exact Hp|]. etrans; [eassumption|]. symmetry. exact P1.
  - etrans; [eassumption|]. symmetry. exact P2.
  - etrans; [eassumption|]. symmetry. exact P3.
  - etrans; [eassumption|]. symmetry. exact P4.
  - etrans; [eassumption|]. symmetry. exact P5.
Qed.

Lemma refresh_table_steady w :
  wf w → steady w → ∃ w', refresh_table w = Ran_ () w' ∧ steady w'.
Proof.
  intros (Ho & Hh & Hne) Hs. take_steady Hs.
  unfold refresh_table. unfold_goal.
  case_truthy Hsel; xrun; xfinish.
Qed.

Lemma host_toggles_editing_steady editable w :
  wf w → steady w →
  ∃ w', host_toggles_editing editable w = Ran_ () w' ∧ steady w'.
Proof.
  intros (Ho & Hh & Hne) Hs. take_steady Hs.
  xrun. xfinish.
Qed.

(** A change of the row selection either only records the new selection
    (it is the old one, the slot is silenced, or the rows resolve to the
    current highlights) or rebinds the highlights to the fids of the rows
    and refreshes the views. *)
Lemma table_select_cases new w :
  wf w →
  table_select new w =
    Ran_ () (with_self (with_table (set_selected_rows new)) w)
  ∨ (fids_of_rows new w ≠ highlighted w
     ∧ table_select new w = Ran_ ()
         (with_self (set_last_clicked_row
             (if bool_decide (new ≠ ∅) then Some (max_list (elements new))
              else last_clicked_row (self w)))
           (emit (HighlightChanged (fids_of_rows new w))
             (emit CanvasRefresh
               (with_self (set_rubber_bands
                   (cyan_for (original w) (fids_of_rows new w)
                      (features (layer w)))
                   (yellow_for (fids_of_rows new w) (features (layer w))))
                 (with_self (set_buttons
                     (buttons_for (original w) (fids_of_rows new w)
                        (clipboard_features (self w)) (isEditable (layer w))))
                   (with_self (set_info_label
                       (info_for (original w) (fids_of_rows new w)))
                     (emit ViewportUpdate
                       (with_self (set_highlighted_features (length (heap w)))
                         (with_heap (λ h, h ++ [fids_of_rows new w])
                           (with_self (with_table (set_selected_rows new))
                              w))))))))))).
Proof.
  intros Hwf. rewrite table_select_exact.
  case_bool_decide as Hn; [left; by rewrite Hn|].
  destruct (signalsBlocked _) eqn:Hblocked; [by left|].
  set (w1 := with_self (with_table (set_selected_rows new)) w).
  destruct (_updating_highlights (self w1)) eqn:Hb.
  { left. by rewrite (on_table_selection_changed_busy w1 Hb). }
  rewrite (on_table_selection_changed_exact w1 Hwf Hb). cbn [world].
  case_bool_decide as Hf; [by left|].
  right. split; [exact Hf|]. reflexivity.
Qed.

(** Case analysis on the next change of the row selection. *)
Ltac xselect :=
  xunfold;
  match goal with
  | |- context [table_select ?n ?W] =>
      let Hf := fresh "Hf" in
      let Hwf := fresh "Hwf" in
      assert (wf W) as Hwf by (repeat split; simp_world; first [store_side | done]);
      destruct (table_select_cases n W Hwf) as [->|[Hf ->]];
      clear Hwf
  end;
  simp_at; simp_store.

Lemma table_select_steady new w :
  wf w → steady w → ∃ w', table_select new w = Ran_ () w' ∧ steady w'.
Proof.
  intros (Ho & Hh & Hne) Hs. take_steady Hs.
  xselect; xfinish.
Qed.

Lemma clear_highlights_steady w :
  wf w → steady w → ∃ w', clear_highlights w = Ran_ () w' ∧ steady w'.
Proof.
  intros (Ho & Hh & Hne) Hs. take_steady Hs.
  unfold clear_highlights. unfold_goal.
  case_truthy Hhl; [|xfinish].
  xselect; xrun; xfinish.
Qed.

Lemma highlight_all_steady w :
  wf w → steady w → ∃ w', highlight_all w = Ran_ () w' ∧ steady w'.
Proof.
  intros (Ho & Hh & Hne) Hs. take_steady Hs.
  unfold highlight_all.
  xselect; xrun; xfinish.
Qed.

Lemma reselect_to_highlighted_steady w :
  wf w → steady w →
  ∃ w', reselect_to_highlighted w = Ran_ () w' ∧ steady w'.
Proof.
  intros (Ho & Hh & Hne) Hs. take_steady Hs.
  unfold reselect_to_highlighted. unfold_goal.
  case_truthy Hhl; [|xfinish].
  xrun. xfinish.
Qed.

Lemma invert_highlights_steady w :
  wf w → steady w → ∃ w', invert_highlights w = Ran_ () w' ∧ steady w'.
Proof.
  intros (Ho & Hh & Hne) Hs. take_steady Hs.
  unfold invert_highlights. unfold_goal.
  case_truthy Hor; [|xfinish].
  xrun. xfinish.
Qed.

Lemma select_by_expression_steady a w :
  wf w → steady w →
  ∃ w', select_by_expression a w = Ran_ () w' ∧ steady w'.
Proof.
  intros (Ho & Hh & Hne) Hs. take_steady Hs.
  unfold select_by_expression. unfold_goal.
  case_truthy Hor; [|xfinish].
  unfold_goal.
  destruct (filter_expression a) as [expr_text|]; [|xfinish].
  case_bool_decide; [xfinish|].
  destruct (filter_parser_error a); [xfinish|].
  xrun. xfinish.
Qed.

Lemma zoom_to_highlighted_steady w :
  wf w → steady w → ∃ w', zoom_to_highlighted w = Ran_ () w' ∧ steady w'.
Proof.
  intros (Ho & Hh & Hne) Hs. take_steady Hs.
  unfold zoom_to_highlighted. xunfold.
  case_truthy Hhl; xunfold; simp_world; simp_store;
    case_truthy Ht; try discriminate; cbn [negb]; xrun; xfinish.
Qed.

Lemma open_field_calculator_steady w :
  wf w → steady w →
  ∃ w', open_field_calculator w = Ran_ () w' ∧ steady w'.
Proof.
  intros (Ho & Hh & Hne) Hs. take_steady Hs.
  unfold open_field_calculator. xunfold.
  case_truthy Hhl; xunfold; simp_world; simp_store;
    case_truthy Ht; try discriminate; cbn [negb andb]; try xfinish;
    case_truthy Hor; try discriminate; cbn [negb andb]; xfinish.
Qed.

Lemma flash_fid_steady f a w :
  steady w → ∃ w', (flash_fid f a;; skip) w = Ran_ () w' ∧ steady w'.
Proof.
  intros Hs. unfold_goal. rewrite flash_fid_raises. take_steady Hs. xfinish.
Qed.

Lemma host_selection_changes_steady ids w :
  wf w → steady w →
  ∃ w', host_selection_changes ids w = Ran_ () w' ∧ steady w'.
Proof.
  intros (Ho & Hh & Hne) Hs. take_steady Hs.
  xunfold. simp_world.
  match goal with
  | H : _updating_selection _ = false |- _ => rewrite H
  end.
  case_bool_decide; [|xfinish].
  xrun. xfinish.
Qed.

Lemma host_deletes_steady ids w :
  wf w → steady w → ∃ w', host_deletes ids w = Ran_ () w' ∧ steady w'.
Proof.
  intros (Ho & Hh & Hne) Hs. take_steady Hs.
  xrun. xfinish.
Qed.

Lemma copy_features_steady w :
  wf w → steady w → ∃ w', copy_features w = Ran_ () w' ∧ steady w'.
Proof.
  intros (Ho & Hh & Hne) Hs. take_steady Hs.
  unfold copy_features. xunfold.
  case_truthy Hhl; xunfold; simp_world; simp_store;
    case_truthy Ht; try discriminate; cbn [negb]; xrun; xfinish.
Qed.

Lemma paste_features_steady added w :
  wf w → steady w →
  ∃ w', paste_features added w = Ran_ () w' ∧ steady w'.
Proof.
  intros (Ho & Hh & Hne) Hs. take_steady Hs.
  unfold paste_features. xunfold.
  case_bool_decide; [xfinish|].
  case_editable Hed; destruct added; xrun;
    try (case_truthy Hsel; xrun); xfinish.
Qed.

Lemma delete_features_steady reply accepted w :
  wf w → steady w →
  ∃ w', delete_features reply accepted w = Ran_ () w' ∧ steady w'.
Proof.
  intros (Ho & Hh & Hne) Hs. take_steady Hs.
  unfold delete_features. xunfold.
  case_truthy Hhl; xunfold; simp_world; simp_store.
  - rewrite Hhl. xsimp. destruct reply; xsimp.
    + case_editable Hed; destruct accepted; xrun; xfinish.
    + xfinish.
  - case_truthy Hor; xsimp.
    + destruct reply; xsimp.
      * case_editable Hed; destruct accepted; xrun; xfinish.
      * xfinish.
    + xfinish.
Qed.

Lemma cut_features_steady reply accepted w :
  inv w → steady w →
  ∃ w', cut_features reply accepted w = Ran_ () w' ∧ steady w'.
Proof.
  intros Hinv Hs. unfold cut_features. unfold_goal.
  destruct (copy_features_inv w Hinv) as (w1 & E1 & [[Hwf1 _] _]).
  destruct (copy_features_steady w (proj1 (proj1 Hinv)) Hs) as (w1' & E1' & Hs1).
  rewrite E1 in E1'. injection E1' as <-. rewrite E1.
  by apply delete_features_steady.
Qed.

Lemma init_steady l : steady (init l).
Proof.
  unfold init.
  match goal with
  | |- steady (world (?m ?W)) =>
      assert (∃ w', m W = Ran_ () w' ∧ steady w') as (w' & -> & Hs);
      [|exact Hs]
  end.
  xrun. xfinish.
Qed.

Lemma run_steady e w :
  enabled e w → inv w → steady w → steady (exec (run e) w).
Proof.
  intros He Hinv Hs. pose proof (proj1 (proj1 Hinv)) as Hwf.
  assert (∃ w', run e w = Ran_ () w' ∧ steady w') as (w' & -> & Hs');
    [|exact Hs'].
  destruct e; cbn [run enabled] in *.
  - by apply table_select_steady.
  - by apply user_sorts_steady.
  - by apply clear_highlights_steady.
  - by apply highlight_all_steady.
  - by apply reselect_to_highlighted_steady.
  - by apply select_by_expression_steady.
  - by apply invert_highlights_steady.
  - by apply delete_features_steady.
  - by apply cut_features_steady.
  - by apply copy_features_steady.
  - by apply paste_features_steady.
  - by apply zoom_to_highlighted_steady.
  - by apply open_field_calculator_steady.
  - by apply flash_fid_steady.
  - by apply refresh_table_steady.
  - by apply host_selection_changes_steady.
  - by apply host_deletes_steady.
  - by apply host_toggles_editing_steady.
Qed.

Lemma reachable_steady w : reachable w → steady w.
Proof.
  induction 1 as [l|w e Hr IH He].
  - apply init_steady.
  - apply run_steady; [done|by apply reachable_inv|done].
Qed.

Lemma filter_none {A} (P : A → Prop) `{∀ x, Decision (P x)} (l : list A) :
  (∀ x, ¬ P x) → filter P l = [].
Proof.
  intros Hn. induction l as [|x l IH]; [done|].
  rewrite filter_cons. destruct (decide (P x)); [by destruct (Hn x)|done].
Qed.

Lemma filter_partition {A} (P Q R : A → Prop)
    `{∀ x, Decision (P x)} `{∀ x, Decision (Q x)} `{∀ x, Decision (R x)}
    (l : list A) :
  (∀ x, R x ↔ P x ∨ Q x) → (∀ x, P x → Q x → False) →
  filter P l ++ filter Q l ≡ₚ filter R l.
Proof.
  intros HR Hd. induction l as [|x l IH]; [done|].
  rewrite !filter_cons.
  destruct (decide (P x)) as [Hp|Hp], (decide (Q x)) as [Hq|Hq],
    (decide (R x)) as [Hr|Hr]; try (by destruct (Hd x));
    try (destruct Hr; apply HR; by auto);
    try (apply HR in Hr as [?|?]; done).
  - cbn. by rewrite IH.
  - rewrite <-Permutation_middle. by rewrite IH.
  - done.
Qed.

Lemma features_in_empty fs : features_in (elements (∅ : gset Z)) fs = [].
Proof.
  unfold features_in. apply filter_none. intros x.
  rewrite elements_empty. apply not_elem_of_nil.
Qed.

Lemma cyan_for_eq o h fs :
  cyan_for o h fs = geometries (features_in (elements (o ∖ h)) fs).
Proof.
  unfold cyan_for. destruct (truthy (o ∖ h)) eqn:E; [done|].
  apply truthy_false in E. by rewrite E, features_in_empty.
Qed.

Lemma yellow_for_eq h fs :
  yellow_for h fs = geometries (features_in (elements h) fs).
Proof.
  unfold yellow_for. destruct (truthy h) eqn:E; [done|].
  apply truthy_false in E. by rewrite E, features_in_empty.
Qed.

(** ** The table and the two row/fid look-ups *)

Lemma features_in_spec ids fs f d :
  (f, d) ∈ features_in ids fs ↔ f ∈ ids ∧ fs !! f = Some d.
Proof.
  unfold features_in. rewrite list_elem_of_filter, elem_of_map_to_list. done.
Qed.

Lemma features_in_NoDup ids fs : NoDup (features_in ids fs).*1.
Proof.
  unfold features_in.
  apply (sublist_NoDup _ (map_to_list fs).*1).
  - apply NoDup_fst_map_to_list.
  - apply fmap_sublist, sublist_filter.
Qed.

Lemma features_in_fst ids fs f :
  f ∈ (features_in ids fs).*1 ↔ f ∈ ids ∧ is_Some (fs !! f).
Proof.
  rewrite list_elem_of_fmap. split.
  - intros ([f' d] & -> & Hin). apply features_in_spec in Hin as [? ?].
    split; [done|by eexists].
  - intros [Hin [d Hd]]. exists (f, d). split; [done|].
    by apply features_in_spec.
Qed.

(** The fids the rows of an up-to-date table resolve to, row by row. *)
Lemma table_fids w :
  table_up_to_date w →
  ∃ F : list Z,
    NoDup F
    ∧ (∀ row, get_fid_for_row row (self w) = F !! row)
    ∧ F ≡ₚ (features_in (elements (original w)) (features (layer w))).*1
    ∧ (original w ≠ ∅ →
       length F = length (rows (table_widget (self w)))
       ∧ sortingEnabled (table_widget (self w)) = true)
    ∧ (original w = ∅ →
       F = [] ∧ sortingEnabled (table_widget (self w)) = false
       ∧ fid_to_row (self w) = ∅).
Proof.
  intros (Hrows & _ & Hsort & Hr2f & Hf2r). cbv zeta in *.
  unfold populated in *. unfold get_fid_for_row.
  destruct (truthy (original w)) eqn:Ht; cbn in Hrows, Hsort, Hr2f, Hf2r.
  - apply truthy_true in Ht.
    set (feats := features_in (elements (original w)) (features (layer w))) in *.
    pose proof (features_in_NoDup (elements (original w)) (features (layer w)))
      as Hnd. fold feats in Hnd.
    assert (length (rows (table_widget (self w))) = length feats) as Hlen.
    { rewrite Hrows. by rewrite length_fmap. }
    destruct (fields (layer w)) as [|n ns] eqn:Hnames.
    + (* no columns: every row is empty and the dictionary is used *)
      exists feats.*1. split; [done|]. split; [|split; [done|split; [|done]]].
      * intros row. rewrite Hr2f, lookup_map_seq_0.
        assert (Forall (λ cells, cells = []) (rows (table_widget (self w)))) as Hall.
        { rewrite Hrows. apply Forall_fmap, Forall_true. done. }
        destruct (rows (table_widget (self w)) !! row) as [cells|] eqn:Hrow; [|done].
        rewrite Forall_lookup in Hall. by rewrite (Hall _ _ Hrow).
      * intros _. split; [|done]. by rewrite length_fmap.
    + (* the first item of every row carries the fid *)
      set (hf := λ cells : list Cell, default 0 (cell_fid <$> head cells)).
      exists (hf <$> rows (table_widget (self w))).
      assert (hf <$> rows (table_widget (self w)) ≡ₚ feats.*1) as Hperm.
      { rewrite Hrows, <-list_fmap_compose.
        match goal with
        | |- ?a ≡ₚ ?b => assert (a = b) as ->; [|done]
        end.
        apply list_fmap_ext. by intros i [f d] _. }
      split; [by rewrite Hperm|]. split; [|split; [done|split; [|done]]].
      * intros row. rewrite list_lookup_fmap.
        assert (Forall (λ cells, is_Some (head cells))
                  (rows (table_widget (self w)))) as Hall.
        { rewrite Hrows. apply Forall_fmap, Forall_true. intros f. cbn. by eexists. }
        destruct (rows (table_widget (self w)) !! row) as [cells|] eqn:Hrow; cbn.
        -- rewrite Forall_lookup in Hall. destruct (Hall _ _ Hrow) as [c Hc].
           unfold hf. by rewrite Hc.
        -- rewrite Hr2f, lookup_map_seq_0. apply lookup_ge_None_2.
           apply lookup_ge_None_1 in Hrow. rewrite length_fmap. lia.
      * intros _. split; [|done]. by rewrite length_fmap.
  - apply truthy_false in Ht.
    exists []. split; [constructor|]. split; [|split; [|split; [done|done]]].
    + intros row.
      assert (Forall (λ cells, cells = []) (rows (table_widget (self w)))) as Hall.
      { rewrite Hrows. apply Forall_fmap, Forall_true. done. }
      rewrite Hr2f.
      destruct (rows (table_widget (self w)) !! row) as [cells|] eqn:Hrow; [|done].
      rewrite Forall_lookup in Hall. by rewrite (Hall _ _ Hrow).
    + by rewrite Ht, features_in_empty.
Qed.

(** ** Cell edits keep the views and the table up to date *)

Lemma map_to_list_alter {A} (g : A → A) (k : Z) (m : gmap Z A) :
  map_to_list (alter g k m)
  = (λ kv, if decide (kv.1 = k) then (kv.1, g kv.2) else kv) <$> map_to_list m.
Proof.
  induction m as [|i x m Hi Hfirst IH] using map_first_key_ind; [done|].
  rewrite (map_to_list_insert_first_key m i x) by done.
  rewrite fmap_cons. cbn [fst snd].
  destruct (decide (i = k)) as [->|Hne].
  - rewrite alter_insert_eq.
    rewrite (map_to_list_insert_first_key m k (g x)); [|done|].
    + f_equal. rewrite <-(list_fmap_id (map_to_list m)) at 1.
      apply list_fmap_ext. intros j [k' y] Hk. cbn.
      destruct (decide (k' = k)) as [->|]; [|done].
      apply list_elem_of_lookup_2, elem_of_map_to_list in Hk. congruence.
    + eapply map_first_key_dom'; [|exact Hfirst].
      intros j. destruct (decide (j = k)) as [->|].
      * by rewrite !lookup_insert_eq.
      * by rewrite !lookup_insert_ne.
  - rewrite alter_insert_ne by done.
    rewrite (map_to_list_insert_first_key (alter g k m) i x).
    + by rewrite IH.
    + by rewrite lookup_alter_ne.
    + eapply map_first_key_dom'; [|exact Hfirst].
      intros j. destruct (decide (j = i)) as [->|].
      * by rewrite !lookup_insert_eq.
      * rewrite !lookup_insert_ne by done. by rewrite lookup_alter_is_Some.
Qed.

Lemma table_row w row cells :
  table_up_to_date w →
  rows (table_widget (self w)) !! row = Some cells →
  cells = []
  ∨ ∃ f d, features (layer w) !! f = Some d ∧ f ∈ original w
           ∧ cells = make_row (isEditable (layer w)) (fields (layer w)) (f, d).
Proof.
  intros (Hrows & _) Hrow. cbv zeta in Hrows. unfold populated in Hrows.
  apply list_elem_of_lookup_2 in Hrow. rewrite Hrows in Hrow.
  destruct (truthy (original w)); cbn in Hrow.
  - apply list_elem_of_fmap in Hrow as ([f d] & -> & Hin).
    apply features_in_spec in Hin as [Hin Hd].
    right. exists f, d. by rewrite elem_of_elements in Hin.
  - apply list_elem_of_fmap in Hrow as (x & -> & _). by left.
Qed.


Lemma features_in_alter ids g f fs :
  features_in ids (alter g f fs)
  = (λ kv, if decide (kv.1 = f) then (kv.1, g kv.2) else kv)
      <$> features_in ids fs.
Proof.
  unfold features_in. rewrite map_to_list_alter.
  induction (map_to_list fs) as [|[k d] l IH]; [done|].
  rewrite fmap_cons, !filter_cons, IH. cbn [fst snd].
  destruct (decide (k = f)) as [->|]; cbn [fst];
    by destruct (decide (_ ∈ ids)); rewrite ?fmap_cons; cbn;
    rewrite ?decide_True, ?decide_False by done.
Qed.

Lemma features_in_alter_fst ids g f fs :
  (features_in ids (alter g f fs)).*1 = (features_in ids fs).*1.
Proof.
  rewrite features_in_alter, <-list_fmap_compose.
  apply list_fmap_ext. intros i [k d] _. cbn. by destruct (decide (k = f)).
Qed.

Lemma geometries_alter ids g f fs :
  (∀ d, geometry (g d) = geometry d) →
  geometries (features_in ids (alter g f fs))
  = geometries (features_in ids fs).
Proof.
  intros Hg. rewrite features_in_alter. unfold geometries.
  induction (features_in ids fs) as [|[k d] l IH]; [done|].
  cbn. rewrite IH. destruct (decide (k = f)); cbn; by rewrite ?Hg.
Qed.

Lemma make_row_alter ed names f d col field text :
  NoDup names → names !! col = Some field →
  alter (set_cell_text text) col (make_row ed names (f, d))
  = make_row ed names
      (f, setAttribute (if bool_decide (text = "") then None else Some text)
            field d).
Proof.
  intros Hnd Hcol. apply list_eq. intros i. unfold make_row.
  change (map ?F names) with (F <$> names).
  destruct (decide (i = col)) as [->|Hi].
  - rewrite list_lookup_alter_eq, !list_lookup_fmap, Hcol. cbn.
    unfold set_cell_text. cbn. f_equal. f_equal.
    case_bool_decide as Ht.
    + by rewrite Ht, lookup_delete_eq.
    + by rewrite lookup_insert_eq.
  - rewrite list_lookup_alter_ne by done. rewrite !list_lookup_fmap.
    destruct (names !! i) as [n|] eqn:Hn; [|done]. cbn.
    assert (n ≠ field) as Hne.
    { intros ->. apply Hi. by eapply NoDup_lookup. }
    f_equal. f_equal. case_bool_decide.
    + by rewrite lookup_delete_ne.
    + by rewrite lookup_insert_ne.
Qed.

Lemma rows_edit_perm (mk : Z * FeatureData → list Cell)
    (g : FeatureData → FeatureData) (F : list Cell → list Cell)
    (L : list (list Cell)) feats row f d :
  L ≡ₚ mk <$> feats → NoDup feats.*1 → (f, d) ∈ feats →
  L !! row = Some (mk (f, d)) → F (mk (f, d)) = mk (f, g d) →
  alter F row L ≡ₚ
    mk <$> ((λ kv, if decide (kv.1 = f) then (kv.1, g kv.2) else kv)
              <$> feats).
Proof.
  intros Hp Hnd Hin Hrow HF.
  apply list_elem_of_split in Hin as (F1 & F2 & ->).
  rewrite fmap_app, fmap_cons in Hnd. cbn in Hnd.
  apply NoDup_app in Hnd as (_ & Hn1 & Hn2).
  apply NoDup_cons in Hn2 as (Hn2 & _).
  assert (∀ l : list (Z * FeatureData), f ∉ l.*1 →
    (λ kv, if decide (kv.1 = f) then (kv.1, g kv.2) else kv) <$> l = l)
    as Hid.
  { intros l Hl. rewrite <-(list_fmap_id l) at 2.
    apply list_fmap_ext. intros i [k x] Hk. cbn.
    destruct (decide (k = f)) as [->|]; [|done].
    exfalso. apply Hl. apply list_elem_of_fmap. exists (f, x).
    split; [done|]. by eapply list_elem_of_lookup_2. }
  rewrite !fmap_app, !fmap_cons. cbn [fst snd].
  rewrite decide_True by done.
  rewrite (Hid F1), (Hid F2); [|done|].
  2:{ intros Hf. by apply (Hn1 f); [|left]. }
  rewrite fmap_app, fmap_cons in Hp.
  rewrite <-(take_drop_middle L row _ Hrow) in Hp |- *.
  assert (row = length (take row L) + 0)%nat as Hlen.
  { rewrite length_take_le; [lia|]. apply lookup_lt_Some in Hrow. lia. }
  rewrite Hlen at 1. rewrite alter_app_r. cbn [alter list_alter].
  rewrite HF.
  rewrite <-!Permutation_middle in Hp |- *.
  apply Permutation_cons_inv in Hp. by rewrite Hp.
Qed.

(** Where an edit that reaches the layer leaves the world. *)
Lemma user_edits_cell_exact w row col cells c text :
  signalsBlocked (table_widget (self w)) = false →
  rows (table_widget (self w)) !! row = Some cells →
  cells !! col = Some c →
  (∃ c0, head cells = Some c0 ∧ cell_fid c0 = cell_fid c) →
  cell_editable c = true → isEditable (layer w) = true →
  text ≠ cell_text c →
  cell_field c ≠ "" → cell_field c ∈ fields (layer w) →
  exec (user_edits_cell row col text) w =
    with_layer (set_features
      (alter (setAttribute
                (if bool_decide (text = "") then None else Some text)
                (cell_field c))
         (cell_fid c) (features (layer w))))
      (host_call (ChangeAttributeValue (cell_fid c) (cell_field c) text)
         (with_self (with_table (λ t,
            set_rows (alter (alter (set_cell_text text) col) row (rows t)) t))
            w)).
Proof.
  intros Hblocked Hrow Hcol (c0 & Hc0 & Hf0) Hed He Htext Hfield Hknown.
  destruct w as [[o h cl lc us uh r2f f2r [rs hl sr se sb] il bt cy ye] l hp ef hc].
  cbn in Hrow, Hblocked, He, Hknown. subst sb.
  unfold user_edits_cell. unfold_goal. cbn -[alter]. rewrite Hrow. cbn -[alter].
  rewrite Hcol, Hed. cbn [negb]. rewrite bool_decide_eq_false_2 by done.
  unfold on_cell_changed. unfold_goal. cbn -[alter]. rewrite He. cbn [negb].
  unfold get_fid_for_row. cbn -[alter].
  rewrite !list_lookup_alter_eq, Hrow. cbn -[alter].
  assert (head (alter (set_cell_text text) col cells) ≫= (λ x, Some (cell_fid x))
          = Some (cell_fid c)) as Hh.
  { rewrite head_lookup in *.
    destruct col as [|col].
    - rewrite list_lookup_alter_eq, Hc0. cbn. by rewrite Hf0.
    - rewrite list_lookup_alter_ne by done. rewrite Hc0. cbn. by rewrite Hf0. }
  destruct (head (alter (set_cell_text text) col cells)) as [c1|] eqn:Hc1;
    [|done]. cbn in Hh. injection Hh as Hh. cbn -[alter].
  rewrite !list_lookup_alter_eq, Hrow. cbn -[alter].
  rewrite list_lookup_alter_eq, Hcol. cbn -[alter].
  rewrite bool_decide_eq_false_2 by done.
  rewrite bool_decide_eq_true_2 by done.
  cbn -[alter]. by rewrite Hh.
Qed.

(** An edit that does not get as far as the slot changes nothing. *)
Lemma user_edits_cell_idle w row col text :
  (∀ c, rows (table_widget (self w)) !! row ≫= (.!! col) = Some c →
        cell_editable c = false ∨ text = cell_text c) →
  exec (user_edits_cell row col text) w = w.
Proof.
  intros H. unfold user_edits_cell. unfold_goal.
  destruct (rows (table_widget (self w)) !! row ≫= (.!! col)) as [c|] eqn:E;
    [|done].
  destruct (H c eq_refl) as [-> | ->]; [done|].
  destruct (cell_editable c); [|done]. cbn [negb].
  by rewrite bool_decide_eq_true_2.
Qed.

Lemma user_edits_cell_steady w row col text :
  inv w → steady w → fields_named (layer w) →
  inv (exec (user_edits_cell row col text) w)
  ∧ steady (exec (user_edits_cell row col text) w).
Proof.
  intros Hinv Hs [Hnd Hnamed].
  destruct (rows (table_widget (self w)) !! row ≫= (.!! col)) as [c|] eqn:E.
  2:{ rewrite user_edits_cell_idle; [done|]. intros c. by rewrite E. }
  destruct (cell_editable c) eqn:Hed.
  2:{ rewrite user_edits_cell_idle; [done|]. intros c'. rewrite E.
      intros [= <-]. by left. }
  destruct (decide (text = cell_text c)) as [Htext|Htext].
  { rewrite user_edits_cell_idle; [done|]. intros c'. rewrite E.
    intros [= <-]. by right. }
  destruct (rows (table_widget (self w)) !! row) as [cells|] eqn:Hrow;
    [|done]. cbn in E. rename E into Hcol.
  destruct Hs as ((Hus & Huh & Hblocked) & (Hil & Hbt & Hcy & Hye) & Ht).
  destruct (table_row w row cells Ht Hrow) as [->|(f & d & Hd & Hf & Hcells)];
    [done|].
  assert (fields (layer w) !! col = Some (cell_field c)
          ∧ cell_fid c = f
          ∧ cell_editable c = isEditable (layer w)) as (Hn & Hfid & Hed').
  { rewrite Hcells in Hcol. unfold make_row in Hcol.
    apply list_lookup_fmap_Some in Hcol as (n & -> & Hn). done. }
  assert (∃ c0, head cells = Some c0 ∧ cell_fid c0 = cell_fid c)
    as Hhead.
  { rewrite Hcells. unfold make_row.
    destruct (fields (layer w)) as [|n ns]; [done|]. cbn. eexists.
    split; [done|]. by rewrite Hfid. }
  assert (cell_field c ∈ fields (layer w)) as Hknown
    by by eapply list_elem_of_lookup_2.
  assert (cell_field c ≠ "") as Hfield by (intros Heq; by rewrite Heq in Hknown).
  rewrite Hed in Hed'. symmetry in Hed'.
  rewrite (user_edits_cell_exact w row col cells c text) by done.
  set (v := if bool_decide (text = "") then None else Some text).
  pose proof (make_row_alter (isEditable (layer w)) (fields (layer w)) f d
                col (cell_field c) text Hnd Hn) as Hmk. fold v in Hmk.
  assert ((f, d) ∈ features_in (elements (original w)) (features (layer w)))
    as Hin by (apply features_in_spec; by rewrite elem_of_elements).
  rewrite Hfid.
  clear Hhead Hknown Hfield Hed Htext Hnamed.
  destruct Hinv as (((Ho & Hh & Hne) & Hsub) & (Hr1 & Hr2)).
  destruct w as [[o h cl lc us uh r2f f2r [rs hl sr se sb] il bt cy ye] l hp ef hc].
  unfold inv, sets_ok, wf, rows_in_selection, steady, flags_clear,
    views_up_to_date, table_up_to_date, original, highlighted in *.
  cbn -[alter populated cyan_for yellow_for info_for buttons_for] in *.
  split; [split; [done|split; [|done]]|split; [done|split]].
  - intros row' cells' c' Hrow' Hhd.
    destruct (decide (row' = row)) as [->|Hne'].
    + rewrite list_lookup_alter_eq, Hrow in Hrow'. cbn in Hrow'.
      injection Hrow' as <-.
      destruct (head cells) as [c0|] eqn:Hc0.
      * assert (cell_fid c' = cell_fid c0) as ->; [|by eapply Hr1].
        rewrite head_lookup in *. destruct col as [|col].
        -- rewrite list_lookup_alter_eq, Hc0 in Hhd. cbn in Hhd.
           by injection Hhd as <-.
        -- rewrite list_lookup_alter_ne in Hhd by done. congruence.
      * destruct cells; [|done]. done.
    + rewrite list_lookup_alter_ne in Hrow' by done. by eapply Hr1.
  - split; [done|]. split; [done|]. split.
    + rewrite Hcy. unfold cyan_for. destruct (truthy _); [|done].
      symmetry. by apply geometries_alter.
    + rewrite Hye. unfold yellow_for. destruct (truthy _); [|done].
      symmetry. by apply geometries_alter.
  - destruct Ht as (Hrows & Hhl & Hse & Hr2f & Hf2r).
    unfold populated in *. destruct (truthy (deref hp o)) eqn:Hto;
      cbn -[alter] in *.
    + split; [|split; [done|split; [done|split]]].
      * rewrite features_in_alter.
        apply (rows_edit_perm _ _ _ _ _ _ f d); try done.
        -- apply features_in_NoDup.
        -- by rewrite Hrow, Hcells.
      * by rewrite features_in_alter_fst.
      * by rewrite features_in_alter_fst.
    + exfalso. apply list_elem_of_lookup_2 in Hrow. rewrite Hrows in Hrow.
      apply list_elem_of_fmap in Hrow as (x & -> & _).
      by destruct (fields l).
Qed.

Lemma session_inv_steady w : session w → inv w ∧ steady w.
Proof.
  induction 1 as [l|w e Hs [Hi Hst] He|w row col text Hs [Hi Hst] Hf].
  - split; [apply init_inv|apply init_steady].
  - split; [by apply run_inv|by apply run_steady].
  - by apply user_edits_cell_steady.
Qed.

Lemma reachable_session w : reachable w → session w.
Proof.
  induction 1 as [l|w e Hr IH He]; [apply session_init|by apply session_step].
Qed.

Lemma reachable_world_editing : reachable world_editing.
Proof.
  unfold world_editing. apply reachable_step; [apply reachable_init|exact I].
Qed.


Lemma cleanup_empties_bands w :
  wf w →
  cyan_rubber_band (self (exec closeEvent w)) = []
  ∧ yellow_rubber_band (self (exec closeEvent w)) = []
  ∧ highlighted (exec closeEvent w) = highlighted w.
Proof.
  intros (Ho & Hh & Hne).
  unfold closeEvent, cleanup_rubber_bands. xunfold. simp_world.
  case_truthy Ht; xrun; unfold original, highlighted in *;
    simp_world; simp_store; repeat split; done.
Qed.

(** ** Highlighting everything *)

(** X3: [highlight_all] rebinds the highlights to a new copy of the
    original selection and selects every row of the table.  When the
    row selection changes and the slot is not silenced, the slot then
    replaces the highlights by the fids the rows resolve to; so the
    result is the original selection whenever the table shows all of
    it. *)
Theorem highlight_all_spec w :
  wf w →
  let all := list_to_set (seq 0 (length (rows (table_widget (self w))))) in
  let w' := exec highlight_all w in
  original w' = original w
  ∧ selected_rows (table_widget (self w')) = all
  ∧ (highlighted w' = original w ∨ highlighted w' = fids_of_rows all w)
  ∧ (fids_of_rows all w = original w → highlighted w' = original w)
  ∧ highlighted_features (self w') ≠ original_selection (self w')
  ∧ head (effects w') =
      Some (MessageBar Success "Selection"
              ("Highlighted " +:+ pretty (size (highlighted w')) +:+ " features."))
  ∧ layer w' = layer w
  ∧ host_calls w' = host_calls w.
Proof.
  intros (Ho & Hh & Hne) all w'. subst all w'.
  unfold highlight_all.
  xselect; xrun; unfold original, highlighted, fids_of_rows in *;
    simp_world; simp_store; repeat split; try done; try lia; auto.
Qed.

Lemma highlight_all_spec_witness :
  wf world_123_2
  ∧ highlighted (exec highlight_all world_123_2) = {[1; 2; 3]}.
Proof.
  assert (wf world_123_2) as Hwf by (vm_compute; lia).
  split; [exact Hwf|].
  destruct (highlight_all_spec world_123_2 Hwf) as (_ & _ & _ & Hh & _).
  rewrite Hh; by vm_compute.
Defined.

(** ** Changes of the layer selection from outside *)

(** X4: when the layer's selection is changed from outside while the
    guard flag is clear, the original selection becomes the layer's
    selection, the empty one included, and the highlighted set object
    keeps only its ids that are still selected; a selection equal to the
    original one changes nothing in the widget. *)
Theorem host_selection_changes_spec ids w :
  sets_ok w →
  _updating_selection (self w) = false →
  let w' := exec (host_selection_changes ids) w in
  original w' = ids
  ∧ highlighted w' = highlighted w ∩ ids
  ∧ highlighted_features (self w') = highlighted_features (self w)
  ∧ host_calls w' = host_calls w
  ∧ (ids = original w → w' = with_layer (set_selectedFeatureIds ids) w)
  ∧ (ids ≠ original w →
     selected_rows (table_widget (self w')) = ∅
     ∧ head (effects w') =
         Some (MessageBar Info "Sync"
                 ("Selection updated: " +:+ pretty (size ids) +:+ " features"))).
Proof.
  intros [(Ho & Hh & Hne) Hsub] Hb w'. subst w'.
  xunfold. simp_world. rewrite Hb.
  case_bool_decide as Hd.
  - xrun. unfold original, highlighted in *. simp_world. simp_store.
    repeat split; try done.
  - unfold original, highlighted in *. simp_world.
    repeat split; try done. set_solver.
Qed.

Lemma host_selection_changes_spec_witness :
  sets_ok world_123_2
  ∧ original (exec (host_selection_changes {[2; 3; 4]}) world_123_2) = {[2; 3; 4]}
  ∧ highlighted (exec (host_selection_changes {[2; 3; 4]}) world_123_2) = {[2]}
  ∧ original (exec (host_selection_changes ∅) world_123_2) = ∅
  ∧ highlighted (exec (host_selection_changes ∅) world_123_2) = ∅.
Proof.
  assert (sets_ok world_123_2) as Hok
    by (split; [vm_compute; lia|apply (bool_decide_unpack _); by vm_compute]).
  assert (_updating_selection (self world_123_2) = false) as Hb by reflexivity.
  split; [exact Hok|].
  destruct (host_selection_changes_spec {[2; 3; 4]} world_123_2 Hok Hb)
    as (Ho1 & Hh1 & _).
  destruct (host_selection_changes_spec ∅ world_123_2 Hok Hb)
    as (Ho2 & Hh2 & _).
  rewrite Ho1, Hh1, Ho2, Hh2. repeat split; by vm_compute.
Defined.

(** ** The filter dialog left without a filter *)

(** X5: [select_by_expression] changes nothing but the log of what the
    user was shown unless a filter is evaluated: with an empty original
    selection it only pushes the info message and opens no dialog; when
    the dialog is rejected or returns an empty expression nothing
    follows; when the expression does not parse only the parser's error
    is pushed. *)
Theorem select_by_expression_quiet a w :
  let w' := exec (select_by_expression a) w in
  (original w = ∅ →
     w' = emit (MessageBar Info "Filter" "No features selected to filter.") w)
  ∧ (original w ≠ ∅ →
     filter_expression a = None ∨ filter_expression a = Some "" →
     w' = emit (FilterDialogOpened (original w)) w)
  ∧ (original w ≠ ∅ →
     ∀ text err, filter_expression a = Some text → text ≠ "" →
       filter_parser_error a = Some err →
       w' = emit (MessageBar Critical "Filter" ("Expression error: " +:+ err))
              (emit (FilterDialogOpened (original w)) w)).
Proof.
  intros w'. subst w'. unfold select_by_expression. unfold_goal.
  split; [|split].
  - intros Ho. rewrite Ho. done.
  - intros Ho%truthy_true He. rewrite Ho. unfold_goal.
    by destruct He as [-> | ->].
  - intros Ho%truthy_true text err -> Ht ->. rewrite Ho. unfold_goal.
    by rewrite bool_decide_eq_false_2.
Qed.

Lemma select_by_expression_quiet_witness :
  original world_123_2 ≠ ∅
  ∧ highlighted
      (exec (select_by_expression
               {| filter_expression := Some "id >";
                  filter_parser_error := Some "syntax error";
                  filter_evaluate := λ _, true |}) world_123_2) = {[2]}.
Proof.
  assert (original world_123_2 ≠ ∅) as Hne
    by (apply (bool_decide_unpack _); by vm_compute).
  split; [exact Hne|].
  pose proof (proj2 (proj2 (select_by_expression_quiet
      {| filter_expression := Some "id >";
         filter_parser_error := Some "syntax error";
         filter_evaluate := λ _, true |} world_123_2)) Hne
      "id >" "syntax error" eq_refl ltac:(discriminate) eq_refl) as H.
  cbv zeta in H. rewrite H. by vm_compute.
Defined.

(** ** Witnesses for refreshing and clearing *)

Lemma refresh_table_spec_witness :
  wf (exec zoom_to_highlighted world_123_2)
  ∧ original (exec refresh_table (exec zoom_to_highlighted world_123_2)) = {[2]}.
Proof.
  assert (wf (exec zoom_to_highlighted world_123_2)) as Hwf
    by (vm_compute; lia).
  split; [exact Hwf|].
  destruct (refresh_table_spec _ Hwf) as (Ho & _).
  rewrite Ho. by vm_compute.
Defined.

Lemma clear_highlights_spec_witness :
  wf world_123_2
  ∧ highlighted (exec clear_highlights world_123_2) = ∅
  ∧ original (exec clear_highlights world_123_2) = {[1; 2; 3]}.
Proof.
  assert (wf world_123_2) as Hwf by (vm_compute; lia).
  assert (highlighted world_123_2 ≠ ∅) as Hne
    by (apply (bool_decide_unpack _); by vm_compute).
  destruct (proj2 (clear_highlights_spec world_123_2 Hwf) Hne)
    as (Hh & _ & Ho & _).
  split; [exact Hwf|]. rewrite Hh, Ho. split; [done|by vm_compute].
Defined.

(** ** Zooming to the target *)

(** X6: [zoom_to_highlighted] makes the target the layer's selection and
    zooms to it; the write is bracketed by the guard flag, so both sets
    keep their contents and the original selection no longer is the
    layer's selection when a proper subset is highlighted.  With an empty
    target nothing is asked of the host. *)
Theorem zoom_to_highlighted_spec w :
  wf w →
  let T := target_set w in
  let w' := exec zoom_to_highlighted w in
  original w' = original w
  ∧ highlighted w' = highlighted w
  ∧ (T ≠ ∅ →
     selectedFeatureIds (layer w') = T
     ∧ host_calls w' = SelectByIds (elements T) :: host_calls w
     ∧ effects w' = ZoomToSelected :: effects w
     ∧ _updating_selection (self w') = false)
  ∧ (T = ∅ →
     layer w' = layer w ∧ host_calls w' = host_calls w
     ∧ effects w' = effects w).
Proof.
  intros Hwf T w'. subst T w'. rewrite (target_set_eq w Hwf).
  destruct Hwf as (Ho & Hh & Hne).
  unfold zoom_to_highlighted. xunfold.
  case_truthy Hhl; xunfold; simp_world; simp_store;
    case_truthy Ht; try discriminate; cbn [negb]; xrun;
    unfold original, highlighted in *; simp_world; simp_store;
    rewrite ?list_to_set_elements_L;
    repeat split; try done.
  all: rewrite ?truthy_true, ?truthy_false in *; done.
Qed.

Lemma zoom_to_highlighted_spec_witness :
  wf world_123_2
  ∧ selectedFeatureIds (layer (exec zoom_to_highlighted world_123_2)) = {[2]}
  ∧ original (exec zoom_to_highlighted world_123_2) = {[1; 2; 3]}.
Proof.
  assert (wf world_123_2) as Hwf by (vm_compute; lia).
  assert (target_set world_123_2 ≠ ∅) as Hne
    by (apply (bool_decide_unpack _); by vm_compute).
  destruct (zoom_to_highlighted_spec world_123_2 Hwf) as (Ho & _ & Hz & _).
  destruct (Hz Hne) as (Hs & _).
  split; [exact Hwf|]. rewrite Hs, Ho. split; by vm_compute.
Defined.

(** ** Pasting the clipboard *)

Lemma paste_features_run added w :
  wf w →
  clipboard_features (self w) ≠ [] →
  let clip := clipboard_features (self w) in
  let sel := selectedFeatureIds (layer w) in
  ∃ w', paste_features added w = Ran_ () w'
  ∧ isEditable (layer w') = isEditable (layer w)
  ∧ clipboard_features (self w') = clip
  ∧ host_calls w' =
      (if isEditable (layer w) then [AddFeatures clip]
       else [match added with
             | Some _ => CommitChanges
             | None => RollBack
             end; AddFeatures clip; StartEditing]) ++ host_calls w
  ∧ match added with
    | None =>
        original w' = original w ∧ highlighted w' = highlighted w
        ∧ head (effects w') =
            Some (MessageBox Warning "Error" "Failed to paste features.")
    | Some new =>
        features (layer w') = list_to_map new ∪ features (layer w)
        ∧ original w' = (if truthy sel then sel else original w)
        ∧ highlighted w' = highlighted w ∩ original w'
    end.
Proof.
  intros (Ho & Hh & Hne) Hc clip sel. subst clip sel.
  unfold paste_features. xunfold.
  rewrite bool_decide_eq_false_2 by done.
  case_editable Hed; destruct added; xrun;
    try (case_truthy Hsel; xrun);
    (eexists; split; [reflexivity|]);
    unfold original, highlighted in *; simp_world; simp_store;
    repeat split; done.
Qed.

(** X7: [paste_features] does nothing with an empty clipboard.  Otherwise
    it hands the clipboard to the data provider inside an editing session
    of its own unless the layer is already being edited, and leaves the
    clipboard and the layer's edit mode as they were.  On failure both
    sets keep their contents and the warning box is shown; on success
    the table is refreshed from the layer: the original selection
    becomes the layer's selection if that is non-empty, so the pasted
    features are listed only if the host has selected them. *)
Theorem paste_features_spec added w :
  wf w →
  let clip := clipboard_features (self w) in
  let sel := selectedFeatureIds (layer w) in
  let w' := exec (paste_features added) w in
  (clip = [] → w' = w)
  ∧ (clip ≠ [] →
     isEditable (layer w') = isEditable (layer w)
     ∧ clipboard_features (self w') = clip
     ∧ host_calls w' =
         (if isEditable (layer w) then [AddFeatures clip]
          else [match added with
                | Some _ => CommitChanges
                | None => RollBack
                end; AddFeatures clip; StartEditing]) ++ host_calls w
     ∧ match added with
       | None =>
           original w' = original w ∧ highlighted w' = highlighted w
           ∧ head (effects w') =
               Some (MessageBox Warning "Error" "Failed to paste features.")
       | Some new =>
           features (layer w') = list_to_map new ∪ features (layer w)
           ∧ original w' = (if truthy sel then sel else original w)
           ∧ highlighted w' = highlighted w ∩ original w'
       end).
Proof.
  intros Hwf clip sel w'. subst clip sel w'. split.
  - intros Hc. unfold paste_features. unfold_goal.
    by rewrite bool_decide_eq_true_2.
  - intros Hc.
    by destruct (paste_features_run added w Hwf Hc) as (w' & -> & H).
Qed.

Lemma paste_features_spec_witness :
  wf (exec copy_features world_123_2)
  ∧ host_calls (exec (paste_features None) (exec copy_features world_123_2))
    = [RollBack;
       AddFeatures (getFeatures [2] (example_layer {[1; 2; 3]} false));
       StartEditing].
Proof.
  assert (wf (exec copy_features world_123_2)) as Hwf by (vm_compute; lia).
  split; [exact Hwf|].
  destruct (paste_features_spec None _ Hwf) as [_ Hp].
  destruct Hp as (_ & _ & Hc & _); [by vm_compute|].
  rewrite Hc. by vm_compute.
Defined.

(** ** Deleting and cutting, beyond the sets *)

Lemma delete_features_frame w reply accepted :
  wf w →
  let T := target_set w in
  let deleted := truthy T && reply && accepted in
  ∃ w', delete_features reply accepted w = Ran_ () w'
  ∧ clipboard_features (self w') = clipboard_features (self w)
  ∧ isEditable (layer w') = isEditable (layer w)
  ∧ original w' = (if deleted then original w ∖ T else original w)
  ∧ highlighted w' = (if deleted then highlighted w ∖ T else highlighted w)
  ∧ (deleted = true →
     features (layer w') = filter (λ kv, kv.1 ∉ elements T) (features (layer w))
     ∧ selectedFeatureIds (layer w') = original w ∖ T)
  ∧ (deleted = false →
     features (layer w') =
       (if truthy T && reply && negb (isEditable (layer w))
        then committed (layer w) else features (layer w))).
Proof.
  intros Hwf T deleted. subst T deleted. rewrite (target_set_eq w Hwf).
  destruct Hwf as (Ho & Hh & Hne).
  unfold delete_features. xunfold.
  case_truthy Hhl; xunfold; simp_world; simp_store.
  - rewrite Hhl. xsimp. destruct reply; xsimp.
    + case_editable Hed; destruct accepted; xrun;
        (eexists; split; [reflexivity|]); cbn [andb];
        unfold original, highlighted in *; simp_world; simp_store;
        rewrite ?difference_twice_L, ?list_to_set_elements_L;
        repeat split; done.
    + eexists; split; [reflexivity|]. cbn [andb].
      unfold original, highlighted in *; simp_world; simp_store;
      repeat split; done.
  - case_truthy Hor; xsimp.
    + destruct reply; xsimp.
      * case_editable Hed; destruct accepted; xrun;
          (eexists; split; [reflexivity|]); cbn [andb];
          unfold original, highlighted in *; simp_world; simp_store;
          rewrite ?difference_twice_L, ?list_to_set_elements_L;
          repeat split; done.
      * eexists; split; [reflexivity|]. cbn [andb].
      unfold original, highlighted in *; simp_world; simp_store;
      repeat split; done.
    + eexists; split; [reflexivity|]. cbn [andb].
      unfold original, highlighted in *; simp_world; simp_store;
      repeat split; done.
Qed.

(** What [copy_features] leaves alone, and the clipboard it fills. *)
Lemma copy_features_frame w :
  wf w →
  ∃ w', copy_features w = Ran_ () w'
  ∧ wf w' ∧ layer w' = layer w
  ∧ original w' = original w ∧ highlighted w' = highlighted w
  ∧ (target_set w ≠ ∅ →
     clipboard_features (self w') = getFeatures (elements (target_set w)) (layer w)).
Proof.
  intros Hwf.
  destruct (copy_features_shape w Hwf) as [[Ht ->]|(Ht & v & text & ->)];
    destruct Hwf as (Ho & Hh & Hn); (eexists; split; [reflexivity|]);
    unfold wf, original, highlighted in *; simp_world; simp_store;
    repeat split; first [store_side | done].
Qed.

(** X8: [cut_features] is a copy followed by a delete of the same target:
    the clipboard holds the snapshot of the target's features taken
    before the deletion, also when the user declines the deletion or the
    host refuses it; only a deletion that went through removes the
    target from both sets and from the layer.  When the user declines,
    the layer's features are untouched.  When the host refuses, nothing
    is rolled back on a layer that was being edited, and a layer the
    widget had put into edit mode itself is rolled back to its committed
    features: the features it had, as long as a layer outside edit mode
    carries no uncommitted change. *)
Theorem cut_features_spec reply accepted w :
  wf w →
  target_set w ≠ ∅ →
  let T := target_set w in
  let w' := exec (cut_features reply accepted) w in
  clipboard_features (self w') = getFeatures (elements T) (layer w)
  ∧ (reply = true → accepted = true →
     original w' = original w ∖ T ∧ highlighted w' = highlighted w ∖ T
     ∧ features (layer w') =
         filter (λ kv, kv.1 ∉ elements T) (features (layer w))
     ∧ ∀ f, f ∈ T → features (layer w') !! f = None)
  ∧ (reply = false ∨ accepted = false →
     original w' = original w ∧ highlighted w' = highlighted w
     ∧ features (layer w') =
         (if reply && negb (isEditable (layer w))
          then committed (layer w) else features (layer w))
     ∧ ((isEditable (layer w) = false →
         features (layer w) = committed (layer w)) →
        features (layer w') = features (layer w))).
Proof.
  intros Hwf Hne T w'. subst T w'.
  unfold cut_features. unfold_goal.
  destruct (copy_features_frame w Hwf) as (w1 & -> & Hwf1 & Hl & Ho1 & Hh1 & Hc).
  specialize (Hc Hne).
  assert (target_set w1 = target_set w) as Ht.
  { rewrite (target_set_eq w1 Hwf1), (target_set_eq w Hwf). by rewrite Ho1, Hh1. }
  destruct (delete_features_frame w1 reply accepted Hwf1)
    as (w' & -> & Hc' & He' & Ho' & Hh' & Hf' & Hk'). cbn [world].
  rewrite Ht in *. apply truthy_true in Hne. rewrite Hne in *.
  cbn [andb] in *. rewrite Hl in *.
  split; [by rewrite Hc'|]. split.
  - intros -> ->. rewrite Ho', Hh', Ho1, Hh1. split; [done|]. split; [done|].
    destruct Hf' as [Hf' _]; [done|]. split; [done|].
    intros f Hf. rewrite Hf'.
    apply map_lookup_filter_None. right. intros d _ Hn. apply Hn. cbn.
    by apply elem_of_elements.
  - intros Hno.
    assert (reply && accepted = false) as Hd
      by (destruct Hno as [-> | ->]; [done|by rewrite andb_false_r]).
    rewrite Hd in *. specialize (Hk' eq_refl).
    rewrite Ho', Hh', Ho1, Hh1. split; [done|]. split; [done|].
    split; [done|]. intros Hclean. rewrite Hk'.
    destruct reply; [|done]. cbn [andb].
    destruct (isEditable (layer w)) eqn:Hed; [done|]. cbn [negb].
    symmetry. by apply Hclean.
Qed.

Lemma cut_features_spec_witness :
  wf world_123_2
  ∧ target_set world_123_2 ≠ ∅
  ∧ (clipboard_features (self (exec (cut_features true false) world_123_2))).*1
    = [2]
  ∧ highlighted (exec (cut_features true false) world_123_2) = {[2]}
  ∧ features (layer (exec (cut_features true false) world_123_2))
    = example_features.
Proof.
  assert (wf world_123_2) as Hwf by (vm_compute; lia).
  assert (target_set world_123_2 ≠ ∅) as Hne
    by (apply (bool_decide_unpack _); by vm_compute).
  destruct (cut_features_spec true false world_123_2 Hwf Hne)
    as (Hc & _ & Hd).
  destruct (Hd (or_intror eq_refl)) as (_ & Hh & _ & Hf).
  split; [exact Hwf|]. split; [exact Hne|].
  rewrite Hc, Hh, Hf; [|done]. repeat split; by vm_compute.
Defined.

(** ** A refused commit *)

Lemma delete_features_uncommitted w reply accepted :
  wf w →
  let T := target_set w in
  let deleted := truthy T && reply && accepted in
  ∃ w', delete_features_answered reply accepted false w = Ran_ () w'
  ∧ wf w'
  ∧ isEditable (layer w') = isEditable (layer w) || deleted
  ∧ original w' = (if deleted then original w ∖ T else original w)
  ∧ highlighted w' = (if deleted then highlighted w ∖ T else highlighted w)
  ∧ (deleted = true → isEditable (layer w) = false →
     committed (layer w') = committed (layer w)
     ∧ host_calls w' =
         [SelectByIds (elements (original w ∖ T)); CommitChanges;
          DeleteFeatures (elements T); StartEditing] ++ host_calls w).
Proof.
  intros Hwf T deleted. subst T deleted. rewrite (target_set_eq w Hwf).
  pose proof Hwf as (Ho & Hh & Hne).
  unfold delete_features_answered, commitChanges_answered. xunfold.
  case_truthy Hhl; xunfold; simp_world; simp_store.
  - rewrite Hhl. xsimp. destruct reply; xsimp.
    + case_editable Hed; destruct accepted; xrun;
        (eexists; split; [reflexivity|]); cbn [andb orb];
        unfold wf, original, highlighted in *; simp_world; simp_store;
        rewrite ?difference_twice_L, ?list_to_set_elements_L;
        repeat split; first [store_side | done].
    + eexists; split; [reflexivity|]. cbn [andb orb].
      unfold wf, original, highlighted in *; simp_world; simp_store;
      rewrite ?orb_false_r; repeat split; first [store_side | done].
  - case_truthy Hor; xsimp.
    + destruct reply; xsimp.
      * case_editable Hed; destruct accepted; xrun;
          (eexists; split; [reflexivity|]); cbn [andb orb];
          unfold wf, original, highlighted in *; simp_world; simp_store;
          rewrite ?difference_twice_L, ?list_to_set_elements_L;
          repeat split; first [store_side | done].
      * eexists; split; [reflexivity|]. cbn [andb orb].
        unfold wf, original, highlighted in *; simp_world; simp_store;
        rewrite ?orb_false_r; repeat split; first [store_side | done].
    + eexists; split; [reflexivity|]. cbn [andb orb].
      unfold wf, original, highlighted in *; simp_world; simp_store;
      rewrite ?orb_false_r; repeat split; first [store_side | done].
Qed.

Lemma paste_features_uncommitted added w :
  wf w →
  clipboard_features (self w) ≠ [] →
  ∃ w', paste_features_answered added false w = Ran_ () w'
  ∧ isEditable (layer w') =
      isEditable (layer w)
      || match added with Some _ => true | None => false end
  ∧ clipboard_features (self w') = clipboard_features (self w).
Proof.
  intros (Ho & Hh & Hne) Hc.
  unfold paste_features_answered, commitChanges_answered. xunfold.
  rewrite bool_decide_eq_false_2 by done.
  case_editable Hed; destruct added; xrun;
    try (case_truthy Hsel; xrun);
    (eexists; split; [reflexivity|]);
    unfold original, highlighted in *; simp_world; simp_store;
    repeat split; done.
Qed.

(** X9: the actions that open an editing session of their own close it
    again, with one exception.  [delete_features], [cut_features] and
    [paste_features] leave the layer in the edit mode they found it in
    whatever the user answers and whether the host accepts or refuses
    the deletion or the addition, as long as [commitChanges] goes
    through.  The code discards the result of [commitChanges]: when the
    host refuses the commit of a session the widget opened itself, the
    layer is left in edit mode although it was not being edited before. *)
Theorem edit_mode_restored w :
  wf w →
  let T := target_set w in
  let clip := clipboard_features (self w) in
  (∀ reply accepted committed_ok,
     isEditable (layer (exec
       (delete_features_answered reply accepted committed_ok) w))
     = isEditable (layer w)
       || (truthy T && reply && accepted && negb committed_ok))
  ∧ (∀ reply accepted committed_ok,
     isEditable (layer (exec
       (cut_features_answered reply accepted committed_ok) w))
     = isEditable (layer w)
       || (truthy T && reply && accepted && negb committed_ok))
  ∧ (∀ added committed_ok,
     isEditable (layer (exec (paste_features_answered added committed_ok) w))
     = isEditable (layer w)
       || (negb (bool_decide (clip = []))
           && match added with Some _ => true | None => false end
           && negb committed_ok))
  ∧ (∀ reply accepted,
     delete_features_answered reply accepted true
     = delete_features reply accepted)
  ∧ (∀ reply accepted,
     cut_features_answered reply accepted true = cut_features reply accepted)
  ∧ (∀ added, paste_features_answered added true = paste_features added).
Proof.
  intros Hwf T clip. subst T clip.
  assert (∀ w reply accepted committed_ok, wf w →
     isEditable (layer (exec
       (delete_features_answered reply accepted committed_ok) w))
     = isEditable (layer w)
       || (truthy (target_set w) && reply && accepted && negb committed_ok))
    as Hdel.
  { intros w0 reply accepted [|] Hwf0.
    - change (delete_features_answered reply accepted true)
        with (delete_features reply accepted).
      destruct (delete_features_frame w0 reply accepted Hwf0)
        as (w' & -> & _ & He & _). cbn [world negb].
      by rewrite He, andb_false_r, orb_false_r.
    - destruct (delete_features_uncommitted w0 reply accepted Hwf0)
        as (w' & -> & _ & He & _). cbn [world negb].
      by rewrite He, andb_true_r. }
  split; [|split; [|split; [|done]]].
  - intros reply accepted committed_ok. by apply Hdel.
  - intros reply accepted committed_ok.
    unfold cut_features_answered. unfold_goal.
    destruct (copy_features_frame w Hwf)
      as (w1 & -> & Hwf1 & Hl & Ho1 & Hh1 & _). cbn [world].
    rewrite (Hdel w1) by done.
    rewrite (target_set_eq w1 Hwf1), (target_set_eq w Hwf).
    by rewrite Hl, Ho1, Hh1.
  - intros added committed_ok.
    destruct (decide (clipboard_features (self w) = [])) as [Hc|Hc].
    + rewrite bool_decide_eq_true_2 by done. cbn [negb andb].
      rewrite orb_false_r.
      unfold paste_features_answered. unfold_goal.
      by rewrite bool_decide_eq_true_2.
    + rewrite bool_decide_eq_false_2 by done. cbn [negb andb].
      destruct committed_ok.
      * change (paste_features_answered added true)
          with (paste_features added).
        destruct (paste_features_run added w Hwf Hc) as (w' & -> & He & _).
        cbn [world negb]. by rewrite He, andb_false_r, orb_false_r.
      * destruct (paste_features_uncommitted added w Hwf Hc)
          as (w' & -> & He & _).
        cbn [world negb]. by rewrite He, andb_true_r.
Qed.

Lemma edit_mode_restored_witness :
  wf world_123_2
  ∧ isEditable (layer (exec (delete_features true true) world_123_2)) = false
  ∧ isEditable (layer (exec
      (delete_features_answered true true false) world_123_2)) = true
  ∧ host_calls (exec (delete_features_answered true true false) world_123_2)
    = [SelectByIds [3; 1]; CommitChanges; DeleteFeatures [2]; StartEditing].
Proof.
  assert (wf world_123_2) as Hwf by (vm_compute; lia).
  split; [exact Hwf|].
  destruct (edit_mode_restored world_123_2 Hwf) as (Hd & _ & _ & He & _).
  split; [|split].
  - rewrite <-He, Hd. by vm_compute.
  - rewrite Hd. by vm_compute.
  - by vm_compute.
Defined.

(** ** What holds between two events *)

(** X10: the guard flags are never left set: in every reachable state
    [_updating_selection] and [_updating_highlights] are false and the
    table's signals are not blocked, so the next change of the layer
    selection or of the row selection is acted upon. *)
Theorem guards_released w :
  reachable w →
  _updating_selection (self w) = false
  ∧ _updating_highlights (self w) = false
  ∧ signalsBlocked (table_widget (self w)) = false
  ∧ ¬ silenced w.
Proof.
  intros Hr. destruct (reachable_steady w Hr) as [(H1 & H2 & H3) _].
  repeat split; try done. intros [H|H]; congruence.
Qed.

Lemma guards_released_witness :
  reachable world_123_2 ∧ _updating_selection (self world_123_2) = false.
Proof.
  split; [exact reachable_world_123_2|].
  exact (proj1 (guards_released world_123_2 reachable_world_123_2)).
Defined.

Lemma size_pos_truthy (s : gset Z) : bool_decide (0 < size s)%nat = truthy s.
Proof.
  unfold truthy. apply bool_decide_ext.
  rewrite <-(leibniz_equiv_iff s ∅), <-size_non_empty_iff. lia.
Qed.

(** X11: in every reachable state the info label shows the current sizes
    of the two sets: the cyan count is the size of the original
    selection and the yellow count that of the highlighted set, replaced
    by the hint when nothing is highlighted. *)
Theorem info_label_in_sync w :
  reachable w →
  cyan_count (info_label (self w)) = size (original w)
  ∧ yellow_count (info_label (self w)) =
      (if truthy (highlighted w) then Some (size (highlighted w)) else None).
Proof.
  intros Hr. destruct (reachable_steady w Hr) as (_ & (Hi & _) & _).
  rewrite Hi. unfold info_for. cbn. by rewrite size_pos_truthy.
Qed.

Lemma info_label_in_sync_witness :
  reachable world_123_2
  ∧ cyan_count (info_label (self world_123_2)) = 3%nat
  ∧ yellow_count (info_label (self world_123_2)) = Some 1%nat.
Proof.
  split; [exact reachable_world_123_2|].
  destruct (info_label_in_sync world_123_2 reachable_world_123_2) as [Hc Hy].
  rewrite Hc, Hy. split; by vm_compute.
Defined.

(** X12: in every reachable state the enabled flags of the toolbar actions
    agree with the state: clearing and narrowing need highlights;
    highlighting all, filtering and inverting need a selection; copy,
    zoom and the field calculator need a non-empty target; delete and cut
    need a non-empty target and a layer in edit mode; paste needs a
    non-empty clipboard and a layer in edit mode. *)
Theorem buttons_in_sync w :
  reachable w →
  let b := buttons (self w) in
  let has_target := truthy (target_set w) in
  clear_highlights_enabled b = truthy (highlighted w)
  ∧ reselect_enabled b = truthy (highlighted w)
  ∧ highlight_all_enabled b = truthy (original w)
  ∧ select_expr_enabled b = truthy (original w)
  ∧ invert_enabled b = truthy (original w)
  ∧ copy_enabled b = has_target
  ∧ zoom_enabled b = has_target
  ∧ field_calc_enabled b = has_target
  ∧ delete_enabled b = has_target && isEditable (layer w)
  ∧ cut_enabled b = has_target && isEditable (layer w)
  ∧ paste_enabled b =
      bool_decide (clipboard_features (self w) ≠ []) && isEditable (layer w).
Proof.
  intros Hr b has_target. subst b has_target.
  destruct (reachable_steady w Hr) as (_ & (_ & Hb & _) & _).
  destruct (reachable_inv w Hr) as [[Hwf _] _].
  rewrite Hb, (target_set_eq w Hwf). unfold buttons_for. cbn.
  rewrite !size_pos_truthy.
  assert (bool_decide (0 < length (clipboard_features (self w)))%nat
          = bool_decide (clipboard_features (self w) ≠ [])) as ->.
  { apply bool_decide_ext. destruct (clipboard_features (self w)); cbn; [|split; [done|lia]].
    split; [lia|done]. }
  assert (truthy (highlighted w) || truthy (original w)
          = truthy (if truthy (highlighted w) then highlighted w else original w))
    as ->.
  { destruct (truthy (highlighted w)) eqn:E; cbn; [by rewrite E|done]. }
  repeat split; done.
Qed.

Lemma buttons_in_sync_witness :
  reachable world_123_2
  ∧ delete_enabled (buttons (self world_123_2)) = false
  ∧ copy_enabled (buttons (self world_123_2)) = true.
Proof.
  split; [exact reachable_world_123_2|].
  destruct (buttons_in_sync world_123_2 reachable_world_123_2)
    as (_ & _ & _ & _ & _ & Hc & _ & _ & Hd & _).
  rewrite Hc, Hd. split; by vm_compute.
Defined.

(** X13: while the window is open the two map overlays show the current
    sets.  From the construction on, through the toolbar actions, the row
    selections and sortings, the host's notifications and the user's
    edits of cells (on a layer whose field names are non-empty and
    distinct), the yellow band holds the geometries of the highlighted
    features and the cyan band those of the rest of the original
    selection; together they hold the geometry of every feature of the
    original selection exactly once.  This is a property of the open
    window, with the layer's features changed only by the widget or
    under a notification it is connected to: closing the window empties
    both bands, whatever is highlighted. *)
Theorem rubber_bands_in_sync w :
  session w →
  cyan_rubber_band (self w) =
    geometries (getFeatures (elements (original w ∖ highlighted w)) (layer w))
  ∧ yellow_rubber_band (self w) =
      geometries (getFeatures (elements (highlighted w)) (layer w))
  ∧ cyan_rubber_band (self w) ++ yellow_rubber_band (self w) ≡ₚ
      geometries (getFeatures (elements (original w)) (layer w))
  ∧ cyan_rubber_band (self (exec closeEvent w)) = []
  ∧ yellow_rubber_band (self (exec closeEvent w)) = []
  ∧ highlighted (exec closeEvent w) = highlighted w
  ∧ exec _do_cleanup w = exec closeEvent w.
Proof.
  intros Hr.
  destruct (session_inv_steady w Hr)
    as ([[Hwf Hsub] _] & _ & (_ & _ & Hc & Hy) & _).
  destruct (cleanup_empties_bands w Hwf) as (Hc0 & Hy0 & Hh0).
  rewrite Hc, Hy, cyan_for_eq, yellow_for_eq.
  split; [done|]. split; [done|].
  split; [|by rewrite Hc0, Hy0, Hh0].
  unfold geometries. rewrite <-omap_app. apply omap_Permutation.
  unfold features_in, getFeatures. apply filter_partition.
  - intros x. rewrite !elem_of_elements. rewrite elem_of_difference.
    split; [|set_solver].
    intros Hx. destruct (decide (x.1 ∈ highlighted w)); auto.
  - intros x. rewrite !elem_of_elements. set_solver.
Qed.

Lemma rubber_bands_in_sync_witness :
  session (exec (user_edits_cell 1 0 "x") world_editing)
  ∧ cyan_rubber_band (self (exec (user_edits_cell 1 0 "x") world_editing))
    = [10]
  ∧ yellow_rubber_band (self (exec (user_edits_cell 1 0 "x") world_editing))
    = [20].
Proof.
  assert (session (exec (user_edits_cell 1 0 "x") world_editing)) as Hs.
  { apply session_edit.
    - apply reachable_session, reachable_world_editing.
    - split; [apply (bool_decide_unpack _); by vm_compute|].
      apply (bool_decide_unpack _). by vm_compute. }
  split; [exact Hs|].
  destruct (rubber_bands_in_sync _ Hs) as (Hc & Hy & _).
  rewrite Hc, Hy. split; by vm_compute.
Defined.

Lemma table_cells w row cells c :
  table_up_to_date w →
  rows (table_widget (self w)) !! row = Some cells → c ∈ cells →
  cell_editable c = isEditable (layer w).
Proof.
  intros (Hrows & _) Hrow Hc. cbv zeta in Hrows. unfold populated in Hrows.
  apply list_elem_of_lookup_2 in Hrow. rewrite Hrows in Hrow.
  destruct (truthy (original w)); cbn in Hrow.
  - apply list_elem_of_fmap in Hrow as (f & -> & _).
    unfold make_row in Hc. apply list_elem_of_fmap in Hc as (n & -> & _). done.
  - apply list_elem_of_fmap in Hrow as (x & -> & _). by apply elem_of_nil in Hc.
Qed.

Lemma table_round_trip w :
  table_up_to_date w →
  (∀ row f, get_row_for_fid f (self w) = Some row ↔
            get_fid_for_row row (self w) = Some f)
  ∧ (∀ row row' f, get_fid_for_row row (self w) = Some f →
       get_fid_for_row row' (self w) = Some f → row = row').
Proof.
  intros Ht.
  destruct (table_fids w Ht) as (F & Hnd & Hfid & Hperm & Hne & He).
  assert (∀ row row' f, get_fid_for_row row (self w) = Some f →
            get_fid_for_row row' (self w) = Some f → row = row') as Hinj.
  { intros row row' f. rewrite !Hfid. intros H1 H2.
    by eapply NoDup_lookup. }
  split; [|exact Hinj].
  intros row f. unfold get_row_for_fid.
  destruct (decide (original w = ∅)) as [Ho|Ho].
  - destruct (He Ho) as (-> & -> & ->). cbn. rewrite Hfid. done.
  - destruct (Hne Ho) as (Hlen & ->). cbn. split.
    + destruct (list_find _ _) as [[i row']|] eqn:Hfind; [|done].
      cbn. intros [= ->].
      apply list_find_Some in Hfind as (_ & Hp & _). done.
    + intros Hf.
      assert (row < length (rows (table_widget (self w))))%nat as Hlt.
      { rewrite <-Hlen. rewrite Hfid in Hf. by eapply lookup_lt_Some. }
      assert (list_find (λ row0, get_fid_for_row row0 (self w) = Some f)
                (seq 0 (length (rows (table_widget (self w)))))
              = Some (row, row)) as ->; [|done].
      apply list_find_Some. split; [by apply lookup_seq_lt|]. split; [done|].
      intros j y Hj Hlt' Hy.
      apply lookup_seq in Hj as [-> _]. cbn in Hy.
      specialize (Hinj _ _ _ Hy Hf). lia.
Qed.



(** X15: in every reachable state [get_fid_for_row] and [get_row_for_fid]
    are inverse to each other, also after the user has sorted the table
    and on a layer without fields, and no two rows resolve to the same
    feature. *)
Theorem row_fid_round_trip w :
  reachable w →
  (∀ row f, get_row_for_fid f (self w) = Some row ↔
            get_fid_for_row row (self w) = Some f)
  ∧ (∀ row row' f, get_fid_for_row row (self w) = Some f →
       get_fid_for_row row' (self w) = Some f → row = row').
Proof.
  intros Hr. destruct (reachable_steady w Hr) as (_ & _ & Ht).
  by apply table_round_trip.
Qed.

Lemma row_fid_round_trip_witness :
  reachable world_123_2
  ∧ get_row_for_fid 2 (self world_123_2) = Some 1%nat.
Proof.
  split; [exact reachable_world_123_2|].
  apply (proj1 (row_fid_round_trip world_123_2 reachable_world_123_2)).
  by vm_compute.
Defined.

(** X16: what the row delegate paints in a reachable state: a row is
    yellow exactly when its feature is highlighted, a cyan row shows a
    feature of the original selection that is not highlighted, and every
    feature of the original selection that the layer holds has a row in
    its colour. *)
Theorem paint_spec w :
  reachable w →
  (∀ row, paint row w = Some Yellow →
     ∃ f, get_fid_for_row row (self w) = Some f
          ∧ f ∈ highlighted w ∧ f ∈ original w)
  ∧ (∀ row, paint row w = Some Cyan →
     ∃ f, get_fid_for_row row (self w) = Some f
          ∧ f ∈ original w ∖ highlighted w)
  ∧ (∀ f, f ∈ original w → is_Some (features (layer w) !! f) →
     ∃ row, get_fid_for_row row (self w) = Some f
            ∧ paint row w =
                Some (if bool_decide (f ∈ highlighted w) then Yellow else Cyan)).
Proof.
  intros Hr. destruct (reachable_steady w Hr) as (_ & _ & Ht).
  destruct (reachable_inv w Hr) as [[_ Hsub] Hrows].
  destruct (table_fids w Ht) as (F & Hnd & Hfid & Hperm & _).
  unfold paint. split; [|split].
  - intros row.
    destruct (get_fid_for_row row (self w)) as [f|] eqn:Hf; [|done].
    case_bool_decide as Hh; [|done]. intros _. exists f. set_solver.
  - intros row.
    destruct (get_fid_for_row row (self w)) as [f|] eqn:Hf; [|done].
    case_bool_decide as Hh; [done|]. intros _. exists f. split; [done|].
    apply elem_of_difference. split; [|done].
    by eapply get_fid_for_row_in.
  - intros f Ho Hl.
    assert (f ∈ F) as Hin.
    { rewrite Hperm, features_in_fst, elem_of_elements. done. }
    apply list_elem_of_lookup in Hin as [row Hrow].
    exists row. rewrite Hfid. split; [done|]. rewrite Hrow.
    by case_bool_decide.
Qed.

Lemma paint_spec_witness :
  reachable world_123_2
  ∧ paint 1 world_123_2 = Some Yellow
  ∧ ∃ f, get_fid_for_row 0 (self world_123_2) = Some f
         ∧ f ∈ original world_123_2 ∖ highlighted world_123_2.
Proof.
  split; [exact reachable_world_123_2|]. split; [by vm_compute|].
  apply (proj1 (proj2 (paint_spec world_123_2 reachable_world_123_2))).
  by vm_compute.
Defined.

(** ** A change of the layer's edit mode *)

Lemma select_rows_for_exact ids w :
  silenced w →
  select_rows_for ids w =
  Ran_ () (with_self (with_table (set_selected_rows
    (selected_rows (table_widget (self w))
     ∪ list_to_set (omap (λ f, get_row_for_fid f (self w)) ids)))) w).
Proof.
  unfold select_rows_for. revert w.
  induction ids as [|f ids IH]; intros w Hs; cbn [for_]; unfold_goal.
  - cbn. rewrite (right_id_L ∅ (∪)). done.
  - assert (omap (λ f, get_row_for_fid f (self w)) (f :: ids)
            = match get_row_for_fid f (self w) with
              | Some r => [r] | None => [] end
              ++ omap (λ f, get_row_for_fid f (self w)) ids) as ->.
    { cbn. by destruct (get_row_for_fid f (self w)). }
    destruct (get_row_for_fid f (self w)) as [r|] eqn:Hr.
    + rewrite select_row_silenced by done.
      rewrite IH by (destruct Hs as [Hs|Hs]; [left|right]; simp_world; done).
      cbn [app]. rewrite list_to_set_cons, (assoc_L (∪)). done.
    + by rewrite IH.
Qed.

(** X17: when the layer enters or leaves edit mode the table is rebuilt
    with every cell editable exactly when the layer now is; the
    highlights are rebound to a new set object with the same contents,
    the original selection is untouched, and the rows selected
    afterwards are exactly the rows the delegate paints yellow, selected
    without a [highlightChanged] signal. *)
Theorem editing_mode_change_spec editable w :
  reachable w →
  let w' := exec (host_toggles_editing editable) w in
  isEditable (layer w') = editable
  ∧ original w' = original w
  ∧ highlighted w' = highlighted w
  ∧ highlighted_features (self w') ≠ highlighted_features (self w)
  ∧ (∀ row cells c,
       rows (table_widget (self w')) !! row = Some cells → c ∈ cells →
       cell_editable c = editable)
  ∧ (∀ row, row ∈ selected_rows (table_widget (self w')) ↔
            paint row w' = Some Yellow)
  ∧ effects w' = [CanvasRefresh; ViewportUpdate] ++ effects w
  ∧ host_calls w' = host_calls w.
Proof.
  intros Hr w'.
  assert (reachable w') as Hr'
    by exact (reachable_step w (HostTogglesEditing editable) Hr I).
  destruct (reachable_steady w' Hr') as (_ & _ & Ht').
  destruct (reachable_inv w Hr) as [[(Ho & Hh & Hne) _] _].
  pose proof (table_round_trip w' Ht') as [Hrt _].
  assert (isEditable (layer w') = editable
          ∧ original w' = original w ∧ highlighted w' = highlighted w
          ∧ highlighted_features (self w') ≠ highlighted_features (self w)
          ∧ selected_rows (table_widget (self w')) =
              list_to_set (omap (λ f, get_row_for_fid f (self w'))
                             (elements (highlighted w)))
          ∧ effects w' = [CanvasRefresh; ViewportUpdate] ++ effects w
          ∧ host_calls w' = host_calls w) as (He & Ho' & Hh' & Hn' & Hsel & Hef & Hc).
  { subst w'. clear Hr' Ht' Hrt. xunfold.
    destruct (populate_table_grid
      (with_layer (set_isEditable editable) w)) as (rs & hs & ->). xsimp.
    match goal with
    | |- context [select_rows_for ?ids ?W] =>
        rewrite (select_rows_for_exact ids W) by solve_silenced
    end.
    xrun. unfold original, highlighted, get_row_for_fid, get_fid_for_row in *.
    simp_world. simp_store. rewrite (left_id_L ∅ (∪)).
    repeat split; try done. lia. }
  split; [done|]. split; [done|]. split; [done|]. split; [done|].
  split; [|split; [|done]].
  - intros row cells c Hrow Hin. rewrite <-He. by eapply table_cells.
  - intros row. rewrite Hsel, elem_of_list_to_set, list_elem_of_omap.
    setoid_rewrite elem_of_elements. setoid_rewrite Hrt.
    unfold paint. rewrite Hh'. split.
    + intros (f & Hf & ->). by rewrite bool_decide_eq_true_2.
    + destruct (get_fid_for_row row (self w')) as [f|]; [|done].
      case_bool_decide; [|done]. intros _. by exists f.
Qed.

Lemma editing_mode_change_spec_witness :
  reachable world_123_2
  ∧ selected_rows
      (table_widget (self (exec (host_toggles_editing true) world_123_2)))
    = {[1%nat]}
  ∧ highlighted (exec (host_toggles_editing true) world_123_2) = {[2]}.
Proof.
  split; [exact reachable_world_123_2|]. split; [by vm_compute|].
  destruct (editing_mode_change_spec true world_123_2 reachable_world_123_2)
    as (_ & _ & Hh & _).
  rewrite Hh. by vm_compute.
Defined.

(** ** Editing a cell *)



(** ** Closing the window *)

(** X19: closing the dock or the dialog empties both rubber bands and,
    when the original selection is not empty, writes it back to the
    layer under the guard flag, so that neither set changes: the layer
    selection a zoom had narrowed to the highlights is the original
    selection again.  With an empty original selection the layer is left
    as it is. *)
Theorem closeEvent_spec w :
  wf w →
  let w' := exec closeEvent w in
  exec _do_cleanup w = w'
  ∧ original w' = original w
  ∧ highlighted w' = highlighted w
  ∧ cyan_rubber_band (self w') = []
  ∧ yellow_rubber_band (self w') = []
  ∧ (original w ≠ ∅ →
     selectedFeatureIds (layer w') = original w
     ∧ host_calls w' = SelectByIds (elements (original w)) :: host_calls w
     ∧ _updating_selection (self w') = false
     ∧ selectedFeatureIds
         (layer (exec closeEvent (exec zoom_to_highlighted w))) = original w)
  ∧ (original w = ∅ → layer w' = layer w ∧ host_calls w' = host_calls w).
Proof.
  intros Hwf w'. subst w'. split; [done|].
  assert (∃ w1, zoom_to_highlighted w = Ran_ () w1 ∧ wf w1
                ∧ original w1 = original w) as (w1 & Ez & Hwf1 & Ho1).
  { destruct Hwf as (Ho & Hh & Hne).
    unfold zoom_to_highlighted. xunfold.
    case_truthy Hhl; xunfold; simp_world; simp_store;
      case_truthy Ht; try discriminate; cbn [negb]; xrun;
      (eexists; split; [reflexivity|]);
      unfold wf, original, highlighted in *; simp_world; simp_store;
      repeat split; first [store_side | done]. }
  rewrite Ez. cbn [world].
  assert (∀ w, wf w →
    let w' := exec closeEvent w in
    original w' = original w ∧ highlighted w' = highlighted w
    ∧ cyan_rubber_band (self w') = [] ∧ yellow_rubber_band (self w') = []
    ∧ (original w ≠ ∅ →
       selectedFeatureIds (layer w') = original w
       ∧ host_calls w' = SelectByIds (elements (original w)) :: host_calls w
       ∧ _updating_selection (self w') = false)
    ∧ (original w = ∅ → layer w' = layer w ∧ host_calls w' = host_calls w))
    as Hclose.
  { clear. intros w (Ho & Hh & Hne) w'. subst w'.
    unfold closeEvent, cleanup_rubber_bands. xunfold. simp_world.
    case_truthy Ht; xrun; unfold original, highlighted in *;
      simp_world; simp_store; rewrite ?list_to_set_elements_L;
      rewrite ?truthy_true, ?truthy_false in *; repeat split; done. }
  destruct (Hclose w Hwf) as (H1 & H2 & H3 & H4 & H5 & H6).
  destruct (Hclose w1 Hwf1) as (_ & _ & _ & _ & H5' & _).
  split; [done|]. split; [done|]. split; [done|]. split; [done|].
  split; [|done].
  intros Hne. destruct (H5 Hne) as (Ha & Hb & Hc).
  split; [done|]. split; [done|]. split; [done|].
  rewrite <-Ho1. apply H5'. by rewrite Ho1.
Qed.

Lemma closeEvent_spec_witness :
  wf world_123_2
  ∧ selectedFeatureIds (layer (exec zoom_to_highlighted world_123_2)) = {[2]}
  ∧ selectedFeatureIds
      (layer (exec closeEvent (exec zoom_to_highlighted world_123_2)))
    = {[1; 2; 3]}.
Proof.
  assert (wf world_123_2) as Hwf by (vm_compute; lia).
  assert (original world_123_2 ≠ ∅) as Hne
    by (apply (bool_decide_unpack _); by vm_compute).
  split; [exact Hwf|]. split; [by vm_compute|].
  destruct (closeEvent_spec world_123_2 Hwf) as (_ & _ & _ & _ & _ & Hc & _).
  destruct (Hc Hne) as (_ & _ & _ & Hz). rewrite Hz. by vm_compute.
Defined.

(** ** The filter dialog's condition list *)

Lemma string_app_assoc (a b c : string) : (a +:+ b) +:+ c = a +:+ (b +:+ c).
Proof.
  induction a as [|x a IH]; [done|].
  change (String x ((a +:+ b) +:+ c) = String x (a +:+ (b +:+ c))).
  by rewrite IH.
Qed.

Lemma concat_app sep (l1 l2 : list string) :
  l1 ≠ [] → l2 ≠ [] →
  String.concat sep (l1 ++ l2)
  = String.concat sep l1 +:+ sep +:+ String.concat sep l2.
Proof.
  intros H1 H2. induction l1 as [|a l1 IH]; [done|].
  destruct l1 as [|b l1].
  - cbn [app]. destruct l2 as [|c l2]; [done|]. reflexivity.
  - change (a +:+ sep +:+ String.concat sep ((b :: l1) ++ l2)
            = (a +:+ sep +:+ String.concat sep (b :: l1)) +:+ sep
              +:+ String.concat sep l2).
    rewrite IH by done. by rewrite !string_app_assoc.
Qed.

Lemma concat_mjoin sep (ls : list (list string)) :
  Forall (λ l, l ≠ []) ls →
  String.concat sep (mjoin ls) = String.concat sep (String.concat sep <$> ls).
Proof.
  induction ls as [|l ls IH]; intros H; [done|].
  inversion H as [|? ? Hl Hls]; subst.
  change (mjoin (l :: ls)) with (l ++ mjoin ls).
  destruct ls as [|l' ls].
  - cbn. by rewrite app_nil_r.
  - rewrite concat_app; [|done|].
    + rewrite IH by done. reflexivity.
    + inversion Hls as [|? ? Hl' _]; subst.
      change (mjoin (l' :: ls)) with (l' ++ mjoin ls). by destruct l'.
Qed.

Lemma expression_is_display_aux cs (d : FilterDialog) :
  let d' := rebuild_expression (update_conditions_display
              {| conditions := cs; conditions_list := conditions_list d;
                 expr_edit := expr_edit d; match_label := match_label d |}) in
  expr_edit d' = join " " (conditions_list d')
  ∧ length (conditions_list d') = length cs
  ∧ conditions d' = cs
  ∧ head (conditions_list d') = snd <$> head cs.
Proof.
  intros d'. subst d'. cbn. split; [|split; [|split]].
  - case_bool_decide as Hcs; [by rewrite Hcs|].
    unfold join. rewrite concat_mjoin.
    + f_equal. rewrite <-(list_fmap_id (imap _ cs)) at 1.
      rewrite !fmap_imap. apply imap_ext. intros i [logic e] _. cbn.
      by destruct (_ && _).
    + apply Forall_forall. intros l Hl.
      apply elem_of_lookup_imap in Hl as (i & c & -> & _).
      by destruct (_ && _).
  - by rewrite length_imap.
  - done.
  - destruct cs as [|[logic e] cs]; [done|]. cbn.
    by rewrite andb_false_r.
Qed.

(** X20: the expression editor and the list widget render the same
    conditions: after every rebuild, the expression is the items of the
    list joined by single spaces, the list has one item per condition,
    and the logic word of the first condition appears in neither. *)
Theorem expression_is_display cs (d : FilterDialog) :
  let d' := rebuild_expression (update_conditions_display
              {| conditions := cs; conditions_list := conditions_list d;
                 expr_edit := expr_edit d; match_label := match_label d |}) in
  expr_edit d' = join " " (conditions_list d')
  ∧ length (conditions_list d') = length cs
  ∧ conditions d' = cs
  ∧ head (conditions_list d') = snd <$> head cs.
Proof. apply expression_is_display_aux. Qed.

Section keep.
Context {A : Type}.
Implicit Types xs : list A.

Lemma keep_ext (l l' : list nat) (f : nat → nat) xs :
  (∀ i, (i < length xs)%nat → f i ∉ l ↔ f i ∉ l') →
  filter (λ p : nat * A, p.1 ∉ l) (imap (λ i, pair (f i)) xs)
  = filter (λ p : nat * A, p.1 ∉ l') (imap (λ i, pair (f i)) xs).
Proof.
  revert f. induction xs as [|x xs IH]; intros f Hf; [done|].
  rewrite imap_cons, !filter_cons. cbn [fst].
  change (imap ((λ i, pair (f i)) ∘ S) xs)
    with (imap (λ i, @pair nat A ((f ∘ S) i)) xs).
  rewrite (IH (f ∘ S)) by (intros i Hi; apply Hf; cbn; lia).
  destruct (decide (f 0%nat ∉ l)) as [Hq|Hq],
    (decide (f 0%nat ∉ l')) as [Hq'|Hq']; try done;
    exfalso; apply (Hf 0%nat) in Hq || apply (Hf 0%nat) in Hq';
    first [done | cbn; lia].
Qed.

Lemma keep_all (l : list nat) (f : nat → nat) xs :
  (∀ i, (i < length xs)%nat → f i ∉ l) →
  (filter (λ p : nat * A, p.1 ∉ l) (imap (λ i, pair (f i)) xs)).*2 = xs.
Proof.
  revert f. induction xs as [|x xs IH]; intros f Hf; [done|].
  rewrite imap_cons, filter_cons. cbn [fst].
  change (imap ((λ i, pair (f i)) ∘ S) xs)
    with (imap (λ i, @pair nat A ((f ∘ S) i)) xs).
  rewrite decide_True by (apply Hf; cbn; lia).
  cbn [fmap list_fmap snd]. f_equal. apply (IH (f ∘ S)).
  intros i Hi. apply Hf. cbn. lia.
Qed.

(** Deleting rows from the highest down removes exactly those rows. *)
Lemma delete_descending (l : list nat) xs :
  StronglySorted (λ a b, b ≤ a)%nat l → NoDup l →
  foldl (λ conds row,
           if bool_decide (row < length conds)%nat
           then delete row conds else conds) xs l
  = (filter (λ p : nat * A, p.1 ∉ l) (imap pair xs)).*2.
Proof.
  intros Hs. revert xs. induction Hs as [|m l Hs IH Hm]; intros xs Hnd.
  - cbn [foldl]. symmetry.
    change (imap pair xs) with (imap (λ i, @pair nat A i) xs).
    apply (keep_all [] (λ j, j)). intros i _. apply not_elem_of_nil.
  - apply NoDup_cons in Hnd as [Hnm Hnd]. cbn [foldl].
    assert (∀ x, x ∈ l → (x < m)%nat) as Hlt.
    { intros x Hx. rewrite Forall_forall in Hm. specialize (Hm x Hx).
      assert (x ≠ m) by (intros ->; done). lia. }
    case_bool_decide as Hlen.
    + rewrite IH by done.
      destruct (lookup_lt_is_Some_2 xs m Hlen) as [c Hc].
      rewrite delete_take_drop.
      rewrite <-(take_drop_middle xs m c Hc) at 3.
      rewrite !imap_app, !filter_app, !fmap_app.
      rewrite length_take_le by lia. f_equal.
      * f_equal.
        change (imap pair (take m xs))
          with (imap (λ i, @pair nat A i) (take m xs)).
        apply (keep_ext l (m :: l) (λ j, j)).
        intros i Hi. rewrite length_take in Hi.
        rewrite not_elem_of_cons. split; [|tauto]. intros; split; [lia|done].
      * rewrite imap_cons, filter_cons. cbn [fst].
        rewrite decide_False by (rewrite Nat.add_0_r; set_solver).
        change (imap (λ n, pair (m + n)%nat) (drop (S m) xs))
          with (imap (λ i, @pair nat A (m + i)%nat) (drop (S m) xs)).
        rewrite (keep_all l (λ j, m + j)%nat).
        2:{ intros i _ Hi. apply Hlt in Hi. lia. }
        symmetry.
        change (imap ((λ n, pair (m + n)%nat) ∘ S) (drop (S m) xs))
          with (imap (λ i, @pair nat A (m + S i)%nat) (drop (S m) xs)).
        apply (keep_all (m :: l) (λ j, m + S j)%nat).
        intros i _. rewrite not_elem_of_cons. split; [lia|].
        intros Hi. apply Hlt in Hi. lia.
    + rewrite IH by done. f_equal.
      change (imap pair xs) with (imap (λ i, @pair nat A i) xs).
      apply (keep_ext l (m :: l) (λ j, j)).
      intros i Hi. rewrite not_elem_of_cons.
      split; [|tauto]. intros; split; [lia|done].
Qed.
End keep.

(** X21: [remove_selected_conditions] deletes the selected rows from the
    highest down, so that no deletion shifts a row still to be deleted:
    what remains are exactly the conditions of the rows that were not
    selected, in their order, rows beyond the list being ignored; the
    list widget and the expression are rebuilt from them. *)
Theorem remove_selected_conditions_spec selected d :
  NoDup selected →
  let d' := remove_selected_conditions selected d in
  conditions d' =
    (filter (λ p, p.1 ∉ selected) (imap pair (conditions d))).*2
  ∧ expr_edit d' = join " " (conditions_list d')
  ∧ length (conditions_list d') = length (conditions d').
Proof.
  intros Hnd d'. subst d'. unfold remove_selected_conditions. cbv zeta.
  set (sorted := merge_sort _ selected).
  assert (sorted ≡ₚ selected) as Hp by apply merge_sort_Permutation.
  assert (StronglySorted (λ a b, b ≤ a)%nat sorted) as Hs.
  { apply StronglySorted_merge_sort.
    - intros a b c ? ?. lia.
    - intros a b. lia. }
  set (cs := foldl _ _ sorted).
  assert (cs = (filter (λ p, p.1 ∉ selected) (imap pair (conditions d))).*2)
    as Hcs.
  { subst cs. rewrite delete_descending; [|done|by rewrite Hp].
    f_equal. apply list_filter_iff. intros p. by rewrite Hp. }
  destruct (expression_is_display_aux cs d) as (He & Hl & Hc & _).
  cbv zeta in He, Hl, Hc. rewrite Hc, He, Hl. by rewrite Hcs.
Qed.

Lemma remove_selected_conditions_spec_witness :
  NoDup [0%nat; 5%nat]
  ∧ expr_edit (remove_selected_conditions [0%nat; 5%nat]
      {| conditions := [(None, "a = 1"); (Some "AND", "b = 2");
                        (Some "OR", "c = 3")];
         conditions_list := []; expr_edit := ""; match_label := "" |})
    = "b = 2 OR c = 3".
Proof.
  assert (NoDup [0%nat; 5%nat]) as Hnd by (apply (bool_decide_unpack _); by vm_compute).
  split; [exact Hnd|].
  destruct (remove_selected_conditions_spec [0%nat; 5%nat]
    {| conditions := [(None, "a = 1"); (Some "AND", "b = 2");
                      (Some "OR", "c = 3")];
       conditions_list := []; expr_edit := ""; match_label := "" |} Hnd)
    as (_ & He & _).
  rewrite He. by vm_compute.
Defined.

Lemma mjoin_app_list {A} (l1 l2 : list (list A)) :
  mjoin (l1 ++ l2) = mjoin l1 ++ mjoin l2.
Proof.
  induction l1 as [|x l1 IH]; [done|].
  change (x ++ mjoin (l1 ++ l2) = (x ++ mjoin l1) ++ mjoin l2).
  by rewrite IH, (assoc_L (++)).
Qed.

(** X22: a condition is appended, never inserted, and the expression grows
    at its end.  With a non-empty condition text, the first condition
    makes the expression that text alone, its logic word dropped; a
    later one appends a space, the logic word and a space when one is
    given, and the text to the expression of the conditions so far.
    Whatever the expression editor held (text the user typed) is
    replaced.  Without a condition text nothing changes. *)
Theorem add_condition_with_logic_spec logic text d :
  text ≠ "" →
  let d' := add_condition_with_logic logic (Some text) d in
  conditions d' = conditions d ++ [(logic, text)]
  ∧ expr_edit d' =
      (if bool_decide (conditions d = []) then text
       else expr_edit (rebuild_expression d) +:+ " " +:+
            (if logic_given logic then default "" logic +:+ " " +:+ text
             else text))
  ∧ add_condition_with_logic logic None d = d
  ∧ add_condition_with_logic logic (Some "") d = d.
Proof.
  intros Ht d'. subst d'. unfold add_condition_with_logic.
  rewrite bool_decide_false by done. split; [done|].
  split; [|done]. cbn.
  rewrite bool_decide_false by (by destruct (conditions d)).
  case_bool_decide as Hcs.
  - rewrite Hcs. cbn. by rewrite andb_false_r.
  - rewrite imap_app, mjoin_app_list. cbn. rewrite Nat.add_0_r.
    rewrite (bool_decide_true (0 < length (conditions d))%nat)
      by (destruct (conditions d); [done|cbn; lia]).
    rewrite andb_true_r, app_nil_r. unfold join.
    rewrite concat_app.
    + by destruct (logic_given logic).
    + destruct (conditions d) as [|c cs]; [done|]. cbn.
      by destruct (_ && _).
    + by destruct (logic_given logic).
Qed.

Lemma add_condition_with_logic_spec_witness :
  "c = 3" ≠ ""
  ∧ expr_edit (add_condition_with_logic (Some "OR") (Some "c = 3")
      {| conditions := [(Some "AND", "a = 1"); (Some "AND", "b = 2")];
         conditions_list := []; expr_edit := "typed by hand";
         match_label := "" |})
    = "a = 1 AND b = 2 OR c = 3".
Proof.
  assert ("c = 3" ≠ "") as Ht by done.
  split; [exact Ht|].
  destruct (add_condition_with_logic_spec (Some "OR") "c = 3"
    {| conditions := [(Some "AND", "a = 1"); (Some "AND", "b = 2")];
       conditions_list := []; expr_edit := "typed by hand";
       match_label := "" |} Ht) as (_ & He & _).
  rewrite He. by vm_compute.
Defined.

(** ** The filter dialog's value cache *)

Lemma counted_0 entry : counted 0 entry = entry.
Proof. done. Qed.

Lemma counted_counted j k entry :
  counted k (counted j entry) = counted (j + k) entry.
Proof.
  unfold counted. repeat case_bool_decide; try lia; subst; cbn;
    rewrite ?Nat.add_0_r; try done. f_equal. lia.
Qed.

Lemma count_value_spec name v (c : ValueCache) :
  is_Some (c !! name) →
  ∃ c', count_value name v c = Some c'
    ∧ dom c' = dom c
    ∧ (∀ n, n ≠ name → c' !! n = c !! n)
    ∧ ∀ n u, recorded c' n u =
        counted (if bool_decide (n = name ∧ u = v) then 1 else 0)
                (recorded c n u).
Proof.
  intros [values Hv]. unfold count_value. rewrite Hv.
  eexists. split; [done|]. split; [|split].
  - rewrite dom_insert_L. apply elem_of_dom_2 in Hv. set_solver.
  - intros n Hn. by rewrite lookup_insert_ne.
  - intros n u. unfold recorded.
    destruct (decide (n = name)) as [->|Hn].
    + rewrite lookup_insert_eq, Hv. cbn.
      destruct (decide (u = v)) as [->|Hu].
      * rewrite lookup_insert_eq, bool_decide_true by done. done.
      * rewrite lookup_insert_ne by done.
        rewrite bool_decide_false by tauto. done.
    + rewrite lookup_insert_ne by done.
      rewrite bool_decide_false by tauto. done.
Qed.

Lemma cache_feature_spec names f (c : ValueCache) :
  (∀ n, n ∈ names → is_Some (c !! n)) →
  ∃ c', cache_feature names f c = Some c'
    ∧ dom c' = dom c
    ∧ (∀ n, n ∉ names → c' !! n = c !! n)
    ∧ ∀ n u, recorded c' n u =
        counted (if bool_decide (attrs f.2 !! n = Some u)
                 then occurrences n names else 0)
                (recorded c n u).
Proof.
  unfold cache_feature. revert c.
  induction names as [|name names IH]; intros c Hdom.
  - exists c. split; [done|]. split; [done|]. split; [done|]. intros n u.
    by destruct (bool_decide _).
  - cbn [foldl mbind option_bind].
    assert (∃ c1, match attrs f.2 !! name with
                  | Some str_val => count_value name str_val c
                  | None => Some c
                  end = Some c1
              ∧ dom c1 = dom c
              ∧ (∀ n, n ≠ name → c1 !! n = c !! n)
              ∧ ∀ n u, recorded c1 n u =
                  counted (if bool_decide (n = name ∧ attrs f.2 !! n = Some u)
                           then 1 else 0) (recorded c n u))
      as (c1 & -> & Hd1 & Hf1 & Hr1).
    { destruct (attrs f.2 !! name) as [v|] eqn:Ha.
      - destruct (count_value_spec name v c) as (c1 & ? & ? & ? & Hr);
          [apply Hdom; left|].
        exists c1. split; [done|]. split; [done|]. split; [done|].
        intros n u. rewrite Hr.
        rewrite (bool_decide_ext (n = name ∧ u = v)
                   (n = name ∧ attrs f.2 !! n = Some u)); [done|].
        split.
        + by intros [-> ->].
        + intros [-> ?]. split; [done|congruence].
      - exists c. split; [done|]. split; [done|]. split; [done|]. intros n u.
        rewrite bool_decide_false; [done|]. intros [-> ?]. congruence. }
    destruct (IH c1) as (c' & Hc' & Hd' & Hf' & Hr').
    { intros n Hn. apply elem_of_dom. rewrite Hd1. apply elem_of_dom.
      apply Hdom. by right. }
    exists c'. split; [done|]. split; [congruence|]. split.
    { intros n Hn. apply not_elem_of_cons in Hn as [? ?].
      rewrite Hf' by done. by apply Hf1. }
    intros n u.
    rewrite Hr', Hr1, counted_counted. f_equal.
    unfold occurrences. rewrite filter_cons.
    destruct (decide (attrs f.2 !! n = Some u)) as [Ha|Ha].
    + rewrite (bool_decide_true (attrs f.2 !! n = Some u)) by done.
      destruct (decide (name = n)) as [->|Hn].
      * rewrite bool_decide_true by done. cbn [length]. lia.
      * rewrite bool_decide_false by (intros [? ?]; done). done.
    + rewrite (bool_decide_false (attrs f.2 !! n = Some u)) by done.
      by rewrite bool_decide_false by tauto.
Qed.

Lemma cleared_spec names (c0 : ValueCache) :
  let c := foldl (λ c name, <[name := ∅]> c) c0 names in
  (∀ n, n ∈ names → c !! n = Some ∅)
  ∧ (∀ n, n ∉ names → c !! n = c0 !! n).
Proof.
  revert c0. induction names as [|name names IH]; intros c0; cbn.
  - split; [|done]. intros n Hn. by apply elem_of_nil in Hn.
  - destruct (IH (<[name := ∅]> c0)) as [H1 H2]. split.
    + intros n Hn. destruct (decide (n ∈ names)) as [Hin|Hin]; [by apply H1|].
      rewrite H2 by done. apply elem_of_cons in Hn as [->|?]; [|done].
      by rewrite lookup_insert_eq.
    + intros n Hn. apply not_elem_of_cons in Hn as [? ?].
      rewrite H2 by done. by rewrite lookup_insert_ne.
Qed.

Lemma cache_features_spec names feats (c : ValueCache) :
  (∀ n, n ∈ names → is_Some (c !! n)) →
  ∃ c', foldl (λ c f, c ≫= cache_feature names f) (Some c) feats = Some c'
    ∧ dom c' = dom c
    ∧ (∀ n, n ∉ names → c' !! n = c !! n)
    ∧ ∀ n u, recorded c' n u =
        counted (occurrences n names * length (with_value n u feats))
                (recorded c n u).
Proof.
  revert c. induction feats as [|f feats IH]; intros c Hdom.
  - exists c. split; [done|]. split; [done|]. split; [done|]. intros n u. cbn.
    by rewrite Nat.mul_0_r.
  - cbn [foldl mbind option_bind].
    destruct (cache_feature_spec names f c Hdom)
      as (c1 & -> & Hd1 & Hf1 & Hr1).
    destruct (IH c1) as (c' & Hc' & Hd' & Hf' & Hr').
    { intros n Hn. apply elem_of_dom. rewrite Hd1. apply elem_of_dom.
      by apply Hdom. }
    exists c'. split; [done|]. split; [congruence|]. split.
    { intros n Hn. rewrite Hf' by done. by apply Hf1. }
    intros n u.
    rewrite Hr', Hr1, counted_counted. f_equal.
    unfold with_value. rewrite filter_cons.
    destruct (decide (attrs f.2 !! n = Some u)) as [Ha|Ha].
    + rewrite bool_decide_true by done. cbn [length]. lia.
    + rewrite bool_decide_false by done. lia.
Qed.

(** X23: [cache_all_field_values] counts: it never fails with a
    [KeyError], leaves the entries of names that are no field of the
    layer as they were, and gives every field of the layer a dictionary
    of its own in which a printed value is a key exactly when a feature
    of the selection carries it, with the number of those features as
    its count (times the number of fields of that name, should the layer
    have several).  Attributes that are [None] are not counted. *)
Theorem cache_all_field_values_spec l selected_fids (value_cache : ValueCache) :
  ∃ cache,
    cache_all_field_values l selected_fids value_cache = Some cache
    ∧ (∀ name, name ∉ fields l → cache !! name = value_cache !! name)
    ∧ (∀ name, name ∈ fields l →
         ∃ values, cache !! name = Some values
           ∧ ∀ str_val,
               values !! str_val =
                 counted (occurrences name (fields l)
                          * length (with_value name str_val
                              (getFeatures (elements selected_fids) l)))
                         None).
Proof.
  unfold cache_all_field_values. cbv zeta.
  destruct (cleared_spec (fields l) value_cache) as [Hin Hout].
  cbv zeta in Hin, Hout.
  set (cleared := foldl _ value_cache (fields l)) in *.
  destruct (cache_features_spec (fields l)
              (getFeatures (elements selected_fids) l) cleared)
    as (cache & Hc & Hd & Hf & Hr).
  { intros n Hn. rewrite Hin by done. by eexists. }
  exists cache. split; [done|]. split.
  - intros name Hn. rewrite Hf by done. by apply Hout.
  - intros name Hn.
    assert (is_Some (cache !! name)) as [values Hv].
    { apply elem_of_dom. rewrite Hd. apply elem_of_dom.
      rewrite Hin by done. by eexists. }
    exists values. split; [done|]. intros u.
    specialize (Hr name u). unfold recorded in Hr.
    rewrite Hv, Hin in Hr by done. exact Hr.
Qed.

(** ** The filter dialog's operators *)

(** X24: the operator combo, the symbol read from it and the condition
    builder agree.  For every entry of the combo, [get_operator_symbol]
    returns the operator the entry starts with (the entry is the operator,
    or the operator followed by a gloss in parentheses), although [IN] is
    part of [NOT IN], [LIKE] of [NOT LIKE] and [=] of three other
    operators.  The value inputs are disabled exactly for the entries
    whose condition is built without a value, whatever the inputs hold;
    for every entry that leaves them enabled, no condition is built
    while no value is given. *)
Theorem operators_agree is_float upper text :
  text ∈ op_combo_items →
  let op := get_operator_symbol text in
  (text = op ∨ String.prefix (op +:+ " (") text = true)
  ∧ (on_operator_changed text = false →
     ∀ field manual selected_items,
       build_single_condition is_float upper field text manual selected_items
       = Some ((dquote +:+ field +:+ dquote) +:+ " " +:+ op))
  ∧ (on_operator_changed text = true →
     ∀ field,
       build_single_condition is_float upper field text "" [] = None).
Proof.
  intros Hin op. subst op. unfold op_combo_items in Hin.
  repeat (apply elem_of_cons in Hin as [->|Hin]);
    [..|by apply elem_of_nil in Hin];
    (split; [first [by left | by right]|split]).
  all: try (intros Hf field manual items;
            first [by vm_compute in Hf | reflexivity]).
  all: intros Hf field; first [by vm_compute in Hf | reflexivity].
Qed.

Lemma operators_agree_witness :
  "NOT IN" ∈ op_combo_items
  ∧ get_operator_symbol "NOT IN" = "NOT IN"
  ∧ build_single_condition (λ _, false) id "name" "NOT IN" "" [] = None.
Proof.
  assert ("NOT IN" ∈ op_combo_items) as Hin.
  { unfold op_combo_items. set_solver. }
  split; [exact Hin|].
  destruct (operators_agree (λ _, false) id "NOT IN" Hin) as (Hop & _ & Hb).
  split; [by vm_compute|]. by apply Hb.
Defined.

(** X25: a comparison is never built from several values.  With no manual
    value and at least two values selected in the list, every operator
    other than the NULL tests and [BETWEEN] yields a membership list of
    the values, each quoted unless [float] accepts it; the list is
    negated for [NOT IN] only, so that [!=] and [NOT LIKE] with several
    values select the features that do carry one of the values. *)
Theorem several_values_make_a_list is_float upper field text v0 v1 vs :
  let op := get_operator_symbol text in
  op ∉ ["IS NULL"; "IS NOT NULL"; "BETWEEN"] →
  build_single_condition is_float upper field text "" (v0 :: v1 :: vs)
  = Some ((dquote +:+ field +:+ dquote) +:+ " "
          +:+ (if String.eqb op "NOT IN" then "NOT IN" else "IN") +:+ " ("
          +:+ String.concat ", "
                (map (λ v, if is_float v then v else "'" +:+ v +:+ "'")
                     (v0 :: v1 :: vs))
          +:+ ")").
Proof.
  intros op Hop. unfold build_single_condition. fold op.
  rewrite !not_elem_of_cons in Hop. destruct Hop as (H1 & H2 & H3 & _).
  apply String.eqb_neq in H1, H2, H3. rewrite H1, H2, H3.
  cbn [orb negb String.eqb]. cbv zeta.
  rewrite (bool_decide_true (1 < _)%nat) by (cbn; lia).
  by rewrite !orb_true_r.
Qed.

Lemma several_values_make_a_list_witness :
  (get_operator_symbol "!= (not equals)"
     ∉ ["IS NULL"; "IS NOT NULL"; "BETWEEN"])
  ∧ build_single_condition (λ _, false) id "name" "!= (not equals)" ""
      ["a"; "b"]
    = Some (dquote +:+ "name" +:+ dquote +:+ " IN ('a', 'b')").
Proof.
  assert (get_operator_symbol "!= (not equals)"
            ∉ ["IS NULL"; "IS NOT NULL"; "BETWEEN"]) as Hop.
  { apply (bool_decide_unpack _). by vm_compute. }
  split; [exact Hop|].
  rewrite (several_values_make_a_list (λ _, false) id "name"
             "!= (not equals)" "a" "b" [] Hop).
  by vm_compute.
Defined.
